(** * grep_sources: a shallow embedding of [grep_sources.py]

    The script walks the directories given on the command line, records the
    modification time of every source file it finds, sorts the files newest
    first and runs [grep] on each of them.

    The embedding follows the script function by function.  The three global
    collections ([file_modtimes], [canonicals], [permission_errors]) and the
    text printed so far form an explicit [state]; the operating system is a
    record of oracles ([World]) answering the calls the script makes
    ([os.stat], [os.scandir], [os.path.getmtime], [subprocess.Popen], ...).
    Python exceptions are values of type [exception]; a function that may
    raise returns an [outcome]. *)

From Stdlib Require Import ZArith List String Ascii Bool Lia Permutation Sorted DecimalString.
From stdpp Require Import gmap strings list.

Local Open Scope Z_scope.

(** ** Python strings

    A [str] is modelled by [string]: a finite sequence of characters, each
    character an [ascii]. *)

Module Py.

Definition truthy (s : string) : bool := negb (String.eqb s "").

(** [s.startswith(p)] *)
Definition startswith (s p : string) : bool := String.prefix p s.

(** [s.endswith(p)] *)
Definition endswith (s p : string) : bool :=
  let n := String.length s in
  let m := String.length p in
  (m <=? n)%nat && String.eqb (substring (n - m) m s) p.

(** [s.endswith(t)] for a tuple [t] of suffixes *)
Definition endswith_any (s : string) (t : list string) : bool :=
  existsb (endswith s) t.

(** [s[:n]] *)
Definition slice_to (n : nat) (s : string) : string := substring 0 n s.

(** [c.isspace()] for the characters below 256 *)
Definition isspace (c : ascii) : bool :=
  let n := nat_of_ascii c in
  ((9 <=? n) && (n <=? 13) || (28 <=? n) && (n <=? 32)
   || (n =? 133) || (n =? 160))%nat.

Fixpoint lstrip (s : string) : string :=
  match s with
  | EmptyString => EmptyString
  | String c r => if isspace c then lstrip r else s
  end.

Fixpoint rstrip (s : string) : string :=
  match s with
  | EmptyString => EmptyString
  | String c r =>
      match rstrip r with
      | EmptyString => if isspace c then EmptyString else String c EmptyString
      | r' => String c r'
      end
  end.

(** [s.strip()] *)
Definition strip (s : string) : string := rstrip (lstrip s).

Definition newline : ascii := ascii_of_nat 10.
Definition slash : ascii := ascii_of_nat 47.

Fixpoint split_from (sep : ascii) (cur s : string) : list string :=
  match s with
  | EmptyString => [cur]
  | String c r =>
      if Ascii.eqb c sep then cur :: split_from sep EmptyString r
      else split_from sep (cur +:+ String c EmptyString) r
  end.

(** [s.split(sep)] for a separator of one character *)
Definition split (sep : ascii) (s : string) : list string :=
  split_from sep EmptyString s.

(** [str(n)] for a length *)
Definition str_of_nat (n : nat) : string :=
  NilEmpty.string_of_uint (Nat.to_uint n).

(** [posixpath.join(a, b)] *)
Definition os_path_join (a b : string) : string :=
  if startswith b "/" then b
  else if negb (truthy a) || endswith a "/" then a +:+ b
  else a +:+ "/" +:+ b.

Fixpoint basename_from (acc p : string) : string :=
  match p with
  | EmptyString => acc
  | String c r =>
      if Ascii.eqb c slash then basename_from EmptyString r
      else basename_from (acc +:+ String c EmptyString) r
  end.

(** [posixpath.basename(p)]: what follows the last slash *)
Definition os_path_basename (p : string) : string :=
  basename_from EmptyString p.

(** *** Dictionaries

    A [dict] keeps its keys in insertion order; assigning to a key that is
    present replaces the value where it stands. *)

Definition dict (V : Type) : Type := list (string * V).

Fixpoint dict_set {V} (d : dict V) (k : string) (v : V) : dict V :=
  match d with
  | [] => [(k, v)]
  | (k', v') :: r =>
      if String.eqb k' k then (k', v) :: r else (k', v') :: dict_set r k v
  end.

Fixpoint dict_get {V} (d : dict V) (k : string) : option V :=
  match d with
  | [] => None
  | (k', v') :: r => if String.eqb k' k then Some v' else dict_get r k
  end.

(** [k in d] *)
Definition dict_in {V} (k : string) (d : dict V) : bool :=
  match dict_get d k with Some _ => true | None => false end.

Definition dict_keys {V} (d : dict V) : list string := map fst d.

(** *** [sorted]

    [sorted(l, key=key, reverse=reverse)].  CPython sorts with a stable
    algorithm; with [reverse=True] it reverses the list, sorts it and
    reverses the result, so that equal keys keep their original order.
    A stable sort has one possible result, so a stable insertion sort
    stands for it. *)

Section Sorted.
Context {A K : Type} (key : A -> K) (leb : K -> K -> bool).

Fixpoint insert_sorted (x : A) (l : list A) : list A :=
  match l with
  | [] => [x]
  | y :: r =>
      if leb (key x) (key y) then x :: y :: r
      else y :: insert_sorted x r
  end.

(** ascending and stable: [foldr] inserts the last element first, and an
    element goes in front of the equal ones already placed. *)
Definition stable_sort (l : list A) : list A :=
  fold_right insert_sorted [] l.

Definition sorted (reverse : bool) (l : list A) : list A :=
  if reverse then rev (stable_sort (rev l)) else stable_sort l.
End Sorted.

End Py.


(** ** Exceptions *)

(** The exceptions that can occur; [OSError] stands for the operating-system
    errors other than the two named. *)
Inductive exception : Type :=
| PermissionError
| FileNotFoundError
| OSError
| KeyError (key : string)
| CannotFind (file_or_dir : string)
    (* [Exception(f"Cannot find '{file_or_dir}'")] *)
| SubprocessFailed (ret : Z) (err out : string)
    (* the [Exception] of [run_grep]; its message is built from these *)
| SystemExit (code : Z).

Inductive result (A : Type) : Type :=
| Ok (a : A)
| Raise (e : exception).
Arguments Ok {A} a.
Arguments Raise {A} e.

Definition is_PermissionError (e : exception) : bool :=
  match e with PermissionError => true | _ => false end.

(** ** The environment *)

(** [os.stat(path)]: the two fields that identify a file *)
Record stat_result : Type := { st_dev : Z; st_ino : Z }.

(** An [os.DirEntry]: its name, its [inode()] and what its three tests
    answer. *)
Record DirEntry : Type := {
  entry_name : string;
  entry_inode : Z;
  entry_is_symlink : result bool;
  entry_is_dir : result bool;
  entry_is_file : result bool
}.

(** What the operating system answers.  A modification time is a number of
    which the script uses the order only; it is an integer here.  Formatting
    an age as text ([interpret_time]) is floating-point arithmetic and the
    help text is argparse's; both are taken as given. *)
Record World : Type := {
  os_path_isfile : string -> bool;
  os_path_isdir : string -> bool;
  os_path_exists : string -> bool;
  os_stat : string -> result stat_result;
  os_path_getmtime : string -> result Z;
  os_scandir : string -> result (list DirEntry);
  (* [Popen(cmdline, ...)], [communicate()] and [wait()]:
     return code, standard output, standard error *)
  Popen : list string -> result (Z * string * string);
  rc_file : string;                 (* [os.path.expanduser("~/.grep_sources_dirs")] *)
  open_read : string -> result string;
  interpret_time : Z -> string;
  parser_help : string
}.

(** [args]: the flags are read for their truth value only and [max_lines]
    only through [str]. *)
Record Args : Type := {
  args_i : bool;
  args_json : bool;
  args_max_lines : string;
  args_skip_anaconda_dirs : bool;
  args_skip_node_module_dirs : bool;
  args_skip_google_cloud_sdk_dirs : bool;
  args_skip_dotdirs : bool;
  args_show_permission_errors : bool;
  args_regex : string;
  args_files_and_directories : list string
}.

Definition required_suffixes : list string :=
  [".c"; ".h"; ".c++"; ".h++"; ".cpp"; ".hpp"; ".js"; ".ts"; ".html"; ".rb";
   ".py"; ".ipynb"].

(** ** State *)

(** A record of the calls made to the environment.  It is ghost state: no
    function below reads it. *)
Inductive event : Type :=
| EvVisit (directory : string) (inode : Z)     (* [canonicals.add(inode)] *)
| EvScandir (directory : string) (inode : Z)   (* [os.scandir(directory)] *)
| EvGrep (cmdline : list string).              (* [Popen(cmdline)] *)

Record state : Type := mkState {
  file_modtimes : Py.dict Z;
  canonicals : gset Z;
  permission_errors : gset string;
  stdout : list string;             (* the lines printed, oldest first *)
  stderr : list string;
  trace : list event                (* ghost, newest first *)
}.

Definition initial_state : state :=
  {| file_modtimes := []; canonicals := ∅; permission_errors := ∅;
     stdout := []; stderr := []; trace := [] |}.

Inductive outcome (A : Type) : Type :=
| Returned (a : A) (st : state)
| Raised (e : exception) (st : state)
| OutOfFuel.
Arguments Returned {A} a st.
Arguments Raised {A} e st.
Arguments OutOfFuel {A}.

(** A computation reads and updates the state and returns or raises. *)
Definition M (A : Type) : Type := state -> outcome A.

Definition ret {A} (a : A) : M A := fun st => Returned a st.

Definition bind {A B} (m : M A) (k : A -> M B) : M B :=
  fun st =>
    match m st with
    | Returned a st' => k a st'
    | Raised e st' => Raised e st'
    | OutOfFuel => OutOfFuel
    end.

Notation "x <- m ;; k" := (bind m (fun x => k))
  (at level 100, m at next level, right associativity).
Notation "m ;; k" := (bind m (fun _ => k))
  (at level 100, right associativity).

Definition raise {A} (e : exception) : M A := fun st => Raised e st.

Definition out_of_fuel {A} : M A := fun _ => OutOfFuel.

Definition lift {A} (r : result A) : M A :=
  match r with Ok a => ret a | Raise e => raise e end.

Definition get : M state := fun st => Returned st st.

(** [try: body / except PermissionError: handler] *)
Definition try_except_PermissionError {A} (body handler : M A) : M A :=
  fun st =>
    match body st with
    | Raised e st' => if is_PermissionError e then handler st' else Raised e st'
    | o => o
    end.

(** [for x in l: body(x)] *)
Fixpoint for_each {A} (l : list A) (body : A -> M unit) : M unit :=
  match l with
  | [] => ret tt
  | x :: r => body x ;; for_each r body
  end.

(** a loop that updates local variables [acc] *)
Fixpoint fold_each {A B} (l : list A) (acc : B) (body : A -> B -> M B) : M B :=
  match l with
  | [] => ret acc
  | x :: r => acc' <- body x acc ;; fold_each r acc' body
  end.

(** The state a computation ends in, whether it returns or raises *)
Definition final_state {A} (o : outcome A) : option state :=
  match o with
  | Returned _ st => Some st
  | Raised _ st => Some st
  | OutOfFuel => None
  end.

(** The assignments to the global collections, on the state *)

Definition set_modtime (filename : string) (t : Z) (st : state) : state :=
  {| file_modtimes := Py.dict_set (file_modtimes st) filename t;
     canonicals := canonicals st;
     permission_errors := permission_errors st;
     stdout := stdout st; stderr := stderr st; trace := trace st |}.

Definition add_canonical (inode : Z) (st : state) : state :=
  {| file_modtimes := file_modtimes st;
     canonicals := {[inode]} ∪ canonicals st;
     permission_errors := permission_errors st;
     stdout := stdout st; stderr := stderr st; trace := trace st |}.

Definition add_permission_error (path : string) (st : state) : state :=
  {| file_modtimes := file_modtimes st;
     canonicals := canonicals st;
     permission_errors := {[path]} ∪ permission_errors st;
     stdout := stdout st; stderr := stderr st; trace := trace st |}.

Definition printed (line : string) (st : state) : state :=
  {| file_modtimes := file_modtimes st;
     canonicals := canonicals st;
     permission_errors := permission_errors st;
     stdout := stdout st ++ [line]; stderr := stderr st;
     trace := trace st |}.

Definition printed_stderr (line : string) (st : state) : state :=
  {| file_modtimes := file_modtimes st;
     canonicals := canonicals st;
     permission_errors := permission_errors st;
     stdout := stdout st; stderr := stderr st ++ [line];
     trace := trace st |}.

Definition logged (ev : event) (st : state) : state :=
  {| file_modtimes := file_modtimes st;
     canonicals := canonicals st;
     permission_errors := permission_errors st;
     stdout := stdout st; stderr := stderr st;
     trace := ev :: trace st |}.

(** [file_modtimes[filename] = t] *)
Definition file_modtimes_set (filename : string) (t : Z) : M unit :=
  fun st => Returned tt (set_modtime filename t st).

(** [canonicals.add(inode)] *)
Definition canonicals_add (inode : Z) : M unit :=
  fun st => Returned tt (add_canonical inode st).

(** [permission_errors.add(path)] *)
Definition permission_errors_add (path : string) : M unit :=
  fun st => Returned tt (add_permission_error path st).

Definition print (line : string) : M unit :=
  fun st => Returned tt (printed line st).

Definition print_stderr (line : string) : M unit :=
  fun st => Returned tt (printed_stderr line st).

Definition log (ev : event) : M unit :=
  fun st => Returned tt (logged ev st).

(** ** The walk *)

(** [add_file(filename)] *)
Definition add_file (w : World) (filename : string) : M unit :=
  try_except_PermissionError
    (t <- lift (os_path_getmtime w filename) ;;
     file_modtimes_set filename t)
    (permission_errors_add filename).

(** [if not inode: inode = os.stat(directory).st_ino]; [None] and [0] are
    the values that count as false. *)
Definition resolve_inode (w : World) (directory : string)
    (inode : option Z) : result Z :=
  match inode with
  | Some n =>
      if n =? 0 then
        match os_stat w directory with
        | Ok s => Ok (st_ino s)
        | Raise e => Raise e
        end
      else Ok n
  | None =>
      match os_stat w directory with
      | Ok s => Ok (st_ino s)
      | Raise e => Raise e
      end
  end.

(** The body of [for entry in entries]: the local [dirs] and [files] after
    looking at one entry. *)
Definition classify_entry (directory : string) (entry : DirEntry)
    (locals : Py.dict DirEntry * gset string)
    : M (Py.dict DirEntry * gset string) :=
  let '(dirs, files) := locals in
  try_except_PermissionError
    (is_symlink <- lift (entry_is_symlink entry) ;;
     if is_symlink then ret (dirs, files)
     else
       is_dir <- lift (entry_is_dir entry) ;;
       if is_dir then ret (Py.dict_set dirs (entry_name entry) entry, files)
       else
         is_file <- lift (entry_is_file entry) ;;
         if is_file then ret (dirs, {[entry_name entry]} ∪ files)
         else ret (dirs, files))
    (permission_errors_add (Py.os_path_join directory (entry_name entry)) ;;
     ret (dirs, files)).

(** [entries = list(os.scandir(directory))] under its [try]; [None] stands
    for the [return] of the handler. *)
Definition scan (w : World) (directory : string) (inode : Z)
    : M (option (list DirEntry)) :=
  try_except_PermissionError
    (log (EvScandir directory inode) ;;
     entries <- lift (os_scandir w directory) ;;
     ret (Some entries))
    (permission_errors_add directory ;; ret None).

(** the test of line 67 *)
Definition is_anaconda (args : Args) (dirs : Py.dict DirEntry) : bool :=
  args_skip_anaconda_dirs args && Py.dict_in "condabin" dirs
  && Py.dict_in "bin" dirs && Py.dict_in "conda-meta" dirs.

(** the three tests of lines 43 to 48, on the path alone *)
Definition skipped_by_name (args : Args) (directory : string) : bool :=
  (Py.endswith directory "/node_modules" && args_skip_node_module_dirs args)
  || (args_skip_dotdirs args
      && Py.startswith (Py.os_path_basename directory) ".")
  || (Py.endswith directory "/google-cloud-sdk"
      && args_skip_google_cloud_sdk_dirs args).

(** lines 56 to 79 of [add_directory]: the entries are sorted into [dirs]
    and [files], then the files are registered and the directories walked;
    [recurse] is the recursive call of line 79.  [dirs] is a dictionary and
    is walked in insertion order; [files] is a set, which Python iterates in
    an order of its own: [elements] fixes one, and no property below depends
    on which. *)
Definition process_entries (recurse : string -> option Z -> M unit)
    (w : World) (args : Args) (directory : string) (entries : list DirEntry)
    : M unit :=
  locals <- fold_each entries ([], ∅) (classify_entry directory) ;;
  let '(dirs, files) := locals in
  if is_anaconda args dirs then ret tt
  else
    for_each (elements files) (fun file =>
      if Py.endswith_any file required_suffixes
      then add_file w (Py.os_path_join directory file)
      else ret tt) ;;
    for_each dirs (fun '(dirname, entry) =>
      recurse (Py.os_path_join directory dirname)
        (Some (entry_inode entry))).

(** lines 43 to 79 of [add_directory]: what the call does once the inode is
    in [canonicals]. *)
Definition add_directory_body (recurse : string -> option Z -> M unit)
    (w : World) (args : Args) (directory : string) (inode : Z) : M unit :=
  if Py.endswith directory "/node_modules"
     && args_skip_node_module_dirs args then ret tt
  else if args_skip_dotdirs args
          && Py.startswith (Py.os_path_basename directory) "."
  then ret tt
  else if Py.endswith directory "/google-cloud-sdk"
          && args_skip_google_cloud_sdk_dirs args then ret tt
  else
    scanned <- scan w directory inode ;;
    match scanned with
    | None => ret tt
    | Some entries => process_entries recurse w args directory entries
    end.

(** [add_directory(directory, inode=None)].  The recursion is bounded by
    [fuel]; [add_directory_terminates] shows that a fuel larger than the
    number of inodes of the file system is never used up. *)
Fixpoint add_directory (fuel : nat) (w : World) (args : Args)
    (directory : string) (inode : option Z) : M unit :=
  match fuel with
  | O => out_of_fuel
  | S fuel' =>
      inode <- lift (resolve_inode w directory inode) ;;
      st <- get ;;
      if decide (inode ∈ canonicals st) then ret tt
      else
        canonicals_add inode ;;
        log (EvVisit directory inode) ;;
        add_directory_body (add_directory fuel' w args) w args directory inode
  end.

(** ** The search *)

(** [run_grep(cmdline)]; [None] is Python's [None], returned when the end of
    the body is reached. *)
Definition run_grep (w : World) (cmdline : list string) : M (option string) :=
  log (EvGrep cmdline) ;;
  p <- lift (Popen w cmdline) ;;
  let '(ret_code, raw_out, raw_err) := p in
  let out := Py.strip raw_out in
  let err := Py.strip raw_err in
  if (ret_code =? 0) || negb (Py.truthy err) then ret (Some out)
  else if Py.truthy err then raise (SubprocessFailed ret_code err out)
  else ret None.

(** [if len(line) > 95: line = line[:95] + "..."] *)
Definition shorten (line : string) : string :=
  if (95 <? String.length line)%nat then Py.slice_to 95 line +:+ "..."
  else line.

(** lines 155 to 162: what is printed for one file *)
Definition report (w : World) (filename : string) (out : option string)
    : M unit :=
  match out with
  | None => ret tt
  | Some out =>
      if Py.truthy out then
        st <- get ;;
        t <- lift (match Py.dict_get (file_modtimes st) filename with
                   | Some t => Ok t
                   | None => Raise (KeyError filename)
                   end) ;;
        print (Py.os_path_basename filename +:+ " " +:+ interpret_time w t
               +:+ " (" +:+ filename +:+ ")") ;;
        for_each (Py.split Py.newline out) (fun line =>
          print ("    " +:+ shorten line)) ;;
        print ""
      else ret tt
  end.

Definition cmdline_for (args : Args) (filename : string) : list string :=
  ["grep"; "-m"; args_max_lines args]
  ++ (if args_i args then ["-i"] else [])
  ++ [args_regex args; filename].

(** line 147: the paths of the registry, newest first.  The key of a path is
    its entry in [file_modtimes]; every path sorted is a key of that
    dictionary, so the lookup succeeds. *)
Definition filenames_to_search (st : state) : list string :=
  Py.sorted (fun filename => default 0 (Py.dict_get (file_modtimes st) filename))
    Z.leb true (Py.dict_keys (file_modtimes st)).

(** lines 149 to 162 *)
Definition search_files (w : World) (args : Args) (filenames : list string)
    : M unit :=
  for_each filenames (fun filename =>
    out <- run_grep w (cmdline_for args filename) ;;
    report w filename out).

(** lines 126 to 132, one root *)
Definition add_root (fuel : nat) (w : World) (args : Args)
    (file_or_dir : string) : M unit :=
  if os_path_isfile w file_or_dir then add_file w file_or_dir
  else if os_path_isdir w file_or_dir
       then add_directory fuel w args file_or_dir None
       else raise (CannotFind file_or_dir).

(** lines 115 to 124 *)
Definition roots (w : World) (args : Args) : M (list string) :=
  match args_files_and_directories args with
  | [] =>
      print ("No files or directories specified;  reading from " +:+ rc_file w) ;;
      if negb (os_path_exists w (rc_file w)) then
        print_stderr ("Error: you must provide files or directories on commandline, or defaults in "
                      +:+ rc_file w) ;;
        print (parser_help w) ;;
        raise (SystemExit 1)
      else
        content <- lift (open_read w (rc_file w)) ;;
        ret (Py.split Py.newline (Py.strip content))
  | l => ret l
  end.

(** lines 134 to 145 *)
Definition summary (args : Args) : M unit :=
  st <- get ;;
  let msg := "Searching " +:+ Py.str_of_nat (length (file_modtimes st))
             +:+ " files." in
  let msg :=
    if decide (permission_errors st = ∅) then msg
    else msg +:+ " (" +:+ Py.str_of_nat (size (permission_errors st))
         +:+ " files/dirs skipped due to lack of permission.)" in
  print msg ;;
  if args_show_permission_errors args
     && negb (bool_decide (permission_errors st = ∅)) then
    print "Missing permissions for:" ;;
    for_each (Py.sorted (fun s : string => s) String.leb false
                (elements (permission_errors st))) print ;;
    print ""
  else ret tt.

(** [main()] *)
Definition main (fuel : nat) (w : World) (args : Args) : M unit :=
  files_and_directories <- roots w args ;;
  for_each files_and_directories (add_root fuel w args) ;;
  summary args ;;
  st <- get ;;
  search_files w args (filenames_to_search st).

(** ** Concrete file systems

    A table of directories, files and [grep] results, and the [World] that
    answers from it; used to run the script on examples. *)

Record Fixture : Type := {
  fx_dirs : list (string * (stat_result * result (list DirEntry)));
  fx_files : list (string * result Z);
  fx_grep : list (string * result (Z * string * string))
}.

Definition fixture_world (fx : Fixture) : World :=
  {| os_path_isfile p := Py.dict_in p (fx_files fx);
     os_path_isdir p := Py.dict_in p (fx_dirs fx);
     os_path_exists p := Py.dict_in p (fx_files fx) || Py.dict_in p (fx_dirs fx);
     os_stat p :=
       match Py.dict_get (fx_dirs fx) p with
       | Some (s, _) => Ok s
       | None => Raise FileNotFoundError
       end;
     os_path_getmtime p :=
       match Py.dict_get (fx_files fx) p with
       | Some r => r
       | None => Raise FileNotFoundError
       end;
     os_scandir p :=
       match Py.dict_get (fx_dirs fx) p with
       | Some (_, r) => r
       | None => Raise FileNotFoundError
       end;
     Popen cmdline :=
       match Py.dict_get (fx_grep fx) (List.last cmdline "") with
       | Some r => r
       | None => Ok (1, "", "")
       end;
     rc_file := "/home/u/.grep_sources_dirs";
     open_read p := Raise FileNotFoundError;
     interpret_time t := "some time ago";
     parser_help := "usage" |}.

Definition subdir (name : string) (ino : Z) : DirEntry :=
  {| entry_name := name; entry_inode := ino; entry_is_symlink := Ok false;
     entry_is_dir := Ok true; entry_is_file := Ok false |}.

Definition regular (name : string) (ino : Z) : DirEntry :=
  {| entry_name := name; entry_inode := ino; entry_is_symlink := Ok false;
     entry_is_dir := Ok false; entry_is_file := Ok true |}.

Definition symlink_to_dir (name : string) (ino : Z) : DirEntry :=
  {| entry_name := name; entry_inode := ino; entry_is_symlink := Ok true;
     entry_is_dir := Ok true; entry_is_file := Ok false |}.

Definition unreadable (name : string) (ino : Z) : DirEntry :=
  {| entry_name := name; entry_inode := ino; entry_is_symlink := Ok false;
     entry_is_dir := Raise PermissionError;
     entry_is_file := Raise PermissionError |}.

Definition default_args (regex : string) (paths : list string) : Args :=
  {| args_i := false; args_json := false; args_max_lines := "5";
     args_skip_anaconda_dirs := true; args_skip_node_module_dirs := true;
     args_skip_google_cloud_sdk_dirs := true; args_skip_dotdirs := true;
     args_show_permission_errors := false; args_regex := regex;
     args_files_and_directories := paths |}.

(** The scenario of the specification:
    [root/{.git/x.py, src/a.py (t=100), src/b.py (t=200),
    vendor/node_modules/c.js (t=300)}]. *)
Definition scenario : Fixture :=
  {| fx_dirs :=
       [("root", ({| st_dev := 1; st_ino := 10 |},
                  Ok [subdir ".git" 11; subdir "src" 12; subdir "vendor" 13]));
        ("root/.git", ({| st_dev := 1; st_ino := 11 |},
                       Ok [regular "x.py" 20; regular "config" 24]));
        ("root/src", ({| st_dev := 1; st_ino := 12 |},
                      Ok [regular "a.py" 21; regular "b.py" 22]));
        ("root/vendor", ({| st_dev := 1; st_ino := 13 |},
                         Ok [subdir "node_modules" 14]));
        ("root/vendor/node_modules",
           ({| st_dev := 1; st_ino := 14 |}, Ok [regular "c.js" 23]))];
     fx_files :=
       [("root/.git/x.py", Ok 50); ("root/src/a.py", Ok 100);
        ("root/src/b.py", Ok 200); ("root/vendor/node_modules/c.js", Ok 300);
        ("root/.git/config", Ok 7)];
     fx_grep := [("root/src/a.py", Ok (0, "TODO one
", ""))] |}.

(** ** Vocabulary of the properties *)

(** [m] relates the state it starts in to the state it ends in. *)
Definition preserves {A} (R : state -> state -> Prop) (m : M A) : Prop :=
  forall st st', final_state (m st) = Some st' -> R st st'.

(** The three collections only gain members and the trace only gains
    events. *)
Definition grows (st st' : state) : Prop :=
  canonicals st ⊆ canonicals st'
  /\ permission_errors st ⊆ permission_errors st'
  /\ (forall k, Py.dict_in k (file_modtimes st) = true ->
                Py.dict_in k (file_modtimes st') = true)
  /\ exists l, trace st' = l ++ trace st.

(** Nothing but [permission_errors] changes, and it only gains members. *)
Definition only_permission_errors (st st' : state) : Prop :=
  file_modtimes st' = file_modtimes st
  /\ canonicals st' = canonicals st
  /\ stdout st' = stdout st
  /\ stderr st' = stderr st
  /\ trace st' = trace st
  /\ permission_errors st ⊆ permission_errors st'.

(** The inodes under which [os.scandir] was called, newest first *)
Fixpoint scanned_inodes (tr : list event) : list Z :=
  match tr with
  | [] => []
  | EvScandir _ inode :: r => inode :: scanned_inodes r
  | _ :: r => scanned_inodes r
  end.

(** No inode was enumerated twice, and every inode enumerated is in
    [canonicals]. *)
Definition walk_inv (st : state) : Prop :=
  List.NoDup (scanned_inodes (trace st))
  /\ forall i, In i (scanned_inodes (trace st)) -> i ∈ canonicals st.

Definition keeps_walk_inv (st st' : state) : Prop :=
  walk_inv st -> walk_inv st'.


(** The exception, if any, that the three tests of lines 58 to 63 raise on
    an entry *)
Definition classification_raises (entry : DirEntry) : option exception :=
  match entry_is_symlink entry with
  | Raise e => Some e
  | Ok true => None
  | Ok false =>
      match entry_is_dir entry with
      | Raise e => Some e
      | Ok true => None
      | Ok false =>
          match entry_is_file entry with
          | Raise e => Some e
          | Ok _ => None
          end
      end
  end.

Definition is_symlink_entry (entry : DirEntry) : bool :=
  match entry_is_symlink entry with Ok true => true | _ => false end.

(** an entry named [name] that is a directory and not a symbolic link *)
Definition is_subdirectory_named (name : string) (entry : DirEntry) : Prop :=
  entry_name entry = name
  /\ entry_is_symlink entry = Ok false
  /\ entry_is_dir entry = Ok true.

(** the state in which [add_directory] enumerates a directory it has not
    seen: the inode is recorded first, then [os.scandir] is called *)
Definition entered (directory : string) (inode : Z) (st : state) : state :=
  logged (EvScandir directory inode)
    (logged (EvVisit directory inode) (add_canonical inode st)).

(** ** Readings of the specification and the inputs that separate them
    from the script *)

(** The identity of the specification: device and inode of the directory *)
Definition physical_identity (s : stat_result) : Z * Z := (st_dev s, st_ino s).

(** The specification's identity check, read on the script: a directory
    whose device and inode differ from those of every directory visited so
    far is recorded by the call. *)
Definition records_new_physical_directory (fuel : nat) (w : World)
    (args : Args) (directory : string) (st : state) : Prop :=
  forall s,
    os_stat w directory = Ok s ->
    (forall d i s', In (EvVisit d i) (trace st) -> os_stat w d = Ok s' ->
                    physical_identity s' <> physical_identity s) ->
    forall st',
      final_state (add_directory fuel w args directory None st) = Some st' ->
      exists i, In (EvVisit directory i) (trace st').

(** Two directories with the same inode number on two devices *)
Definition two_devices : Fixture :=
  {| fx_dirs :=
       [("/mnt/a", ({| st_dev := 1; st_ino := 5 |}, Ok [regular "x.py" 6]));
        ("/mnt/b", ({| st_dev := 2; st_ino := 5 |}, Ok [regular "y.py" 6]))];
     fx_files := [("/mnt/a/x.py", Ok 100); ("/mnt/b/y.py", Ok 200)];
     fx_grep := [] |}.

Definition two_devices_after_a : state :=
  {| file_modtimes := [("/mnt/a/x.py", 100)];
     canonicals := {[5]};
     permission_errors := ∅;
     stdout := []; stderr := [];
     trace := [EvScandir "/mnt/a" 5; EvVisit "/mnt/a" 5] |}.

(** [grep] exits with 0 when a line was selected, with 1 when none was, and
    with 2 when an error occurred. *)
Definition grep_ran_successfully (ret_code : Z) : Prop :=
  ret_code = 0 \/ ret_code = 1.

(** The specification's contract of the search: a run of [grep] that did
    not end in one of its two successful ways makes [run_grep] raise. *)
Definition failure_is_fatal (w : World) (cmdline : list string)
    (st : state) : Prop :=
  forall ret_code raw_out raw_err,
    Popen w cmdline = Ok (ret_code, raw_out, raw_err) ->
    ~ grep_ran_successfully ret_code ->
    exists e st', run_grep w cmdline st = Raised e st'.

(** A [grep] that fails with status 2 and writes nothing *)
Definition silent_failure : Fixture :=
  {| fx_dirs := [];
     fx_files := [("a.py", Ok 100); ("b.py", Ok 50)];
     fx_grep := [("a.py", Ok (2, "", "")); ("b.py", Ok (0, "hit", ""))] |}.



(** ** Termination *)

Definition never_out_of_fuel {A} (m : M A) : Prop :=
  forall st, m st <> OutOfFuel.

(** Every inode number the file system reports lies in the finite set [U]
    (an entry whose [inode()] is 0 is looked up with [os.stat]). *)
Definition inodes_within (U : gset Z) (w : World) : Prop :=
  (forall p s, os_stat w p = Ok s -> st_ino s ∈ U)
  /\ (forall p entries e,
        os_scandir w p = Ok entries -> In e entries ->
        entry_inode e <> 0 -> entry_inode e ∈ U).

(** A directory that may not be read, a file whose time may not be asked, and
    a directory with a child that may not be classified *)
Definition denied : Fixture :=
  {| fx_dirs :=
       [("top", ({| st_dev := 1; st_ino := 7 |}, Raise PermissionError));
        ("mixed", ({| st_dev := 1; st_ino := 8 |},
                   Ok [unreadable "locked" 30; regular "ok.py" 31]))];
     fx_files := [("secret.py", Raise PermissionError); ("mixed/ok.py", Ok 5)];
     fx_grep := [] |}.

(** The root of an anaconda distribution, with a symbolic link beside *)
Definition anaconda : Fixture :=
  {| fx_dirs :=
       [("/opt/conda", ({| st_dev := 1; st_ino := 40 |},
                        Ok [subdir "bin" 41; regular "setup.py" 42;
                            subdir "condabin" 43; subdir "conda-meta" 44;
                            unreadable "pkgs" 45]));
        ("/opt/conda/bin", ({| st_dev := 1; st_ino := 41 |},
                            Ok [regular "activate.py" 46]))];
     fx_files := [("/opt/conda/setup.py", Ok 1);
                  ("/opt/conda/bin/activate.py", Ok 2)];
     fx_grep := [] |}.

(** A [grep] that fails and says so *)
Definition loud_failure : Fixture :=
  {| fx_dirs := [];
     fx_files := [("a.py", Ok 100); ("b.py", Ok 50)];
     fx_grep := [("a.py", Ok (2, "", "grep: a.py: Input/output error
"))] |}.

(** The state in which the scenario of the specification ends, when
    [root/.git/config] is named beside [root] *)
Definition scenario_args : Args :=
  default_args "TODO" ["root"; "root/.git/config"].

Definition scenario_final : state :=
  match main 10 (fixture_world scenario) scenario_args initial_state with
  | Returned _ st => st
  | _ => initial_state
  end.

(** ** Vocabulary of the further properties *)

(** The command lines [grep] was run on, newest first *)
Fixpoint grep_calls (tr : list event) : list (list string) :=
  match tr with
  | [] => []
  | EvGrep cmdline :: r => cmdline :: grep_calls r
  | _ :: r => grep_calls r
  end.

(** Nothing is printed and [grep] is not run. *)
Definition silent (st st' : state) : Prop :=
  stdout st' = stdout st
  /\ stderr st' = stderr st
  /\ grep_calls (trace st') = grep_calls (trace st).

(** The three collections are left as they are: only the output and the
    trace may have changed. *)
Definition only_output (st st' : state) : Prop :=
  file_modtimes st' = file_modtimes st
  /\ canonicals st' = canonicals st
  /\ permission_errors st' = permission_errors st.

(** A path for which the operating system answered [PermissionError]: to
    [os.scandir], to [os.path.getmtime], or to a test on its directory
    entry. *)
Definition access_denied (w : World) (p : string) : Prop :=
  os_scandir w p = Raise PermissionError
  \/ os_path_getmtime w p = Raise PermissionError
  \/ exists directory entries entry,
       os_scandir w directory = Ok entries
       /\ In entry entries
       /\ classification_raises entry = Some PermissionError
       /\ p = Py.os_path_join directory (entry_name entry).

(** Every path recorded since [st] was denied. *)
Definition records_denied_only (w : World) (st st' : state) : Prop :=
  forall p, p ∈ permission_errors st' ->
            p ∈ permission_errors st \/ access_denied w p.

(** Every time in the registry is the one [os.path.getmtime] answers for
    its path. *)
Definition registry_times_current (w : World) (st : state) : Prop :=
  forall k t, Py.dict_get (file_modtimes st) k = Some t ->
              os_path_getmtime w k = Ok t.

Definition keeps_registry_times (w : World) (st st' : state) : Prop :=
  registry_times_current w st -> registry_times_current w st'.

(** A path that a directory listing shows as a source file: the path of an
    entry of a directory that [os.scandir] listed, the entry being no
    symbolic link, a file, and named with one of the suffixes. *)
Definition listed_source (w : World) (k : string) : Prop :=
  exists directory entries entry,
    os_scandir w directory = Ok entries
    /\ In entry entries
    /\ k = Py.os_path_join directory (entry_name entry)
    /\ entry_is_symlink entry = Ok false
    /\ entry_is_file entry = Ok true
    /\ Py.endswith_any (entry_name entry) required_suffixes = true.

(** Every path registered since [st] is one of [named] or a listed source
    file. *)
Definition registers_named_or_listed (w : World) (named : list string)
    (st st' : state) : Prop :=
  forall k, Py.dict_in k (file_modtimes st') = true ->
            Py.dict_in k (file_modtimes st) = true
            \/ In k named
            \/ listed_source w k.

(** The state in which [main] ends on the fixture [denied] *)
Definition denied_args : Args :=
  default_args "x" ["top"; "mixed"; "secret.py"].

Definition denied_final : state :=
  match main 10 (fixture_world denied) denied_args initial_state with
  | Returned _ st => st
  | _ => initial_state
  end.

(** The trace is left as it is: no call to the environment was logged. *)
Definition same_trace (st st' : state) : Prop := trace st' = trace st.

Definition keeps_distinct_keys (st st' : state) : Prop :=
  List.NoDup (Py.dict_keys (file_modtimes st)) ->
  List.NoDup (Py.dict_keys (file_modtimes st')).

(** The result [run_grep] returns for a file: the stripped standard output
    of [grep] *)
Definition grep_output (w : World) (args : Args) (filename : string)
    : string :=
  match Popen w (cmdline_for args filename) with
  | Ok (_, raw_out, _) => Py.strip raw_out
  | Raise _ => ""
  end.

(** The lines [report] prints for a file with the result [out] *)
Definition report_lines (w : World) (reg : Py.dict Z)
    (filename out : string) : list string :=
  if Py.truthy out then
    match Py.dict_get reg filename with
    | Some t =>
        [Py.os_path_basename filename +:+ " " +:+ interpret_time w t
         +:+ " (" +:+ filename +:+ ")"]
        ++ map (fun line => "    " +:+ shorten line) (Py.split Py.newline out)
        ++ [""]
    | None => []
    end
  else [].

(** A defaults file that holds nothing but blank space, in a world where the
    empty path is neither a file nor a directory *)
Definition blank_defaults : World :=
  {| os_path_isfile p := false;
     os_path_isdir p := false;
     os_path_exists p := String.eqb p "/home/u/.grep_sources_dirs";
     os_stat p := Raise FileNotFoundError;
     os_path_getmtime p := Raise FileNotFoundError;
     os_scandir p := Raise FileNotFoundError;
     Popen cmdline := Ok (1, "", "");
     rc_file := "/home/u/.grep_sources_dirs";
     open_read p := Ok "
  
";
     interpret_time t := "some time ago";
     parser_help := "usage" |}.

(** [ "/" in s ] *)
Fixpoint has_slash (s : string) : bool :=
  match s with
  | EmptyString => false
  | String c r => Ascii.eqb c Py.slash || has_slash r
  end.

(** The current directory given as [.] and by its full path: two paths of
    one directory *)
Definition dot_alias : Fixture :=
  {| fx_dirs :=
       [(".", ({| st_dev := 1; st_ino := 50 |}, Ok [regular "a.py" 51]));
        ("/home/u/proj", ({| st_dev := 1; st_ino := 50 |},
                          Ok [regular "a.py" 51]))];
     fx_files := [("./a.py", Ok 1); ("/home/u/proj/a.py", Ok 1)];
     fx_grep := [] |}.

Definition dot_alias_visited : state :=
  logged (EvVisit "." 50) (add_canonical 50 initial_state).

(** every character of [s] is white space *)
Fixpoint all_space (s : string) : bool :=
  match s with
  | EmptyString => true
  | String c r => Py.isspace c && all_space r
  end.

Definition first_char (s : string) : option ascii :=
  match s with
  | EmptyString => None
  | String c _ => Some c
  end.

Fixpoint last_char (s : string) : option ascii :=
  match s with
  | EmptyString => None
  | String c EmptyString => Some c
  | String _ r => last_char r
  end.

(** the inodes of the fixture [two_devices] *)
Definition two_devices_inodes : gset Z := {[5]} ∪ {[6]}.

(** A directory given as the bare name [node_modules] *)
Definition bare_node_modules : Fixture :=
  {| fx_dirs :=
       [("node_modules", ({| st_dev := 1; st_ino := 14 |},
                          Ok [regular "c.js" 23]))];
     fx_files := [("node_modules/c.js", Ok 300)];
     fx_grep := [] |}.

(** The specification's round trip, read on the script: however the run
    ends, a root that is a plain file is in the registry and [grep] has
    been run with its path among the arguments. *)
Definition named_file_always_searched (fuel : nat) (w : World) (args : Args)
    (p : string) (st : state) : Prop :=
  In p (args_files_and_directories args) ->
  os_path_isfile w p = true ->
  forall st',
    final_state (main fuel w args st) = Some st' ->
    Py.dict_in p (file_modtimes st') = true
    /\ exists cmdline, In (EvGrep cmdline) (trace st') /\ In p cmdline.

(** The file [root/.git/config] of the scenario named before a path that
    does not exist *)
Definition aborted_args : Args :=
  default_args "TODO" ["root/.git/config"; "nowhere"].

(** ** Lookup failures in the walk *)

(** [m] relates the state it starts in to the state in which it returns. *)
Definition returns_with {A} (R : state -> state -> Prop) (m : M A) : Prop :=
  forall st a st', m st = Returned a st' -> R st st'.


(** An entry that the walk takes for a source file: no symbolic link, no
    directory, a file, and named with one of the suffixes *)
Definition is_source_file (entry : DirEntry) : Prop :=
  entry_is_symlink entry = Ok false
  /\ entry_is_dir entry = Ok false
  /\ entry_is_file entry = Ok true
  /\ Py.endswith_any (entry_name entry) required_suffixes = true.

(** The entries for which the test of line 67 holds: the skip is set and
    the three subdirectories are among them. *)
Definition anaconda_signature (args : Args) (entries : list DirEntry)
    : Prop :=
  args_skip_anaconda_dirs args = true
  /\ List.Exists (is_subdirectory_named "condabin") entries
  /\ List.Exists (is_subdirectory_named "bin") entries
  /\ List.Exists (is_subdirectory_named "conda-meta") entries.

(** From [st] to [st'] nothing was taken back, and every lookup of the time
    of a source file was answered or denied: for each directory enumerated
    since [st], other than an anaconda directory, and each source file it
    lists, either [os.path.getmtime] answered and the path is in the
    registry, or it raised [PermissionError] and the path is in
    [permission_errors]. *)
Definition lookups_recovered (w : World) (args : Args) (st st' : state)
    : Prop :=
  grows st st'
  /\ forall l,
       trace st' = l ++ trace st ->
       forall directory i entries entry,
         In (EvScandir directory i) l ->
         os_scandir w directory = Ok entries ->
         ~ anaconda_signature args entries ->
         In entry entries ->
         is_source_file entry ->
         (exists t,
             os_path_getmtime w (Py.os_path_join directory (entry_name entry))
             = Ok t
             /\ Py.dict_in (Py.os_path_join directory (entry_name entry))
                  (file_modtimes st') = true)
         \/ (os_path_getmtime w (Py.os_path_join directory (entry_name entry))
             = Raise PermissionError
             /\ Py.os_path_join directory (entry_name entry)
                ∈ permission_errors st').




(** * Properties *)

(** ** Strings *)

Lemma substring_0_length (s : string) : substring 0 (String.length s) s = s.
Proof. induction s as [|c s IH]; simpl; [reflexivity | now rewrite IH]. Qed.

Lemma substring_skip_prefix (a b : string) :
  substring (String.length a) (String.length b) (a +:+ b) = b.
Proof.
  induction a as [|c a IH]; simpl.
  - apply substring_0_length.
  - exact IH.
Qed.

Lemma string_length_app (a b : string) :
  String.length (a +:+ b) = (String.length a + String.length b)%nat.
Proof. induction a as [|c a IH]; simpl; [reflexivity | now rewrite IH]. Qed.

Lemma endswith_app (a b : string) : Py.endswith (a +:+ b) b = true.
Proof.
  unfold Py.endswith. rewrite string_length_app.
  replace (String.length a + String.length b - String.length b)%nat
    with (String.length a) by lia.
  rewrite substring_skip_prefix, String.eqb_refl.
  rewrite andb_true_r. apply Nat.leb_le. lia.
Qed.

Lemma slice_to_length (n : nat) (s : string) :
  (n <= String.length s)%nat -> String.length (Py.slice_to n s) = n.
Proof.
  unfold Py.slice_to. revert s.
  induction n as [|n IH]; intros [|c s] H; simpl in *; try reflexivity; try lia.
  rewrite IH; [reflexivity | lia].
Qed.

Lemma slice_to_prefix (n : nat) (s : string) :
  String.prefix (Py.slice_to n s) s = true.
Proof.
  unfold Py.slice_to. revert s.
  induction n as [|n IH]; intros [|c s]; simpl; try reflexivity.
  destruct (ascii_dec c c) as [_|Hne]; [apply IH | now destruct Hne].
Qed.

Lemma shorten_long (line : string) :
  (95 < String.length line)%nat ->
  shorten line = Py.slice_to 95 line +:+ "...".
Proof.
  intros H. unfold shorten.
  destruct (Nat.ltb_spec 95 (String.length line)); [reflexivity | lia].
Qed.

Lemma shorten_short (line : string) :
  (String.length line <= 95)%nat -> shorten line = line.
Proof.
  intros H. unfold shorten.
  destruct (Nat.ltb_spec 95 (String.length line)); [lia | reflexivity].
Qed.

(** ** Running computations *)

Lemma bind_Returned {A B} (m : M A) (k : A -> M B) st a st' :
  m st = Returned a st' -> bind m k st = k a st'.
Proof. intros H. unfold bind. now rewrite H. Qed.

Lemma bind_Raised {A B} (m : M A) (k : A -> M B) st e st' :
  m st = Raised e st' -> bind m k st = Raised e st'.
Proof. intros H. unfold bind. now rewrite H. Qed.

Lemma for_each_app {A} (l1 l2 : list A) (body : A -> M unit) st :
  for_each (l1 ++ l2) body st = (for_each l1 body ;; for_each l2 body) st.
Proof.
  revert st. induction l1 as [|x l1 IH]; intros st; simpl.
  - reflexivity.
  - unfold bind in *. destruct (body x st) as [[] st'| |]; try reflexivity.
    apply IH.
Qed.

Lemma for_each_print (lines : list string) (f : string -> string) st :
  exists st',
    for_each lines (fun line => print (f line)) st = Returned tt st'
    /\ stdout st' = stdout st ++ map f lines
    /\ file_modtimes st' = file_modtimes st
    /\ canonicals st' = canonicals st
    /\ permission_errors st' = permission_errors st
    /\ stderr st' = stderr st
    /\ trace st' = trace st.
Proof.
  revert st. induction lines as [|x lines IH]; intros st; simpl.
  - exists st. rewrite app_nil_r. unfold ret. repeat split.
  - unfold bind, print at 1.
    match goal with |- context [for_each _ _ ?s] =>
      destruct (IH s) as (st' & Hrun & Hout & Hrest) end.
    exists st'. split; [exact Hrun|]. simpl in *.
    split; [|exact Hrest]. rewrite Hout, <- app_assoc. reflexivity.
Qed.

(** ** [run_grep] *)

Lemma truthy_false_iff (s : string) : Py.truthy s = false <-> s = "".
Proof.
  unfold Py.truthy. destruct (String.eqb_spec s ""); simpl; split;
    intros; congruence.
Qed.

Lemma truthy_true_iff (s : string) : Py.truthy s = true <-> s <> "".
Proof.
  unfold Py.truthy. destruct (String.eqb_spec s ""); simpl; split;
    intros; congruence.
Qed.

(** C10: when the subprocess has run, [run_grep] raises exactly when the
    return code is not zero and the stripped standard error is not empty;
    in every other case it returns the stripped standard output (and never
    [None]). *)
Theorem run_grep_raises_iff (w : World) (cmdline : list string) (st : state)
    (ret_code : Z) (raw_out raw_err : string) :
  Popen w cmdline = Ok (ret_code, raw_out, raw_err) ->
  (ret_code <> 0 /\ Py.strip raw_err <> "" ->
   run_grep w cmdline st
   = Raised (SubprocessFailed ret_code (Py.strip raw_err) (Py.strip raw_out))
       (logged (EvGrep cmdline) st))
  /\ (~ (ret_code <> 0 /\ Py.strip raw_err <> "") ->
      run_grep w cmdline st
      = Returned (Some (Py.strip raw_out)) (logged (EvGrep cmdline) st))
  /\ ((exists e st', run_grep w cmdline st = Raised e st')
      <-> ret_code <> 0 /\ Py.strip raw_err <> "").
Proof.
  intros HP.
  assert (Hrun : run_grep w cmdline st
                 = if (ret_code =? 0) || negb (Py.truthy (Py.strip raw_err))
                   then Returned (Some (Py.strip raw_out))
                          (logged (EvGrep cmdline) st)
                   else Raised (SubprocessFailed ret_code (Py.strip raw_err)
                                  (Py.strip raw_out))
                          (logged (EvGrep cmdline) st)).
  { unfold run_grep, bind, log, lift. rewrite HP. unfold ret.
    destruct (ret_code =? 0); simpl; [reflexivity|].
    destruct (Py.truthy (Py.strip raw_err)); reflexivity. }
  rewrite Hrun.
  destruct (Z.eqb_spec ret_code 0) as [Hz|Hz]; simpl.
  - split; [tauto|]. split; [reflexivity|]. split; [|tauto].
    intros (e & st' & Hr). discriminate.
  - destruct (Py.truthy (Py.strip raw_err)) eqn:Ht; simpl.
    + apply truthy_true_iff in Ht.
      split; [reflexivity|]. split; [tauto|]. split; [tauto|eauto].
    + apply truthy_false_iff in Ht.
      split; [tauto|]. split; [reflexivity|]. split; [|tauto].
      intros (e & st' & Hr). discriminate.
Qed.

(** ** [add_file] *)

Lemma add_file_ok (w : World) (filename : string) (t : Z) (st : state) :
  os_path_getmtime w filename = Ok t ->
  add_file w filename st = Returned tt (set_modtime filename t st).
Proof.
  intros H. unfold add_file, try_except_PermissionError, bind, lift.
  rewrite H. reflexivity.
Qed.

Lemma add_file_raise (w : World) (filename : string) (e : exception)
    (st : state) :
  os_path_getmtime w filename = Raise e ->
  add_file w filename st
  = if is_PermissionError e
    then Returned tt (add_permission_error filename st)
    else Raised e st.
Proof.
  intros H. unfold add_file, try_except_PermissionError, bind, lift.
  rewrite H. unfold raise. destruct e; reflexivity.
Qed.

(** ** The report *)

(** C9: a matched line longer than 95 characters is printed cut to its first
    95 characters followed by the marker [...]; a line of at most 95
    characters is printed as it is.  Each line is printed behind four
    spaces, between the header of the file and an empty line. *)
Theorem report_truncates (w : World) (filename out : string) (t : Z)
    (st : state) :
  Py.truthy out = true ->
  Py.dict_get (file_modtimes st) filename = Some t ->
  (exists st',
      report w filename (Some out) st = Returned tt st'
      /\ stdout st'
         = stdout st
           ++ [Py.os_path_basename filename +:+ " " +:+ interpret_time w t
               +:+ " (" +:+ filename +:+ ")"]
           ++ map (fun line => "    " +:+ shorten line)
                (Py.split Py.newline out)
           ++ [""])
  /\ (forall line, (95 < String.length line)%nat ->
        shorten line = Py.slice_to 95 line +:+ "..."
        /\ String.length (Py.slice_to 95 line) = 95%nat
        /\ String.prefix (Py.slice_to 95 line) line = true
        /\ Py.endswith (shorten line) "..." = true)
  /\ (forall line, (String.length line <= 95)%nat -> shorten line = line).
Proof.
  intros Hout Hget. split; [|split].
  - unfold report. rewrite Hout. unfold bind at 1. unfold get.
    rewrite Hget. unfold bind at 1. unfold lift, ret.
    unfold bind at 1. unfold print at 1.
    unfold bind at 1.
    match goal with |- context [for_each ?l (fun line => print (@?f line)) ?s] =>
      destruct (for_each_print l f s) as (st1 & Hrun & Hout1 & _) end.
    rewrite Hrun. unfold print. eexists. split; [reflexivity|].
    simpl. rewrite Hout1. simpl. rewrite <- !app_assoc. reflexivity.
  - intros line Hlen. rewrite (shorten_long _ Hlen).
    repeat split.
    + apply slice_to_length. lia.
    + apply slice_to_prefix.
    + apply endswith_app.
  - apply shorten_short.
Qed.

(** ** [sorted] *)

Section SortedByZ.
Context {A : Type} (key : A -> Z).

Lemma insert_sorted_perm (x : A) (l : list A) :
  Permutation (Py.insert_sorted key Z.leb x l) (x :: l).
Proof.
  induction l as [|y l IH]; simpl.
  - reflexivity.
  - destruct (key x <=? key y).
    + reflexivity.
    + rewrite IH. apply perm_swap.
Qed.

Lemma stable_sort_perm (l : list A) :
  Permutation (Py.stable_sort key Z.leb l) l.
Proof.
  induction l as [|x l IH]; simpl.
  - reflexivity.
  - rewrite insert_sorted_perm. now apply perm_skip.
Qed.

Lemma insert_sorted_sorted (x : A) (l : list A) :
  StronglySorted (fun a b => key a <= key b) l ->
  StronglySorted (fun a b => key a <= key b) (Py.insert_sorted key Z.leb x l).
Proof.
  induction 1 as [|y l Hs IH Hall]; simpl.
  - repeat constructor.
  - destruct (Z.leb_spec (key x) (key y)) as [Hle|Hgt].
    + constructor; [now constructor|].
      constructor; [exact Hle|].
      eapply List.Forall_impl; [|exact Hall]. simpl. intros; lia.
    + constructor; [exact IH|].
      eapply Permutation_Forall; [symmetry; apply insert_sorted_perm|].
      constructor; [lia | exact Hall].
Qed.

Lemma stable_sort_sorted (l : list A) :
  StronglySorted (fun a b => key a <= key b) (Py.stable_sort key Z.leb l).
Proof.
  induction l as [|x l IH]; simpl.
  - constructor.
  - now apply insert_sorted_sorted.
Qed.

(** an element is inserted behind smaller keys only *)
Lemma insert_sorted_filter (t : Z) (x : A) (l : list A) :
  List.filter (fun a => key a =? t) (Py.insert_sorted key Z.leb x l)
  = List.filter (fun a => key a =? t) (x :: l).
Proof.
  induction l as [|y l IH]; simpl in *.
  - reflexivity.
  - destruct (Z.leb_spec (key x) (key y)) as [Hle|Hgt]; simpl.
    + reflexivity.
    + rewrite IH.
      destruct (Z.eqb_spec (key y) t), (Z.eqb_spec (key x) t);
        try reflexivity; lia.
Qed.

Lemma stable_sort_filter (t : Z) (l : list A) :
  List.filter (fun a => key a =? t) (Py.stable_sort key Z.leb l)
  = List.filter (fun a => key a =? t) l.
Proof.
  induction l as [|x l IH]; simpl.
  - reflexivity.
  - rewrite insert_sorted_filter. simpl. now rewrite IH.
Qed.

Lemma StronglySorted_rev_flip (R : A -> A -> Prop) (l : list A) :
  StronglySorted R l -> StronglySorted (fun a b => R b a) (rev l).
Proof.
  induction 1 as [|x l Hs IH Hall]; simpl.
  - constructor.
  - clear Hs. revert IH. generalize (rev_involutive l).
    assert (Hall' : List.Forall (R x) (rev l)).
    { apply List.Forall_forall. intros y Hy.
      rewrite List.Forall_forall in Hall. apply Hall.
      now apply in_rev. }
    clear Hall. intros _.
    induction (rev l) as [|y r IHr]; simpl; intros Hs.
    + repeat constructor.
    + inversion Hs; subst. inversion Hall'; subst.
      constructor; [now apply IHr|].
      apply List.Forall_app. split; [assumption|].
      repeat constructor. assumption.
Qed.

Lemma sorted_reverse_perm (l : list A) :
  Permutation (Py.sorted key Z.leb true l) l.
Proof.
  unfold Py.sorted. rewrite <- Permutation_rev, stable_sort_perm.
  symmetry. apply Permutation_rev.
Qed.

Lemma sorted_reverse_descending (l : list A) :
  StronglySorted (fun a b => key a >= key b) (Py.sorted key Z.leb true l).
Proof.
  unfold Py.sorted.
  pose proof (StronglySorted_rev_flip _ _ (stable_sort_sorted (rev l))) as H.
  revert H. generalize (rev (Py.stable_sort key Z.leb (rev l))).
  induction 1 as [|x r Hs IH Hall]; constructor; [assumption|].
  eapply List.Forall_impl; [|exact Hall]. simpl. intros; lia.
Qed.

Lemma filter_rev_eq (f : A -> bool) (l : list A) :
  List.filter f (rev l) = rev (List.filter f l).
Proof.
  induction l as [|x l IH]; simpl.
  - reflexivity.
  - rewrite List.filter_app, IH. simpl. destruct (f x); simpl.
    + reflexivity.
    + now rewrite app_nil_r.
Qed.

Lemma sorted_reverse_stable (t : Z) (l : list A) :
  List.filter (fun a => key a =? t) (Py.sorted key Z.leb true l)
  = List.filter (fun a => key a =? t) l.
Proof.
  unfold Py.sorted.
  now rewrite filter_rev_eq, stable_sort_filter, filter_rev_eq, rev_involutive.
Qed.

End SortedByZ.

(** C2: the paths handed to the search are all the paths of the registry,
    each as often as it is a key, ordered by modification time, newest
    first; paths with the same modification time keep the order they have
    in the registry, which is what a stable sort gives. *)
Theorem filenames_to_search_order (st : state) :
  let mtime := fun filename =>
    default 0 (Py.dict_get (file_modtimes st) filename) in
  Permutation (filenames_to_search st) (Py.dict_keys (file_modtimes st))
  /\ StronglySorted (fun a b => mtime a >= mtime b) (filenames_to_search st)
  /\ (forall t,
        List.filter (fun f => mtime f =? t) (filenames_to_search st)
        = List.filter (fun f => mtime f =? t)
            (Py.dict_keys (file_modtimes st))).
Proof.
  intros mtime. unfold filenames_to_search. fold mtime. split; [|split].
  - apply sorted_reverse_perm.
  - apply sorted_reverse_descending.
  - intros t. apply sorted_reverse_stable.
Qed.

(** ** Relations kept by every step *)

Section Preserves.
Context (R : state -> state -> Prop) `{!PreOrder R}.

Lemma preserves_ret {A} (a : A) : preserves R (ret a).
Proof. intros st st' H. injection H as <-. reflexivity. Qed.

Lemma preserves_raise {A} (e : exception) : preserves R (@raise A e).
Proof. intros st st' H. injection H as <-. reflexivity. Qed.

Lemma preserves_lift {A} (r : result A) : preserves R (lift r).
Proof. destruct r; [apply preserves_ret | apply preserves_raise]. Qed.

Lemma preserves_get : preserves R get.
Proof. intros st st' H. injection H as <-. reflexivity. Qed.

Lemma preserves_out_of_fuel {A} : preserves R (@out_of_fuel A).
Proof. intros st st' H. discriminate. Qed.

Lemma preserves_bind {A B} (m : M A) (k : A -> M B) :
  preserves R m -> (forall a, preserves R (k a)) -> preserves R (bind m k).
Proof.
  intros Hm Hk st st' H. unfold bind in H.
  specialize (Hm st). destruct (m st) as [a st1|e st1|]; simpl in *.
  - transitivity st1; [now apply Hm | now apply (Hk a)].
  - injection H as <-. now apply Hm.
  - discriminate.
Qed.

Lemma preserves_try {A} (body handler : M A) :
  preserves R body -> preserves R handler ->
  preserves R (try_except_PermissionError body handler).
Proof.
  intros Hb Hh st st' H. unfold try_except_PermissionError in H.
  specialize (Hb st). destruct (body st) as [a st1|e st1|]; simpl in *.
  - now apply Hb.
  - destruct (is_PermissionError e).
    + transitivity st1; [now apply Hb | now apply Hh].
    + now apply Hb.
  - discriminate.
Qed.

Lemma preserves_for_each {A} (l : list A) (body : A -> M unit) :
  (forall x, In x l -> preserves R (body x)) -> preserves R (for_each l body).
Proof.
  induction l as [|x l IH]; intros Hb; simpl.
  - apply preserves_ret.
  - apply preserves_bind; [apply Hb; now left|].
    intros _. apply IH. intros y Hy. apply Hb. now right.
Qed.

Lemma preserves_fold_each {A B} (l : list A) (acc : B)
    (body : A -> B -> M B) :
  (forall x b, In x l -> preserves R (body x b)) ->
  preserves R (fold_each l acc body).
Proof.
  revert acc. induction l as [|x l IH]; intros acc Hb; simpl.
  - apply preserves_ret.
  - apply preserves_bind; [apply Hb; now left|].
    intros acc'. apply IH. intros y b Hy. apply Hb. now right.
Qed.

(** *** The walk, for a relation kept by the four assignments it makes *)

Hypothesis R_set_modtime : forall f t st, R st (set_modtime f t st).
Hypothesis R_add_permission_error :
  forall p st, R st (add_permission_error p st).

Lemma preserves_add_file (w : World) (filename : string) :
  preserves R (add_file w filename).
Proof.
  unfold add_file. apply preserves_try.
  - apply preserves_bind; [apply preserves_lift|].
    intros t st st' H. injection H as <-. apply R_set_modtime.
  - intros st st' H. injection H as <-. apply R_add_permission_error.
Qed.

Lemma preserves_permission_errors_add (p : string) :
  preserves R (permission_errors_add p).
Proof. intros st st' H. injection H as <-. apply R_add_permission_error. Qed.

Lemma preserves_classify_entry (directory : string) (entry : DirEntry)
    (locals : Py.dict DirEntry * gset string) :
  preserves R (classify_entry directory entry locals).
Proof.
  unfold classify_entry. destruct locals as [dirs files].
  apply preserves_try.
  - apply preserves_bind; [apply preserves_lift|]. intros [|].
    { apply preserves_ret. }
    apply preserves_bind; [apply preserves_lift|]. intros [|].
    { apply preserves_ret. }
    apply preserves_bind; [apply preserves_lift|]. intros [|];
      apply preserves_ret.
  - apply preserves_bind; [apply preserves_permission_errors_add|].
    intros _. apply preserves_ret.
Qed.

Lemma preserves_process_entries (recurse : string -> option Z -> M unit)
    (w : World) (args : Args) (directory : string)
    (entries : list DirEntry) :
  (forall d i, preserves R (recurse d i)) ->
  preserves R (process_entries recurse w args directory entries).
Proof.
  intros Hrec. unfold process_entries.
  apply preserves_bind.
  { apply preserves_fold_each. intros; apply preserves_classify_entry. }
  intros [dirs files]. destruct (is_anaconda args dirs).
  { apply preserves_ret. }
  apply preserves_bind.
  - apply preserves_for_each. intros file _.
    destruct (Py.endswith_any file required_suffixes);
      [apply preserves_add_file | apply preserves_ret].
  - intros _. apply preserves_for_each. intros [dirname entry] _.
    apply Hrec.
Qed.

Hypothesis R_logged : forall ev st, R st (logged ev st).

Lemma preserves_log (ev : event) : preserves R (log ev).
Proof. intros st st' H. injection H as <-. apply R_logged. Qed.

Lemma preserves_scan (w : World) (directory : string) (inode : Z) :
  preserves R (scan w directory inode).
Proof.
  unfold scan. apply preserves_try.
  - apply preserves_bind; [apply preserves_log|]. intros _.
    apply preserves_bind; [apply preserves_lift|]. intros entries.
    apply preserves_ret.
  - apply preserves_bind; [apply preserves_permission_errors_add|].
    intros _. apply preserves_ret.
Qed.

Lemma preserves_add_directory_body (recurse : string -> option Z -> M unit)
    (w : World) (args : Args) (directory : string) (inode : Z) :
  (forall d i, preserves R (recurse d i)) ->
  preserves R (add_directory_body recurse w args directory inode).
Proof.
  intros Hrec. unfold add_directory_body.
  repeat match goal with
         | |- preserves R (if ?c then _ else _) =>
             destruct c; [apply preserves_ret|]
         end.
  apply preserves_bind; [apply preserves_scan|].
  intros [entries|]; [|apply preserves_ret].
  now apply preserves_process_entries.
Qed.

Hypothesis R_add_canonical : forall i st, R st (add_canonical i st).

Lemma preserves_add_directory (fuel : nat) (w : World) (args : Args)
    (directory : string) (inode : option Z) :
  preserves R (add_directory fuel w args directory inode).
Proof.
  revert directory inode. induction fuel as [|fuel IH]; intros directory inode.
  - apply preserves_out_of_fuel.
  - simpl. apply preserves_bind; [apply preserves_lift|]. intros i.
    apply preserves_bind; [apply preserves_get|]. intros st0.
    destruct (decide (i ∈ canonicals st0)); [apply preserves_ret|].
    apply preserves_bind.
    { intros st st' H. injection H as <-. apply R_add_canonical. }
    intros _. apply preserves_bind; [apply preserves_log|]. intros _.
    apply preserves_add_directory_body. exact IH.
Qed.

Lemma preserves_add_root (fuel : nat) (w : World) (args : Args)
    (file_or_dir : string) :
  preserves R (add_root fuel w args file_or_dir).
Proof.
  unfold add_root. destruct (os_path_isfile w file_or_dir).
  { apply preserves_add_file. }
  destruct (os_path_isdir w file_or_dir).
  - apply preserves_add_directory.
  - apply preserves_raise.
Qed.

End Preserves.

(** ** One call of [add_directory] *)

Lemma add_directory_visited (fuel : nat) (w : World) (args : Args)
    (directory : string) (inode : option Z) (i : Z) (st : state) :
  resolve_inode w directory inode = Ok i ->
  i ∈ canonicals st ->
  add_directory (S fuel) w args directory inode st = Returned tt st.
Proof.
  intros Hres Hin. simpl. unfold bind, lift, get. rewrite Hres. unfold ret.
  destruct (decide (i ∈ canonicals st)); [reflexivity | contradiction].
Qed.

Lemma add_directory_new (fuel : nat) (w : World) (args : Args)
    (directory : string) (inode : option Z) (i : Z) (st : state) :
  resolve_inode w directory inode = Ok i ->
  i ∉ canonicals st ->
  add_directory (S fuel) w args directory inode st
  = add_directory_body (add_directory fuel w args) w args directory i
      (logged (EvVisit directory i) (add_canonical i st)).
Proof.
  intros Hres Hin. simpl. unfold bind, lift, get. rewrite Hres. unfold ret.
  destruct (decide (i ∈ canonicals st)); [contradiction | reflexivity].
Qed.

Lemma add_directory_raise (fuel : nat) (w : World) (args : Args)
    (directory : string) (inode : option Z) (e : exception) (st : state) :
  resolve_inode w directory inode = Raise e ->
  add_directory (S fuel) w args directory inode st = Raised e st.
Proof. intros Hres. simpl. unfold bind, lift. now rewrite Hres. Qed.

Lemma scan_run (w : World) (directory : string) (i : Z) (st : state) :
  scan w directory i st
  = match os_scandir w directory with
    | Ok entries => Returned (Some entries) (logged (EvScandir directory i) st)
    | Raise e =>
        if is_PermissionError e
        then Returned None
               (add_permission_error directory
                  (logged (EvScandir directory i) st))
        else Raised e (logged (EvScandir directory i) st)
    end.
Proof.
  unfold scan, try_except_PermissionError, bind, log, lift.
  destruct (os_scandir w directory) as [entries|e]; [reflexivity|].
  unfold raise. destruct (is_PermissionError e); reflexivity.
Qed.

Lemma add_directory_body_skipped (recurse : string -> option Z -> M unit)
    (w : World) (args : Args) (directory : string) (i : Z) (st : state) :
  skipped_by_name args directory = true ->
  add_directory_body recurse w args directory i st = Returned tt st.
Proof.
  unfold skipped_by_name, add_directory_body. intros H.
  destruct (Py.endswith directory "/node_modules"
            && args_skip_node_module_dirs args); [reflexivity|].
  destruct (args_skip_dotdirs args
            && Py.startswith (Py.os_path_basename directory) ".");
    [reflexivity|].
  destruct (Py.endswith directory "/google-cloud-sdk"
            && args_skip_google_cloud_sdk_dirs args); [reflexivity|].
  discriminate.
Qed.

Lemma add_directory_body_enumerates (recurse : string -> option Z -> M unit)
    (w : World) (args : Args) (directory : string) (i : Z) (st : state) :
  skipped_by_name args directory = false ->
  add_directory_body recurse w args directory i st
  = match os_scandir w directory with
    | Ok entries =>
        process_entries recurse w args directory entries
          (logged (EvScandir directory i) st)
    | Raise e =>
        if is_PermissionError e
        then Returned tt
               (add_permission_error directory
                  (logged (EvScandir directory i) st))
        else Raised e (logged (EvScandir directory i) st)
    end.
Proof.
  unfold skipped_by_name, add_directory_body. intros H.
  destruct (Py.endswith directory "/node_modules"
            && args_skip_node_module_dirs args); [discriminate|].
  destruct (args_skip_dotdirs args
            && Py.startswith (Py.os_path_basename directory) ".");
    [discriminate|].
  destruct (Py.endswith directory "/google-cloud-sdk"
            && args_skip_google_cloud_sdk_dirs args); [discriminate|].
  unfold bind. rewrite scan_run.
  destruct (os_scandir w directory) as [entries|e]; [reflexivity|].
  destruct (is_PermissionError e); reflexivity.
Qed.

Lemma classify_entry_run (directory : string) (entry : DirEntry)
    (dirs : Py.dict DirEntry) (files : gset string) (st : state) :
  classify_entry directory entry (dirs, files) st
  = match classification_raises entry with
    | Some e =>
        if is_PermissionError e
        then Returned (dirs, files)
               (add_permission_error
                  (Py.os_path_join directory (entry_name entry)) st)
        else Raised e st
    | None =>
        Returned
          (match entry_is_symlink entry, entry_is_dir entry,
                 entry_is_file entry with
           | Ok false, Ok true, _ =>
               (Py.dict_set dirs (entry_name entry) entry, files)
           | Ok false, Ok false, Ok true =>
               (dirs, {[entry_name entry]} ∪ files)
           | _, _, _ => (dirs, files)
           end) st
    end.
Proof.
  unfold classify_entry, classification_raises, try_except_PermissionError,
    bind, lift, raise, ret, permission_errors_add.
  destruct (entry_is_symlink entry) as [[|]|e1]; simpl;
    [reflexivity| |destruct (is_PermissionError e1); reflexivity].
  destruct (entry_is_dir entry) as [[|]|e2]; simpl;
    [reflexivity| |destruct (is_PermissionError e2); reflexivity].
  destruct (entry_is_file entry) as [[|]|e3]; simpl;
    [reflexivity|reflexivity|destruct (is_PermissionError e3); reflexivity].
Qed.

Lemma classify_entry_symlink (directory : string) (entry : DirEntry)
    (locals : Py.dict DirEntry * gset string) (st : state) :
  is_symlink_entry entry = true ->
  classify_entry directory entry locals st = Returned locals st.
Proof.
  destruct locals as [dirs files]. rewrite classify_entry_run.
  unfold is_symlink_entry, classification_raises.
  destruct (entry_is_symlink entry) as [[|]|e]; try discriminate.
  reflexivity.
Qed.

Lemma fold_classify_without_symlinks (directory : string)
    (entries : list DirEntry) (locals : Py.dict DirEntry * gset string)
    (st : state) :
  fold_each entries locals (classify_entry directory) st
  = fold_each (List.filter (fun e => negb (is_symlink_entry e)) entries)
      locals (classify_entry directory) st.
Proof.
  revert locals st. induction entries as [|e entries IH]; intros locals st.
  - reflexivity.
  - simpl. destruct (is_symlink_entry e) eqn:He; simpl.
    + unfold bind. rewrite (classify_entry_symlink _ _ _ _ He). apply IH.
    + unfold bind. destruct (classify_entry directory e locals st);
        try reflexivity. apply IH.
Qed.

#[global] Instance only_permission_errors_preorder :
  PreOrder only_permission_errors.
Proof.
  split.
  - intros st. unfold only_permission_errors. repeat split; reflexivity.
  - intros a b c (H1 & H2 & H3 & H4 & H5 & H6) (K1 & K2 & K3 & K4 & K5 & K6).
    unfold only_permission_errors.
    rewrite K1, K2, K3, K4, K5, H1, H2, H3, H4, H5.
    repeat split. etransitivity; eassumption.
Qed.

Lemma fold_classify_only_permission_errors (directory : string)
    (entries : list DirEntry) (locals : Py.dict DirEntry * gset string) :
  preserves only_permission_errors
    (fold_each entries locals (classify_entry directory)).
Proof.
  apply preserves_fold_each; [typeclasses eauto|].
  intros e b _. apply preserves_classify_entry; [typeclasses eauto|].
  intros p st. unfold only_permission_errors. simpl.
  repeat split. apply union_subseteq_r.
Qed.

(** ** Dictionaries *)

Lemma dict_get_set {V} (d : Py.dict V) (k n : string) (v : V) :
  Py.dict_get (Py.dict_set d k v) n
  = if String.eqb k n then Some v else Py.dict_get d n.
Proof.
  induction d as [|[k' v'] d IH]; simpl.
  - reflexivity.
  - destruct (String.eqb_spec k' k) as [->|Hne]; simpl.
    + destruct (String.eqb_spec k n); reflexivity.
    + rewrite IH. destruct (String.eqb_spec k' n) as [->|Hn]; [|reflexivity].
      destruct (String.eqb_spec k n); [congruence | reflexivity].
Qed.

Lemma dict_in_set {V} (d : Py.dict V) (k n : string) (v : V) :
  Py.dict_in n (Py.dict_set d k v) = String.eqb k n || Py.dict_in n d.
Proof.
  unfold Py.dict_in. rewrite dict_get_set.
  destruct (String.eqb k n); reflexivity.
Qed.

Lemma dict_set_In {V} (d : Py.dict V) (k n : string) (v x : V) :
  In (n, x) (Py.dict_set d k v) -> (n = k /\ x = v) \/ In (n, x) d.
Proof.
  induction d as [|[k' v'] d IH]; simpl.
  - intros [H|[]]. injection H as <- <-. now left.
  - destruct (String.eqb_spec k' k) as [->|Hne]; simpl.
    + intros [H|H]; [injection H as <- <-; now left | right; now right].
    + intros [H|H]; [right; now left|].
      destruct (IH H) as [?|?]; [now left | right; now right].
Qed.

Lemma dict_in_keys {V} (d : Py.dict V) (k : string) :
  Py.dict_in k d = true <-> In k (Py.dict_keys d).
Proof.
  unfold Py.dict_in, Py.dict_keys.
  induction d as [|[k' v'] d IH]; simpl.
  - split; [discriminate | intros []].
  - destruct (String.eqb_spec k' k) as [->|Hne].
    + split; [now left | reflexivity].
    + rewrite IH. split; [now right | intros [?|?]; [congruence | assumption]].
Qed.

(** ** The classification loop *)

Lemma fold_classify_dir_in (directory name : string) (l : list DirEntry)
    (dirs dirs' : Py.dict DirEntry) (files files' : gset string)
    (st st' : state) :
  fold_each l (dirs, files) (classify_entry directory) st
  = Returned (dirs', files') st' ->
  Py.dict_in name dirs = true \/ List.Exists (is_subdirectory_named name) l ->
  Py.dict_in name dirs' = true.
Proof.
  revert dirs files st. induction l as [|e l IH]; intros dirs files st Hrun H.
  - injection Hrun as <- <- <-. destruct H as [H|H]; [exact H | inversion H].
  - cbn [fold_each] in Hrun. unfold bind in Hrun.
    rewrite classify_entry_run in Hrun.
    assert (Hcase : forall acc st1,
               fold_each l acc (classify_entry directory) st1
               = Returned (dirs', files') st' ->
               (Py.dict_in name (fst acc) = true
                \/ List.Exists (is_subdirectory_named name) l) ->
               Py.dict_in name dirs' = true).
    { intros [d f] st1. apply IH. }
    destruct (classification_raises e) as [ex|] eqn:Hex.
    + destruct (is_PermissionError ex); [|discriminate].
      apply (Hcase _ _ Hrun). simpl.
      destruct H as [H|H]; [now left|].
      inversion H as [? ? (Hn & Hs & Hd)|]; subst; [|now right].
      unfold classification_raises in Hex. rewrite Hs, Hd in Hex.
      discriminate.
    + apply (Hcase _ _ Hrun).
      destruct H as [H|H].
      * left. destruct (entry_is_symlink e) as [[|]|]; try exact H.
        destruct (entry_is_dir e) as [[|]|]; simpl; try exact H.
        -- rewrite dict_in_set, H. apply orb_true_r.
        -- destruct (entry_is_file e) as [[|]|]; exact H.
      * inversion H as [? ? (Hn & Hs & Hd)|]; subst; [|now right].
        left. rewrite Hs, Hd. simpl. rewrite dict_in_set, String.eqb_refl.
        reflexivity.
Qed.

Lemma fold_classify_from (directory : string) (entries l : list DirEntry)
    (dirs dirs' : Py.dict DirEntry) (files files' : gset string)
    (st st' : state) :
  let from_dirs (d : Py.dict DirEntry) :=
    forall name e, In (name, e) d ->
      In e entries /\ entry_name e = name
      /\ entry_is_symlink e = Ok false /\ entry_is_dir e = Ok true in
  let from_files (f : gset string) :=
    forall name, name ∈ f ->
      exists e, In e entries /\ entry_name e = name
                /\ entry_is_symlink e = Ok false
                /\ entry_is_file e = Ok true in
  (forall e, In e l -> In e entries) ->
  fold_each l (dirs, files) (classify_entry directory) st
  = Returned (dirs', files') st' ->
  from_dirs dirs -> from_files files ->
  from_dirs dirs' /\ from_files files'.
Proof.
  intros from_dirs from_files.
  revert dirs files st. induction l as [|e l IH];
    intros dirs files st Hsub Hrun Hd Hf.
  - injection Hrun as <- <- <-. now split.
  - cbn [fold_each] in Hrun. unfold bind in Hrun.
    rewrite classify_entry_run in Hrun.
    assert (He : In e entries) by (apply Hsub; now left).
    assert (Hsub' : forall x, In x l -> In x entries)
      by (intros x Hx; apply Hsub; now right).
    destruct (classification_raises e) as [ex|].
    + destruct (is_PermissionError ex); [|discriminate].
      now apply (IH _ _ _ Hsub' Hrun).
    + destruct (entry_is_symlink e) as [[|]|] eqn:Hs;
        try now apply (IH _ _ _ Hsub' Hrun).
      destruct (entry_is_dir e) as [[|]|] eqn:Hdir.
      * apply (IH _ _ _ Hsub' Hrun); [|exact Hf].
        intros name x Hin. apply dict_set_In in Hin.
        destruct Hin as [[-> ->]|Hin]; [now repeat split | now apply Hd].
      * destruct (entry_is_file e) as [[|]|] eqn:Hfile;
          try now apply (IH _ _ _ Hsub' Hrun).
        apply (IH _ _ _ Hsub' Hrun); [exact Hd|].
        intros name Hin. apply elem_of_union in Hin.
        destruct Hin as [Hin|Hin]; [|now apply Hf].
        apply elem_of_singleton in Hin. subst name.
        exists e. now repeat split.
      * now apply (IH _ _ _ Hsub' Hrun).
Qed.

(** ** Symbolic links *)

(** C7: a directory entry that is a symbolic link is ignored.  Looking at
    it changes neither [dirs] nor [files] nor the state; the walk of a
    directory is the walk of the same entries without the symbolic links;
    and every entry that reaches [dirs] (the directories walked) or [files]
    (the files registered) has answered that it is not a symbolic link. *)
Theorem symlinks_ignored (directory : string) :
  (forall entry locals st,
      entry_is_symlink entry = Ok true ->
      classify_entry directory entry locals st = Returned locals st)
  /\ (forall recurse w args entries st,
        process_entries recurse w args directory entries st
        = process_entries recurse w args directory
            (List.filter (fun e => negb (is_symlink_entry e)) entries) st)
  /\ (forall entries st dirs files st',
        fold_each entries ([], ∅) (classify_entry directory) st
        = Returned (dirs, files) st' ->
        (forall name e, In (name, e) dirs ->
           In e entries /\ entry_name e = name
           /\ entry_is_symlink e = Ok false /\ entry_is_dir e = Ok true)
        /\ (forall name, name ∈ files ->
              exists e, In e entries /\ entry_name e = name
                        /\ entry_is_symlink e = Ok false
                        /\ entry_is_file e = Ok true)).
Proof.
  split; [|split].
  - intros entry locals st H. apply classify_entry_symlink.
    unfold is_symlink_entry. now rewrite H.
  - intros recurse w args entries st. unfold process_entries, bind.
    now rewrite fold_classify_without_symlinks.
  - intros entries st dirs files st' Hrun.
    eapply (fold_classify_from directory entries entries); eauto.
    + intros name e [].
    + intros name Hin. now apply not_elem_of_empty in Hin.
Qed.

(** ** Permission errors *)













(** ** The anaconda test *)

(** C8: with [skip_anaconda_dirs] set, a directory that has the three
    subdirectories [condabin], [bin] and [conda-meta] is skipped: the call
    does the classification loop over all its entries and nothing more, so
    no file of it is registered and no subdirectory is visited.  The test
    comes after the loop: the permission errors of all the entries are
    recorded. *)
Theorem anaconda_directory_skipped (fuel : nat) (w : World) (args : Args)
    (directory : string) (inode : option Z) (i : Z)
    (entries : list DirEntry) (st : state) :
  args_skip_anaconda_dirs args = true ->
  resolve_inode w directory inode = Ok i ->
  i ∉ canonicals st ->
  skipped_by_name args directory = false ->
  os_scandir w directory = Ok entries ->
  List.Exists (is_subdirectory_named "condabin") entries ->
  List.Exists (is_subdirectory_named "bin") entries ->
  List.Exists (is_subdirectory_named "conda-meta") entries ->
  add_directory (S fuel) w args directory inode st
  = (fold_each entries ([], ∅) (classify_entry directory) ;; ret tt)
      (entered directory i st)
  /\ forall st',
       final_state (add_directory (S fuel) w args directory inode st)
       = Some st' ->
       file_modtimes st' = file_modtimes st
       /\ canonicals st' = {[i]} ∪ canonicals st
       /\ trace st'
          = EvScandir directory i :: EvVisit directory i :: trace st.
Proof.
  intros Hflag Hres Hnew Hname Hscan H1 H2 H3.
  assert (Heq : add_directory (S fuel) w args directory inode st
                = (fold_each entries ([], ∅) (classify_entry directory) ;;
                   ret tt) (entered directory i st)).
  { rewrite (add_directory_new _ _ _ _ _ _ _ Hres Hnew).
    rewrite (add_directory_body_enumerates _ _ _ _ _ _ Hname), Hscan.
    unfold process_entries, bind. fold (entered directory i st).
    destruct (fold_each entries ([], ∅) (classify_entry directory)
                (entered directory i st)) as [[dirs files] st1|e st1|] eqn:Hrun;
      try reflexivity.
    unfold is_anaconda. rewrite Hflag.
    rewrite (fold_classify_dir_in _ "condabin" _ _ _ _ _ _ _ Hrun)
      by now right.
    rewrite (fold_classify_dir_in _ "bin" _ _ _ _ _ _ _ Hrun) by now right.
    rewrite (fold_classify_dir_in _ "conda-meta" _ _ _ _ _ _ _ Hrun)
      by now right.
    reflexivity. }
  split; [exact Heq|].
  intros st' Hfin. rewrite Heq in Hfin.
  assert (Hp : preserves only_permission_errors
                 (fold_each entries ([], ∅) (classify_entry directory) ;;
                  ret tt)).
  { apply preserves_bind; [typeclasses eauto | |].
    - apply fold_classify_only_permission_errors.
    - intros _. apply preserves_ret. typeclasses eauto. }
  destruct (Hp _ _ Hfin) as (Hf & Hc & _ & _ & Ht & _).
  rewrite Hf, Hc, Ht. repeat split.
Qed.

(** ** The collections only grow *)

#[global] Instance grows_preorder : PreOrder grows.
Proof.
  split.
  - intros st. unfold grows. split; [reflexivity|]. split; [reflexivity|].
    split; [auto | now exists []].
  - intros a b c (H1 & H2 & H3 & l1 & H4) (K1 & K2 & K3 & l2 & K4).
    unfold grows. split; [etransitivity; eassumption|].
    split; [etransitivity; eassumption|]. split; [auto|].
    exists (l2 ++ l1). rewrite K4, H4. apply app_assoc.
Qed.

Local Ltac grows_step witness :=
  unfold grows; simpl;
  split; [first [reflexivity | apply union_subseteq_r]|];
  split; [first [reflexivity | apply union_subseteq_r]|];
  split; [|now exists witness].

Lemma grows_set_modtime f t st : grows st (set_modtime f t st).
Proof.
  grows_step (@nil event).
  intros k Hk. rewrite dict_in_set, Hk. apply orb_true_r.
Qed.

Lemma grows_add_permission_error p st : grows st (add_permission_error p st).
Proof. grows_step (@nil event). auto. Qed.

Lemma grows_logged ev st : grows st (logged ev st).
Proof. grows_step [ev]. auto. Qed.

Lemma grows_add_canonical i st : grows st (add_canonical i st).
Proof. grows_step (@nil event). auto. Qed.

Lemma grows_printed line st : grows st (printed line st).
Proof. grows_step (@nil event). auto. Qed.

Local Ltac pres lem := apply lem; try typeclasses eauto.

Lemma grows_add_directory fuel w args directory inode :
  preserves grows (add_directory fuel w args directory inode).
Proof.
  pres preserves_add_directory.
  - apply grows_set_modtime.
  - apply grows_add_permission_error.
  - apply grows_logged.
  - apply grows_add_canonical.
Qed.

Lemma grows_add_root fuel w args file_or_dir :
  preserves grows (add_root fuel w args file_or_dir).
Proof.
  pres preserves_add_root.
  - apply grows_set_modtime.
  - apply grows_add_permission_error.
  - apply grows_logged.
  - apply grows_add_canonical.
Qed.

Lemma grows_print line : preserves grows (print line).
Proof. intros st st' H. injection H as <-. apply grows_printed. Qed.

Lemma grows_print_lines (lines : list string) :
  preserves grows (for_each lines print).
Proof. pres preserves_for_each. intros; apply grows_print. Qed.

Lemma grows_summary args : preserves grows (summary args).
Proof.
  unfold summary. pres preserves_bind; [pres preserves_get|].
  intros st. pres preserves_bind; [apply grows_print|].
  intros _.
  destruct (args_show_permission_errors args
            && negb (bool_decide (permission_errors st = ∅)));
    [|pres preserves_ret].
  pres preserves_bind; [apply grows_print|].
  intros _. pres preserves_bind; [|intros _; apply grows_print].
  apply grows_print_lines.
Qed.

Lemma grows_run_grep w cmdline : preserves grows (run_grep w cmdline).
Proof.
  unfold run_grep. pres preserves_bind.
  { pres preserves_log. apply grows_logged. }
  intros _. pres preserves_bind; [pres preserves_lift|].
  intros [[ret_code raw_out] raw_err].
  destruct ((ret_code =? 0) || negb (Py.truthy (Py.strip raw_err))).
  { pres preserves_ret. }
  destruct (Py.truthy (Py.strip raw_err));
    [pres preserves_raise | pres preserves_ret].
Qed.

Lemma grows_report w filename out : preserves grows (report w filename out).
Proof.
  unfold report. destruct out as [out|]; [|pres preserves_ret].
  destruct (Py.truthy out); [|pres preserves_ret].
  pres preserves_bind; [pres preserves_get|].
  intros st. pres preserves_bind; [pres preserves_lift|].
  intros t. pres preserves_bind; [apply grows_print|].
  intros _. pres preserves_bind; [|intros _; apply grows_print].
  pres preserves_for_each. intros; apply grows_print.
Qed.

Lemma grows_search_files w args filenames :
  preserves grows (search_files w args filenames).
Proof.
  unfold search_files. pres preserves_for_each.
  intros f _. pres preserves_bind.
  - apply grows_run_grep.
  - intros out. apply grows_report.
Qed.

Lemma preserves_Returned {A} R (m : M A) st a st' :
  preserves R m -> m st = Returned a st' -> R st st'.
Proof. intros H Hrun. apply H. now rewrite Hrun. Qed.

(** the body of a loop that returns has run on each element *)
Lemma for_each_reaches {A} (R : state -> state -> Prop) `{!PreOrder R}
    (l : list A) (body : A -> M unit) (x : A) (st st' : state) :
  (forall y, preserves R (body y)) ->
  for_each l body st = Returned tt st' ->
  In x l ->
  exists sta stb,
    body x sta = Returned tt stb /\ R st sta /\ R stb st'.
Proof.
  intros Hb. revert st. induction l as [|y l IH]; intros st Hrun Hin.
  - destruct Hin.
  - cbn [for_each] in Hrun. unfold bind in Hrun.
    destruct (body y st) as [[] st1|e st1|] eqn:Hy; try discriminate.
    destruct Hin as [->|Hin].
    + exists st, st1. split; [exact Hy|]. split; [reflexivity|].
      eapply preserves_Returned; [|exact Hrun].
      apply preserves_for_each; [assumption|]. intros; apply Hb.
    + destruct (IH _ Hrun Hin) as (sta & stb & H1 & H2 & H3).
      exists sta, stb. split; [exact H1|]. split; [|exact H3].
      transitivity st1; [|exact H2].
      eapply preserves_Returned; [apply Hb | exact Hy].
Qed.

(** ** Each inode is enumerated once *)

#[global] Instance keeps_walk_inv_preorder : PreOrder keeps_walk_inv.
Proof. split; unfold keeps_walk_inv; [intros st; tauto | intros a b c; tauto]. Qed.

Lemma walk_inv_entered (directory : string) (i : Z) (st : state) :
  walk_inv st -> i ∉ canonicals st -> walk_inv (entered directory i st).
Proof.
  intros [Hnd Hsub] Hnew. unfold walk_inv. simpl. split.
  - constructor; [|exact Hnd]. intros Hin. apply Hnew, Hsub, Hin.
  - intros j [<-|Hj].
    + apply elem_of_union_l, elem_of_singleton. reflexivity.
    + apply elem_of_union_r, Hsub, Hj.
Qed.

Lemma walk_inv_visited (directory : string) (i : Z) (st : state) :
  walk_inv st -> walk_inv (logged (EvVisit directory i) (add_canonical i st)).
Proof.
  intros [Hnd Hsub]. unfold walk_inv. simpl. split; [exact Hnd|].
  intros j Hj. apply elem_of_union_r, Hsub, Hj.
Qed.

Lemma keeps_walk_inv_process_entries
    (recurse : string -> option Z -> M unit) (w : World) (args : Args)
    (directory : string) (entries : list DirEntry) :
  (forall d i, preserves keeps_walk_inv (recurse d i)) ->
  preserves keeps_walk_inv (process_entries recurse w args directory entries).
Proof.
  intros Hrec. apply preserves_process_entries; try typeclasses eauto.
  - intros f t st H. exact H.
  - intros p st H. exact H.
  - exact Hrec.
Qed.

Lemma keeps_walk_inv_add_directory (fuel : nat) (w : World) (args : Args)
    (directory : string) (inode : option Z) :
  preserves keeps_walk_inv (add_directory fuel w args directory inode).
Proof.
  revert directory inode.
  induction fuel as [|fuel IH]; intros directory inode st st' Hfin Hinv.
  { discriminate. }
  destruct (resolve_inode w directory inode) as [i|e] eqn:Hres.
  2:{ rewrite (add_directory_raise _ _ _ _ _ _ _ Hres) in Hfin.
      now injection Hfin as <-. }
  destruct (decide (i ∈ canonicals st)) as [Hold|Hnew].
  { rewrite (add_directory_visited _ _ _ _ _ _ _ Hres Hold) in Hfin.
    now injection Hfin as <-. }
  rewrite (add_directory_new _ _ _ _ _ _ _ Hres Hnew) in Hfin.
  destruct (skipped_by_name args directory) eqn:Hname.
  { rewrite (add_directory_body_skipped _ _ _ _ _ _ Hname) in Hfin.
    injection Hfin as <-. now apply walk_inv_visited. }
  rewrite (add_directory_body_enumerates _ _ _ _ _ _ Hname) in Hfin.
  fold (entered directory i st) in Hfin.
  pose proof (walk_inv_entered directory i st Hinv Hnew) as Hent.
  destruct (os_scandir w directory) as [entries|e].
  - exact (keeps_walk_inv_process_entries _ w args directory entries IH
             _ _ Hfin Hent).
  - destruct (is_PermissionError e); injection Hfin as <-; exact Hent.
Qed.

Lemma walk_inv_initial : walk_inv initial_state.
Proof.
  split; simpl; [constructor | intros i []].
Qed.

(** C1, amended: the identity of a directory is its inode number alone: the
    number passed by the caller when it is neither [None] nor 0, the
    [st_ino] of [os.stat] otherwise; the device is not part of it.  On entry
    that number is looked up in [canonicals]: the call returns at once,
    changing nothing, when it is there; otherwise it is added before
    anything else is done, the visit being the oldest event the call leaves
    in the trace.  Hence no inode number is enumerated twice, by one call or
    by the walk of all the roots. *)
Theorem add_directory_once_per_inode (fuel : nat) (w : World) (args : Args) :
  (forall directory inode i st,
      resolve_inode w directory inode = Ok i ->
      i ∈ canonicals st ->
      add_directory (S fuel) w args directory inode st = Returned tt st)
  /\ (forall directory inode i st st',
        resolve_inode w directory inode = Ok i ->
        i ∉ canonicals st ->
        final_state (add_directory (S fuel) w args directory inode st)
        = Some st' ->
        i ∈ canonicals st'
        /\ exists l, trace st' = l ++ EvVisit directory i :: trace st)
  /\ (forall directory inode st st',
        final_state (add_directory fuel w args directory inode st)
        = Some st' ->
        walk_inv st -> walk_inv st')
  /\ (forall paths st',
        final_state (for_each paths (add_root fuel w args) initial_state)
        = Some st' ->
        List.NoDup (scanned_inodes (trace st'))).
Proof.
  split; [|split; [|split]].
  - intros directory inode i st. apply add_directory_visited.
  - intros directory inode i st st' Hres Hnew Hfin.
    rewrite (add_directory_new _ _ _ _ _ _ _ Hres Hnew) in Hfin.
    assert (Hg : grows (logged (EvVisit directory i) (add_canonical i st)) st').
    { revert Hfin. apply preserves_add_directory_body; try typeclasses eauto.
      - apply grows_set_modtime.
      - apply grows_add_permission_error.
      - apply grows_logged.
      - intros d j. apply grows_add_directory. }
    destruct Hg as (Hc & _ & _ & l & Ht). split.
    + apply Hc. simpl. apply elem_of_union_l, elem_of_singleton. reflexivity.
    + exists l. exact Ht.
  - intros directory inode st st' Hfin.
    exact (keeps_walk_inv_add_directory _ _ _ _ _ _ _ Hfin).
  - intros paths st' Hfin.
    assert (Hp : preserves keeps_walk_inv
                   (for_each paths (add_root fuel w args))).
    { apply preserves_for_each; [typeclasses eauto|]. intros p _.
      unfold add_root. destruct (os_path_isfile w p).
      - apply preserves_add_file; [typeclasses eauto | |].
        + intros f t st H. exact H.
        + intros q st H. exact H.
      - destruct (os_path_isdir w p).
        + apply keeps_walk_inv_add_directory.
        + apply preserves_raise. typeclasses eauto. }
    exact (proj1 (Hp _ _ Hfin walk_inv_initial)).
Qed.

Lemma add_directory_once_per_inode_witness :
  add_directory 3 (fixture_world scenario) (default_args "TODO" ["root"])
    "root" None
    (logged (EvVisit "root" 10) (add_canonical 10 initial_state))
  = Returned tt (logged (EvVisit "root" 10) (add_canonical 10 initial_state))
  /\ (5 ∈ canonicals two_devices_after_a
      /\ exists l,
           trace two_devices_after_a
           = l ++ EvVisit "/mnt/a" 5 :: trace initial_state)
  /\ walk_inv two_devices_after_a.
Proof.
  split; [|split].
  - apply (proj1 (add_directory_once_per_inode 2 (fixture_world scenario)
                    (default_args "TODO" ["root"])) "root" None 10).
    + reflexivity.
    + simpl. apply elem_of_union_l, elem_of_singleton. reflexivity.
  - apply (proj1 (proj2 (add_directory_once_per_inode 1
                           (fixture_world two_devices) (default_args "x" [])))
             "/mnt/a" None 5 initial_state two_devices_after_a).
    + reflexivity.
    + apply not_elem_of_empty.
    + vm_compute. reflexivity.
  - apply (proj1 (proj2 (proj2 (add_directory_once_per_inode 2
                                  (fixture_world two_devices)
                                  (default_args "x" []))))
             "/mnt/a" None initial_state two_devices_after_a).
    + vm_compute. reflexivity.
    + split; simpl; [constructor | intros i []].
Defined.

(** C1 as the specification words it fails: [/mnt/a] and [/mnt/b] are two
    directories on two devices that share the inode number 5.  After the
    walk of [/mnt/a] the call for [/mnt/b] returns at once and records
    nothing, although no directory with its device and inode was visited. *)
Lemma device_ignored_counterexample :
  add_directory 2 (fixture_world two_devices) (default_args "x" [])
    "/mnt/a" None initial_state
  = Returned tt two_devices_after_a
  /\ os_stat (fixture_world two_devices) "/mnt/a"
     = Ok {| st_dev := 1; st_ino := 5 |}
  /\ os_stat (fixture_world two_devices) "/mnt/b"
     = Ok {| st_dev := 2; st_ino := 5 |}
  /\ add_directory 2 (fixture_world two_devices) (default_args "x" [])
       "/mnt/b" None two_devices_after_a
     = Returned tt two_devices_after_a
  /\ ~ records_new_physical_directory 2 (fixture_world two_devices)
         (default_args "x" []) "/mnt/b" two_devices_after_a.
Proof.
  assert (Ha : add_directory 2 (fixture_world two_devices)
                 (default_args "x" []) "/mnt/a" None initial_state
               = Returned tt two_devices_after_a).
  { vm_compute. reflexivity. }
  assert (Hb : add_directory 2 (fixture_world two_devices)
                 (default_args "x" []) "/mnt/b" None two_devices_after_a
               = Returned tt two_devices_after_a).
  { apply (add_directory_visited _ _ _ _ _ 5); [reflexivity|].
    simpl. apply elem_of_singleton. reflexivity. }
  split; [exact Ha|]. split; [reflexivity|]. split; [reflexivity|].
  split; [exact Hb|].
  intros Hclaim.
  destruct (Hclaim {| st_dev := 2; st_ino := 5 |} eq_refl) with
    (st' := two_devices_after_a) as [i Hin].
  - intros d i s' Hin Hs. simpl in Hin.
    destruct Hin as [Hin|[Hin|[]]]; [discriminate|].
    injection Hin as <- <-. vm_compute in Hs. injection Hs as <-.
    unfold physical_identity. simpl. congruence.
  - rewrite Hb. reflexivity.
  - simpl in Hin. destruct Hin as [Hin|[Hin|[]]]; discriminate.
Qed.


(** ** The search *)

Lemma run_grep_run (w : World) (cmdline : list string) (st : state) :
  run_grep w cmdline st
  = match Popen w cmdline with
    | Raise e => Raised e (logged (EvGrep cmdline) st)
    | Ok (ret_code, raw_out, raw_err) =>
        if (ret_code =? 0) || negb (Py.truthy (Py.strip raw_err))
        then Returned (Some (Py.strip raw_out)) (logged (EvGrep cmdline) st)
        else Raised (SubprocessFailed ret_code (Py.strip raw_err)
                       (Py.strip raw_out))
               (logged (EvGrep cmdline) st)
    end.
Proof.
  unfold run_grep, bind, log, lift.
  destruct (Popen w cmdline) as [[[ret_code raw_out] raw_err]|e];
    [|reflexivity].
  unfold ret. destruct (ret_code =? 0); simpl; [reflexivity|].
  destruct (Py.truthy (Py.strip raw_err)); reflexivity.
Qed.

Lemma run_grep_logs (w : World) (cmdline : list string) (st st' : state) :
  final_state (run_grep w cmdline st) = Some st' ->
  st' = logged (EvGrep cmdline) st.
Proof.
  rewrite run_grep_run.
  destruct (Popen w cmdline) as [[[ret_code raw_out] raw_err]|e].
  - destruct ((ret_code =? 0) || negb (Py.truthy (Py.strip raw_err)));
      simpl; congruence.
  - simpl. congruence.
Qed.

Lemma search_files_cons (w : World) (args : Args) (f : string)
    (rest : list string) (st : state) :
  search_files w args (f :: rest) st
  = match run_grep w (cmdline_for args f) st with
    | Returned out st1 =>
        match report w f out st1 with
        | Returned _ st2 => search_files w args rest st2
        | Raised e st2 => Raised e st2
        | OutOfFuel => OutOfFuel
        end
    | Raised e st1 => Raised e st1
    | OutOfFuel => OutOfFuel
    end.
Proof.
  unfold search_files. cbn [for_each]. unfold bind.
  destruct (run_grep w (cmdline_for args f) st); reflexivity.
Qed.

Lemma search_files_logs (w : World) (args : Args) (filenames : list string)
    (f : string) (st st' : state) :
  search_files w args filenames st = Returned tt st' ->
  In f filenames ->
  In (EvGrep (cmdline_for args f)) (trace st').
Proof.
  intros Hrun Hin.
  unfold search_files in Hrun.
  apply (for_each_reaches grows _ _ f) in Hrun; [|clear Hrun|exact Hin].
  2:{ intros y. pres preserves_bind; [apply grows_run_grep|].
      intros out. apply grows_report. }
  destruct Hrun as (sta & stb & Hbody & _ & Hg).
  unfold bind in Hbody.
  destruct (run_grep w (cmdline_for args f) sta) as [out stc|e stc|] eqn:Hgrep;
    try discriminate.
  assert (Hc : stc = logged (EvGrep (cmdline_for args f)) sta).
  { apply (run_grep_logs w). now rewrite Hgrep. }
  assert (Hr : grows stc stb).
  { eapply preserves_Returned; [apply grows_report | exact Hbody]. }
  destruct Hr as (_ & _ & _ & l1 & H1). destruct Hg as (_ & _ & _ & l2 & H2).
  rewrite H2, H1, Hc. simpl.
  apply in_or_app. right. apply in_or_app. right. now left.
Qed.

(** C4, amended: [run_grep] raises when the process cannot be run and when
    it ends with a return code other than 0 and something on its standard
    error, and in no other case; what it raises ends the search at that
    file and is what [main] raises.  A run that ends with a return code
    other than 0 and nothing on its standard error is not an error for
    [run_grep]: with nothing on its standard output either, the search
    goes on with the next file and prints nothing. *)
Theorem search_error_is_fatal (w : World) (args : Args) :
  (forall cmdline st,
      (exists e st', run_grep w cmdline st = Raised e st')
      <-> ((exists e, Popen w cmdline = Raise e)
           \/ exists ret_code raw_out raw_err,
                Popen w cmdline = Ok (ret_code, raw_out, raw_err)
                /\ ret_code <> 0 /\ Py.strip raw_err <> ""))
  /\ (forall searched f rest st st1 e st',
        search_files w args searched st = Returned tt st1 ->
        run_grep w (cmdline_for args f) st1 = Raised e st' ->
        search_files w args (searched ++ f :: rest) st = Raised e st')
  /\ (forall fuel st st2 e st',
        (files_and_directories <- roots w args ;;
         for_each files_and_directories (add_root fuel w args) ;;
         summary args) st = Returned tt st2 ->
        search_files w args (filenames_to_search st2) st2 = Raised e st' ->
        main fuel w args st = Raised e st')
  /\ (forall f rest st ret_code raw_out raw_err,
        Popen w (cmdline_for args f) = Ok (ret_code, raw_out, raw_err) ->
        Py.strip raw_err = "" -> Py.strip raw_out = "" ->
        search_files w args (f :: rest) st
        = search_files w args rest (logged (EvGrep (cmdline_for args f)) st)).
Proof.
  split; [|split; [|split]].
  - intros cmdline st. rewrite run_grep_run.
    destruct (Popen w cmdline) as [[[ret_code raw_out] raw_err]|e].
    + destruct (Z.eqb_spec ret_code 0) as [Hz|Hz]; simpl.
      * split; [intros (e & st' & H); discriminate|].
        intros [[e H]|(r & o & x & H & Hr & _)]; [discriminate|].
        injection H as <- <- <-. contradiction.
      * destruct (Py.truthy (Py.strip raw_err)) eqn:Ht; simpl.
        -- apply truthy_true_iff in Ht. split; [|eauto].
           intros _. right. exists ret_code, raw_out, raw_err. auto.
        -- apply truthy_false_iff in Ht.
           split; [intros (e & st' & H); discriminate|].
           intros [[e H]|(r & o & x & H & _ & Hx)]; [discriminate|].
           injection H as <- <- <-. contradiction.
    + split; [eauto | intros _; eauto].
  - intros searched f rest st st1 e st' Hdone Hgrep.
    unfold search_files in *. rewrite for_each_app.
    rewrite (bind_Returned _ _ _ _ _ Hdone).
    fold (search_files w args (f :: rest) st1).
    rewrite search_files_cons, Hgrep. reflexivity.
  - intros fuel st st2 e st' Hwalk Hsearch. unfold main.
    unfold bind in *.
    destruct (roots w args st) as [l st0|e0 st0|]; try discriminate.
    destruct (for_each l (add_root fuel w args) st0) as [[] st1|e1 st1|];
      try discriminate.
    destruct (summary args st1) as [[] st3|e3 st3|]; try discriminate.
    injection Hwalk as <-. unfold get. exact Hsearch.
  - intros f rest st ret_code raw_out raw_err HP Herr Hout.
    rewrite search_files_cons, run_grep_run, HP, Herr, Hout.
    rewrite orb_true_r. reflexivity.
Qed.

(** C4 as the specification words it fails: [grep] ends with status 2, the
    status of an error, and writes nothing; [run_grep] returns the empty
    result of a file without matches and the search goes on to [b.py]. *)
Lemma silent_failure_counterexample :
  Popen (fixture_world silent_failure)
    (cmdline_for (default_args "x" ["a.py"; "b.py"]) "a.py")
  = Ok (2, "", "")
  /\ ~ grep_ran_successfully 2
  /\ run_grep (fixture_world silent_failure)
       (cmdline_for (default_args "x" ["a.py"; "b.py"]) "a.py") initial_state
     = Returned (Some "")
         (logged (EvGrep (cmdline_for (default_args "x" ["a.py"; "b.py"])
                            "a.py")) initial_state)
  /\ ~ failure_is_fatal (fixture_world silent_failure)
         (cmdline_for (default_args "x" ["a.py"; "b.py"]) "a.py")
         initial_state
  /\ option_map stdout
       (final_state (main 1 (fixture_world silent_failure)
                       (default_args "x" ["a.py"; "b.py"]) initial_state))
     = Some ["Searching 2 files."; "b.py some time ago (b.py)"; "    hit"; ""].
Proof.
  assert (Hno : ~ grep_ran_successfully 2).
  { unfold grep_ran_successfully. lia. }
  split; [reflexivity|]. split; [exact Hno|]. split; [reflexivity|]. split.
  - intros H. destruct (H 2 "" "" eq_refl Hno) as (e & st' & Hr).
    discriminate.
  - vm_compute. reflexivity.
Qed.

(** ** A file named on the command line *)

Lemma add_root_file (fuel : nat) (w : World) (args : Args) (p : string)
    (t : Z) (st : state) :
  os_path_isfile w p = true ->
  os_path_getmtime w p = Ok t ->
  add_root fuel w args p st = Returned tt (set_modtime p t st).
Proof.
  intros Hfile Ht. unfold add_root. rewrite Hfile. now apply add_file_ok.
Qed.

(** ** Termination of the walk *)

Lemma nof_ret {A} (a : A) : never_out_of_fuel (ret a).
Proof. intros st H. discriminate. Qed.

Lemma nof_lift {A} (r : result A) : never_out_of_fuel (lift r).
Proof. intros st H. destruct r; discriminate. Qed.

Lemma nof_bind {A B} (m : M A) (k : A -> M B) :
  never_out_of_fuel m -> (forall a, never_out_of_fuel (k a)) ->
  never_out_of_fuel (bind m k).
Proof.
  intros Hm Hk st H. unfold bind in H.
  destruct (m st) as [a st1|e st1|] eqn:Hrun; try discriminate.
  - now apply (Hk a st1).
  - now apply (Hm st).
Qed.

Lemma nof_try {A} (body handler : M A) :
  never_out_of_fuel body -> never_out_of_fuel handler ->
  never_out_of_fuel (try_except_PermissionError body handler).
Proof.
  intros Hb Hh st H. unfold try_except_PermissionError in H.
  destruct (body st) as [a st1|e st1|] eqn:Hrun; try discriminate.
  - destruct (is_PermissionError e); [now apply (Hh st1) | discriminate].
  - now apply (Hb st).
Qed.

Lemma nof_for_each {A} (l : list A) (body : A -> M unit) :
  (forall x, never_out_of_fuel (body x)) -> never_out_of_fuel (for_each l body).
Proof.
  intros Hb. induction l as [|x l IH]; simpl.
  - apply nof_ret.
  - apply nof_bind; [apply Hb | intros _; exact IH].
Qed.

Lemma nof_fold_each {A B} (l : list A) (acc : B) (body : A -> B -> M B) :
  (forall x b, never_out_of_fuel (body x b)) ->
  never_out_of_fuel (fold_each l acc body).
Proof.
  intros Hb. revert acc. induction l as [|x l IH]; intros acc; simpl.
  - apply nof_ret.
  - apply nof_bind; [apply Hb | intros acc'; apply IH].
Qed.

Lemma nof_add_file (w : World) (filename : string) :
  never_out_of_fuel (add_file w filename).
Proof.
  unfold add_file. apply nof_try.
  - apply nof_bind; [apply nof_lift|]. intros t st H. discriminate.
  - intros st H. discriminate.
Qed.

Lemma nof_classify_entry (directory : string) (entry : DirEntry)
    (locals : Py.dict DirEntry * gset string) :
  never_out_of_fuel (classify_entry directory entry locals).
Proof.
  intros st H. destruct locals as [dirs files].
  rewrite classify_entry_run in H.
  destruct (classification_raises entry) as [e|]; [|discriminate].
  destruct (is_PermissionError e); discriminate.
Qed.

Lemma nof_print (line : string) : never_out_of_fuel (print line).
Proof. intros st H. discriminate. Qed.

Lemma nof_search_files (w : World) (args : Args) (filenames : list string) :
  never_out_of_fuel (search_files w args filenames).
Proof.
  unfold search_files. apply nof_for_each. intros f.
  apply nof_bind.
  - intros st H. rewrite run_grep_run in H.
    destruct (Popen w (cmdline_for args f)) as [[[r o] e]|e]; [|discriminate].
    destruct ((r =? 0) || negb (Py.truthy (Py.strip e))); discriminate.
  - intros [out|]; unfold report; [|apply nof_ret].
    destruct (Py.truthy out); [|apply nof_ret].
    apply nof_bind; [intros st H; discriminate|]. intros st.
    apply nof_bind; [apply nof_lift|]. intros t.
    apply nof_bind; [apply nof_print|]. intros _.
    apply nof_bind; [|intros _; apply nof_print].
    apply nof_for_each. intros; apply nof_print.
Qed.

Lemma nof_summary (args : Args) : never_out_of_fuel (summary args).
Proof.
  unfold summary. apply nof_bind; [intros st H; discriminate|]. intros st.
  apply nof_bind; [apply nof_print|]. intros _.
  destruct (args_show_permission_errors args
            && negb (bool_decide (permission_errors st = ∅)));
    [|apply nof_ret].
  apply nof_bind; [apply nof_print|]. intros _.
  apply nof_bind; [|intros _; apply nof_print].
  apply nof_for_each. intros; apply nof_print.
Qed.

Lemma nof_roots (w : World) (args : Args) : never_out_of_fuel (roots w args).
Proof.
  unfold roots. destruct (args_files_and_directories args); [|apply nof_ret].
  apply nof_bind; [apply nof_print|]. intros _.
  destruct (negb (os_path_exists w (rc_file w))).
  - apply nof_bind; [intros st H; discriminate|]. intros _.
    apply nof_bind; [apply nof_print|]. intros _ st H. discriminate.
  - apply nof_bind; [apply nof_lift|]. intros c. apply nof_ret.
Qed.

(** a loop does not run out of fuel when its body does not, in the states
    the loop can reach *)
Lemma for_each_not_out_of_fuel {A} (P : state -> Prop) (l : list A)
    (body : A -> M unit) (st : state) :
  (forall x st1, In x l -> P st1 ->
     body x st1 <> OutOfFuel
     /\ forall st2, body x st1 = Returned tt st2 -> P st2) ->
  P st ->
  for_each l body st <> OutOfFuel.
Proof.
  revert st. induction l as [|x l IH]; intros st Hb HP; simpl.
  - discriminate.
  - unfold bind. destruct (Hb x st (or_introl eq_refl) HP) as [Hx Hnext].
    destruct (body x st) as [[] st1|e st1|]; [|discriminate|contradiction].
    apply IH; [|now apply Hnext].
    intros y st2 Hy. apply Hb. now right.
Qed.

Lemma unvisited_decreases (U C : gset Z) (i : Z) :
  i ∈ U -> i ∉ C -> (size (U ∖ ({[i]} ∪ C)) < size (U ∖ C))%nat.
Proof.
  intros HU HC. apply subset_size. split.
  - intros x Hx. apply elem_of_difference in Hx as [Hx1 Hx2].
    apply elem_of_difference. split; [exact Hx1|].
    intros Hc. apply Hx2, elem_of_union_r, Hc.
  - intros Hsub. assert (Hin : i ∈ U ∖ C) by now apply elem_of_difference.
    apply Hsub, elem_of_difference in Hin as [_ Hin].
    apply Hin, elem_of_union_l, elem_of_singleton. reflexivity.
Qed.

Lemma unvisited_monotone (U C C' : gset Z) :
  C ⊆ C' -> (size (U ∖ C') <= size (U ∖ C))%nat.
Proof.
  intros HC. apply subseteq_size. intros x Hx.
  apply elem_of_difference in Hx as [Hx1 Hx2].
  apply elem_of_difference. split; [exact Hx1|].
  intros Hc. apply Hx2, HC, Hc.
Qed.

Lemma resolve_inode_within (U : gset Z) (w : World) (p directory : string)
    (entries : list DirEntry) (e : DirEntry) (i : Z) :
  inodes_within U w ->
  os_scandir w p = Ok entries -> In e entries ->
  resolve_inode w directory (Some (entry_inode e)) = Ok i ->
  i ∈ U.
Proof.
  intros [Hstat Hscan] Hp He. unfold resolve_inode.
  destruct (Z.eqb_spec (entry_inode e) 0) as [Hz|Hz].
  - destruct (os_stat w directory) as [s|] eqn:Hs; [|discriminate].
    intros H. injection H as <-. now apply (Hstat directory).
  - intros H. injection H as <-. now apply (Hscan p entries).
Qed.

(** The walk ends: a fuel above the number of inodes not yet visited is not
    used up. *)
Lemma add_directory_terminates (U : gset Z) (w : World) (args : Args) :
  inodes_within U w ->
  forall fuel directory inode st,
    (forall i, resolve_inode w directory inode = Ok i -> i ∈ U) ->
    (size (U ∖ canonicals st) < fuel)%nat ->
    add_directory fuel w args directory inode st <> OutOfFuel.
Proof.
  intros HU. induction fuel as [|fuel IH]; intros directory inode st Hi Hsize.
  { lia. }
  destruct (resolve_inode w directory inode) as [i|e] eqn:Hres.
  2:{ now rewrite (add_directory_raise _ _ _ _ _ _ _ Hres). }
  destruct (decide (i ∈ canonicals st)) as [Hold|Hnew].
  { now rewrite (add_directory_visited _ _ _ _ _ _ _ Hres Hold). }
  rewrite (add_directory_new _ _ _ _ _ _ _ Hres Hnew).
  destruct (skipped_by_name args directory) eqn:Hname.
  { now rewrite (add_directory_body_skipped _ _ _ _ _ _ Hname). }
  rewrite (add_directory_body_enumerates _ _ _ _ _ _ Hname).
  fold (entered directory i st).
  destruct (os_scandir w directory) as [entries|e] eqn:Hscan.
  2:{ destruct (is_PermissionError e); discriminate. }
  assert (Hlt : (size (U ∖ canonicals (entered directory i st)) < fuel)%nat).
  { simpl. pose proof (unvisited_decreases U (canonicals st) i (Hi i eq_refl) Hnew).
    lia. }
  unfold process_entries, bind.
  destruct (fold_each entries ([], ∅) (classify_entry directory)
              (entered directory i st)) as [[dirs files] st1|e st1|] eqn:Hfold.
  2:{ discriminate. }
  2:{ exfalso. revert Hfold. apply (nof_fold_each entries).
      intros; apply nof_classify_entry. }
  assert (Hfrom : forall name e, In (name, e) dirs -> In e entries).
  { intros name e Hin.
    refine (proj1 (proj1 (fold_classify_from directory entries entries
                            [] dirs ∅ files _ _ (fun e H => H) Hfold _ _)
                     name e Hin)).
    - intros n x [].
    - intros n Hn. now apply not_elem_of_empty in Hn. }
  destruct (is_anaconda args dirs); [discriminate|].
  assert (Hg1 : grows (entered directory i st) st1).
  { eapply preserves_Returned; [|exact Hfold].
    pres preserves_fold_each. intros x b _.
    pres preserves_classify_entry. apply grows_add_permission_error. }
  set (register := fun file : string =>
         if Py.endswith_any file required_suffixes
         then add_file w (Py.os_path_join directory file)
         else ret tt).
  destruct (for_each (elements files) register st1) as [[] st2|e st2|]
    eqn:Hfiles.
  2:{ discriminate. }
  2:{ exfalso. revert Hfiles. apply (nof_for_each (elements files)).
      intros x.
      unfold register. destruct (Py.endswith_any x required_suffixes);
        [apply nof_add_file | apply nof_ret]. }
  assert (Hg2 : grows st1 st2).
  { eapply preserves_Returned; [|exact Hfiles].
    pres preserves_for_each. intros x _. unfold register.
    destruct (Py.endswith_any x required_suffixes); [|pres preserves_ret].
    pres preserves_add_file;
      [apply grows_set_modtime | apply grows_add_permission_error]. }
  apply (for_each_not_out_of_fuel
           (fun s => canonicals (entered directory i st) ⊆ canonicals s)).
  - intros [dirname entry] s Hin Hs.
    pose proof (Hfrom dirname entry Hin) as Hent.
    split.
    + apply IH.
      * intros j Hj. exact (resolve_inode_within U w directory _ entries
                              entry j HU Hscan Hent Hj).
      * pose proof (unvisited_monotone U _ _ Hs). lia.
    + intros s2 Hrun. etransitivity; [exact Hs|].
      exact (proj1 (preserves_Returned _ _ _ _ _
                      (grows_add_directory _ _ _ _ _) Hrun)).
  - etransitivity; [exact (proj1 Hg1) | exact (proj1 Hg2)].
Qed.

(** [main] ends when its fuel is above the number of inodes. *)
Lemma main_terminates (U : gset Z) (w : World) (args : Args) (fuel : nat) :
  inodes_within U w -> (size U < fuel)%nat ->
  never_out_of_fuel (main fuel w args).
Proof.
  intros HU Hfuel. unfold main.
  apply nof_bind; [apply nof_roots|]. intros l.
  apply nof_bind.
  { apply nof_for_each. intros p st. unfold add_root.
    destruct (os_path_isfile w p); [apply nof_add_file|].
    destruct (os_path_isdir w p); [|discriminate].
    apply (add_directory_terminates U); [exact HU | |].
    - unfold resolve_inode. intros i.
      destruct (os_stat w p) as [s|] eqn:Hs; [|discriminate].
      intros H. injection H as <-. exact (proj1 HU p s Hs).
    - assert (Hsub : U ∖ canonicals st ⊆ U).
      { intros x Hx. now apply elem_of_difference in Hx as [Hx _]. }
      apply subseteq_size in Hsub. lia. }
  intros _. apply nof_bind; [apply nof_summary|]. intros _.
  apply nof_bind; [intros st H; discriminate|]. intros st.
  apply nof_search_files.
Qed.

(** * The script on examples *)

Example strip_example : Py.strip "  a b
 " = "a b".
Proof. reflexivity. Qed.

Example split_example : Py.split Py.newline "ab

c" = ["ab"; ""; "c"].
Proof. reflexivity. Qed.

Example split_empty_example : Py.split Py.newline "" = [""].
Proof. reflexivity. Qed.

Example basename_example : Py.os_path_basename "/home/u/.git" = ".git".
Proof. reflexivity. Qed.

Example basename_slash_example : Py.os_path_basename "/home/u/" = "".
Proof. reflexivity. Qed.

Example join_example : Py.os_path_join "/home/u" "a.py" = "/home/u/a.py".
Proof. reflexivity. Qed.

Example endswith_example :
  Py.endswith "/x/node_modules" "/node_modules" = true.
Proof. reflexivity. Qed.

Example sorted_example :
  Py.sorted (fun p : string * Z => snd p) Z.leb true
    [("a", 1); ("b", 3); ("c", 1); ("d", 3)]
  = [("b", 3); ("d", 3); ("a", 1); ("c", 1)].
Proof. reflexivity. Qed.

(** The scenario of the specification: the registry holds the two files of
    [src], and the newer one is searched first. *)
Example scenario_registry :
  option_map file_modtimes
    (final_state (main 10 (fixture_world scenario)
                    (default_args "TODO" ["root"]) initial_state))
  = Some [("root/src/a.py", 100); ("root/src/b.py", 200)].
Proof. vm_compute. reflexivity. Qed.

Example scenario_order :
  option_map filenames_to_search
    (final_state (main 10 (fixture_world scenario)
                    (default_args "TODO" ["root"]) initial_state))
  = Some ["root/src/b.py"; "root/src/a.py"].
Proof. vm_compute. reflexivity. Qed.

Example scenario_output :
  option_map stdout
    (final_state (main 10 (fixture_world scenario)
                    (default_args "TODO" ["root"]) initial_state))
  = Some ["Searching 2 files."; "a.py some time ago (root/src/a.py)";
          "    TODO one"; ""].
Proof. vm_compute. reflexivity. Qed.

Example scenario_named_file :
  main 10 (fixture_world scenario) scenario_args initial_state
  = Returned tt scenario_final.
Proof. vm_compute. reflexivity. Qed.

Example anaconda_registers_nothing :
  option_map file_modtimes
    (final_state (add_directory 5 (fixture_world anaconda)
                    (default_args "x" []) "/opt/conda" None initial_state))
  = Some [].
Proof. vm_compute. reflexivity. Qed.

Example mixed_directory_goes_on :
  option_map (fun st => (file_modtimes st, elements (permission_errors st)))
    (final_state (add_directory 5 (fixture_world denied)
                    (default_args "x" []) "mixed" None initial_state))
  = Some ([("mixed/ok.py", 5)], ["mixed/locked"]).
Proof. vm_compute. reflexivity. Qed.

(** * Instances of the theorems *)

Lemma run_grep_raises_iff_witness :
  run_grep (fixture_world loud_failure)
    (cmdline_for (default_args "x" []) "a.py") initial_state
  = Raised (SubprocessFailed 2 "grep: a.py: Input/output error" "")
      (logged (EvGrep (cmdline_for (default_args "x" []) "a.py"))
         initial_state).
Proof.
  apply (proj1 (run_grep_raises_iff (fixture_world loud_failure)
                  (cmdline_for (default_args "x" []) "a.py") initial_state
                  2 "" "grep: a.py: Input/output error
" eq_refl)).
  split; [lia | discriminate].
Defined.

Lemma report_truncates_witness :
  shorten "a line of no more than ninety-five characters"
  = "a line of no more than ninety-five characters"
  /\ shorten "0123456789012345678901234567890123456789012345678901234567890123456789012345678901234567890123456789"
     = "01234567890123456789012345678901234567890123456789012345678901234567890123456789012345678901234..."
       .
Proof.
  pose proof (report_truncates (fixture_world scenario) "root/src/a.py"
                "TODO one" 100
                (set_modtime "root/src/a.py" 100 initial_state)
                eq_refl eq_refl)
    as (_ & Hlong & Hshort).
  split.
  - apply Hshort. simpl. lia.
  - apply Hlong. simpl. lia.
Defined.


Lemma symlinks_ignored_witness :
  classify_entry "d" (symlink_to_dir "loop" 9) ([], ∅) initial_state
  = Returned ([], ∅) initial_state.
Proof.
  apply (proj1 (symlinks_ignored "d")). reflexivity.
Defined.

Lemma anaconda_directory_skipped_witness :
  add_directory 5 (fixture_world anaconda) (default_args "x" []) "/opt/conda"
    None initial_state
  = (fold_each
       [subdir "bin" 41; regular "setup.py" 42; subdir "condabin" 43;
        subdir "conda-meta" 44; unreadable "pkgs" 45]
       ([], ∅) (classify_entry "/opt/conda") ;; ret tt)
      (entered "/opt/conda" 40 initial_state).
Proof.
  apply (anaconda_directory_skipped 4 (fixture_world anaconda)
           (default_args "x" []) "/opt/conda" None 40).
  - reflexivity.
  - reflexivity.
  - apply not_elem_of_empty.
  - reflexivity.
  - reflexivity.
  - apply List.Exists_cons_tl, List.Exists_cons_tl, List.Exists_cons_hd.
    repeat split.
  - apply List.Exists_cons_hd. repeat split.
  - apply List.Exists_cons_tl, List.Exists_cons_tl, List.Exists_cons_tl,
      List.Exists_cons_hd.
    repeat split.
Defined.

Lemma search_error_is_fatal_witness :
  search_files (fixture_world loud_failure) (default_args "x" [])
    ([] ++ "a.py" :: ["b.py"]) initial_state
  = Raised (SubprocessFailed 2 "grep: a.py: Input/output error" "")
      (logged (EvGrep (cmdline_for (default_args "x" []) "a.py"))
         initial_state)
  /\ search_files (fixture_world silent_failure) (default_args "x" [])
       ["a.py"; "b.py"] initial_state
     = search_files (fixture_world silent_failure) (default_args "x" [])
         ["b.py"]
         (logged (EvGrep (cmdline_for (default_args "x" []) "a.py"))
            initial_state).
Proof.
  split.
  - pose proof (search_error_is_fatal (fixture_world loud_failure)
                  (default_args "x" [])) as (_ & Hfatal & _).
    apply (Hfatal [] "a.py" ["b.py"] initial_state initial_state);
      reflexivity.
  - pose proof (search_error_is_fatal (fixture_world silent_failure)
                  (default_args "x" [])) as (_ & _ & _ & Hsilent).
    apply (Hsilent "a.py" ["b.py"] initial_state 2 "" ""); reflexivity.
Defined.

(** * Further properties of the script *)

(** ** Relations kept by the walk, place by place

    [add_directory] changes the state in five places: where it records the
    inode, where it calls [os.scandir], where it records a directory it may
    not read, where it looks at an entry and where it registers a file.  A
    relation kept in these five places is kept by the walk. *)

Section WalkPreserves.
Context (w : World) (args : Args).
Context (R : state -> state -> Prop) `{!PreOrder R}.

Hypothesis R_visit :
  forall d i st, R st (logged (EvVisit d i) (add_canonical i st)).
Hypothesis R_scandir : forall d i st, R st (logged (EvScandir d i) st).
Hypothesis R_denied_directory :
  forall d st, os_scandir w d = Raise PermissionError ->
               R st (add_permission_error d st).
Hypothesis R_classify :
  forall d entries e locals,
    os_scandir w d = Ok entries -> In e entries ->
    preserves R (classify_entry d e locals).
Hypothesis R_register :
  forall d entries e,
    os_scandir w d = Ok entries -> In e entries ->
    entry_is_symlink e = Ok false -> entry_is_file e = Ok true ->
    Py.endswith_any (entry_name e) required_suffixes = true ->
    preserves R (add_file w (Py.os_path_join d (entry_name e))).

Lemma walk_preserves_entries (recurse : string -> option Z -> M unit)
    (directory : string) (entries : list DirEntry) :
  os_scandir w directory = Ok entries ->
  (forall d i, preserves R (recurse d i)) ->
  preserves R (process_entries recurse w args directory entries).
Proof.
  intros Hscan Hrec st st' Hfin. unfold process_entries in Hfin.
  unfold bind at 1 in Hfin.
  assert (Hloop : preserves R
                    (fold_each entries ([], ∅) (classify_entry directory))).
  { apply preserves_fold_each; [assumption|]. intros e b He.
    now apply (R_classify directory entries). }
  specialize (Hloop st).
  destruct (fold_each entries ([], ∅) (classify_entry directory) st)
    as [[dirs files] st1|e st1|] eqn:Hfold; [| |discriminate].
  2:{ injection Hfin as <-. now apply Hloop. }
  transitivity st1; [now apply Hloop|].
  assert (Hfiles : forall name, name ∈ files ->
             exists e, In e entries /\ entry_name e = name
                       /\ entry_is_symlink e = Ok false
                       /\ entry_is_file e = Ok true).
  { refine (proj2 (fold_classify_from directory entries entries
                     [] dirs ∅ files _ _ (fun e H => H) Hfold _ _)).
    - intros n x [].
    - intros n Hn. now apply not_elem_of_empty in Hn. }
  destruct (is_anaconda args dirs).
  { injection Hfin as <-. reflexivity. }
  revert Hfin. apply preserves_bind; [assumption | |].
  - apply preserves_for_each; [assumption|]. intros file Hin.
    destruct (Py.endswith_any file required_suffixes) eqn:Hsuf;
      [|now apply preserves_ret].
    apply list_elem_of_In, elem_of_elements, Hfiles in Hin
      as (e & He & <- & Hs & Hf).
    now apply (R_register directory entries e).
  - intros _. apply preserves_for_each; [assumption|].
    intros [dirname entry] _. apply Hrec.
Qed.

Lemma walk_preserves (fuel : nat) (directory : string) (inode : option Z) :
  preserves R (add_directory fuel w args directory inode).
Proof.
  revert directory inode.
  induction fuel as [|fuel IH]; intros directory inode st st' Hfin.
  { discriminate. }
  destruct (resolve_inode w directory inode) as [i|e] eqn:Hres.
  2:{ rewrite (add_directory_raise _ _ _ _ _ _ _ Hres) in Hfin.
      injection Hfin as <-. reflexivity. }
  destruct (decide (i ∈ canonicals st)) as [Hold|Hnew].
  { rewrite (add_directory_visited _ _ _ _ _ _ _ Hres Hold) in Hfin.
    injection Hfin as <-. reflexivity. }
  rewrite (add_directory_new _ _ _ _ _ _ _ Hres Hnew) in Hfin.
  transitivity (logged (EvVisit directory i) (add_canonical i st));
    [apply R_visit|].
  destruct (skipped_by_name args directory) eqn:Hname.
  { rewrite (add_directory_body_skipped _ _ _ _ _ _ Hname) in Hfin.
    injection Hfin as <-. reflexivity. }
  rewrite (add_directory_body_enumerates _ _ _ _ _ _ Hname) in Hfin.
  fold (entered directory i st) in Hfin |- *.
  transitivity (entered directory i st); [apply R_scandir|].
  destruct (os_scandir w directory) as [entries|e] eqn:Hscan.
  - exact (walk_preserves_entries _ directory entries Hscan IH _ _ Hfin).
  - destruct e; simpl in Hfin; injection Hfin as <-; try reflexivity.
    now apply R_denied_directory.
Qed.

End WalkPreserves.

(** ** What [add_file] does, case by case *)

Lemma add_file_run (w : World) (filename : string) (st : state) :
  add_file w filename st
  = match os_path_getmtime w filename with
    | Ok t => Returned tt (set_modtime filename t st)
    | Raise e =>
        if is_PermissionError e
        then Returned tt (add_permission_error filename st)
        else Raised e st
    end.
Proof.
  destruct (os_path_getmtime w filename) as [t|e] eqn:H.
  - now apply add_file_ok.
  - now apply add_file_raise.
Qed.

Lemma classify_entry_state (directory : string) (entry : DirEntry)
    (locals : Py.dict DirEntry * gset string) (st st' : state) :
  final_state (classify_entry directory entry locals st) = Some st' ->
  st' = st
  \/ (classification_raises entry = Some PermissionError
      /\ st' = add_permission_error
                 (Py.os_path_join directory (entry_name entry)) st).
Proof.
  destruct locals as [dirs files]. rewrite classify_entry_run.
  destruct (classification_raises entry) as [e|].
  - destruct e; simpl; intros H; injection H as <-; auto.
  - simpl. intros H. injection H as <-. auto.
Qed.

(** ** The walk is silent *)

#[global] Instance silent_preorder : PreOrder silent.
Proof.
  split.
  - intros st. repeat split.
  - intros a b c (H1 & H2 & H3) (K1 & K2 & K3). unfold silent.
    rewrite K1, K2, K3. auto.
Qed.

Lemma silent_set_modtime f t st : silent st (set_modtime f t st).
Proof. repeat split. Qed.

Lemma silent_add_permission_error p st :
  silent st (add_permission_error p st).
Proof. repeat split. Qed.

Lemma silent_add_file w filename : preserves silent (add_file w filename).
Proof.
  apply preserves_add_file; [typeclasses eauto | |].
  - apply silent_set_modtime.
  - apply silent_add_permission_error.
Qed.

Lemma silent_add_directory fuel w args directory inode :
  preserves silent (add_directory fuel w args directory inode).
Proof.
  apply walk_preserves; try typeclasses eauto.
  - intros d i st. repeat split.
  - intros d i st. repeat split.
  - intros d st _. apply silent_add_permission_error.
  - intros d entries e locals _ _.
    apply preserves_classify_entry; [typeclasses eauto|].
    apply silent_add_permission_error.
  - intros d entries e _ _ _ _ _. apply silent_add_file.
Qed.

Lemma silent_add_root fuel w args p :
  preserves silent (add_root fuel w args p).
Proof.
  unfold add_root. destruct (os_path_isfile w p); [apply silent_add_file|].
  destruct (os_path_isdir w p); [apply silent_add_directory|].
  apply preserves_raise. typeclasses eauto.
Qed.

(** X1: the walk prints nothing and runs no [grep]: whatever
    [add_directory] does and however it ends, standard output, standard
    error and the list of [grep] calls are what they were. *)
Theorem walk_is_silent (fuel : nat) (w : World) (args : Args)
    (directory : string) (inode : option Z) (st st' : state) :
  final_state (add_directory fuel w args directory inode st) = Some st' ->
  stdout st' = stdout st
  /\ stderr st' = stderr st
  /\ grep_calls (trace st') = grep_calls (trace st).
Proof. apply silent_add_directory. Qed.

(** ** Suffixes of joined paths *)

Lemma string_app_assoc (a b c : string) :
  (a +:+ b) +:+ c = a +:+ (b +:+ c).
Proof.
  induction a as [|x a IH]; [reflexivity|].
  change (String x ((a +:+ b) +:+ c) = String x (a +:+ (b +:+ c))).
  now rewrite IH.
Qed.

Lemma substring_split (k : nat) (s : string) :
  (k <= String.length s)%nat ->
  s = substring 0 k s +:+ substring k (String.length s - k) s.
Proof.
  revert k. induction s as [|c s IH]; intros [|k] H; simpl in *; try lia.
  - reflexivity.
  - now rewrite substring_0_length.
  - change (String c s
            = String c (substring 0 k s
                        +:+ substring k (String.length s - k) s)).
    f_equal. apply IH. lia.
Qed.

Lemma endswith_suffix (s p : string) :
  Py.endswith s p = true <-> exists a, s = a +:+ p.
Proof.
  split.
  - unfold Py.endswith. intros H. apply andb_prop in H as [Hle Heq].
    apply Nat.leb_le in Hle. apply String.eqb_eq in Heq.
    exists (substring 0 (String.length s - String.length p) s).
    pose proof (substring_split (String.length s - String.length p) s) as Hs.
    replace (String.length s - (String.length s - String.length p))%nat
      with (String.length p) in Hs by lia.
    rewrite Heq in Hs. apply Hs. lia.
  - intros [a ->]. apply endswith_app.
Qed.

Lemma endswith_app_l (a b p : string) :
  Py.endswith b p = true -> Py.endswith (a +:+ b) p = true.
Proof.
  intros H. apply endswith_suffix in H as [c ->].
  rewrite <- string_app_assoc. apply endswith_app.
Qed.

Lemma endswith_join (d f p : string) :
  Py.endswith f p = true -> Py.endswith (Py.os_path_join d f) p = true.
Proof.
  intros H. unfold Py.os_path_join.
  destruct (Py.startswith f "/"); [exact H|].
  destruct (negb (Py.truthy d) || Py.endswith d "/").
  - now apply endswith_app_l.
  - now apply endswith_app_l, endswith_app_l.
Qed.

Lemma endswith_any_join (d f : string) (suffixes : list string) :
  Py.endswith_any f suffixes = true ->
  Py.endswith_any (Py.os_path_join d f) suffixes = true.
Proof.
  unfold Py.endswith_any. rewrite !existsb_exists.
  intros (p & Hin & Hp). exists p. split; [exact Hin|].
  now apply endswith_join.
Qed.

(** ** The phases of [main] *)

#[global] Instance only_output_preorder : PreOrder only_output.
Proof.
  split.
  - intros st. repeat split.
  - intros a b c (H1 & H2 & H3) (K1 & K2 & K3). unfold only_output.
    rewrite K1, K2, K3. auto.
Qed.

Lemma only_output_print line : preserves only_output (print line).
Proof. intros st st' H. injection H as <-. repeat split. Qed.

Lemma only_output_print_lines (lines : list string) (f : string -> string) :
  preserves only_output (for_each lines (fun line => print (f line))).
Proof.
  apply preserves_for_each; [typeclasses eauto|].
  intros; apply only_output_print.
Qed.

Lemma only_output_roots w args : preserves only_output (roots w args).
Proof.
  unfold roots. destruct (args_files_and_directories args);
    [|pres preserves_ret].
  pres preserves_bind; [apply only_output_print|]. intros _.
  destruct (negb (os_path_exists w (rc_file w))).
  - pres preserves_bind.
    { intros st st' H. injection H as <-. repeat split. }
    intros _. pres preserves_bind; [apply only_output_print|].
    intros _. pres preserves_raise.
  - pres preserves_bind; [pres preserves_lift|]. intros c.
    pres preserves_ret.
Qed.

Lemma only_output_summary args : preserves only_output (summary args).
Proof.
  unfold summary. pres preserves_bind; [pres preserves_get|].
  intros st. pres preserves_bind; [apply only_output_print|].
  intros _.
  destruct (args_show_permission_errors args
            && negb (bool_decide (permission_errors st = ∅)));
    [|pres preserves_ret].
  pres preserves_bind; [apply only_output_print|].
  intros _. pres preserves_bind; [|intros _; apply only_output_print].
  apply (only_output_print_lines _ (fun s => s)).
Qed.

Lemma only_output_run_grep w cmdline :
  preserves only_output (run_grep w cmdline).
Proof.
  intros st st' H. apply run_grep_logs in H. subst st'. repeat split.
Qed.

Lemma only_output_report w filename out :
  preserves only_output (report w filename out).
Proof.
  unfold report. destruct out as [out|]; [|pres preserves_ret].
  destruct (Py.truthy out); [|pres preserves_ret].
  pres preserves_bind; [pres preserves_get|].
  intros st. pres preserves_bind; [pres preserves_lift|].
  intros t. pres preserves_bind; [apply only_output_print|].
  intros _. pres preserves_bind; [|intros _; apply only_output_print].
  apply (only_output_print_lines _ (fun line => "    " +:+ shorten line)).
Qed.

Lemma only_output_search_files w args filenames :
  preserves only_output (search_files w args filenames).
Proof.
  unfold search_files. pres preserves_for_each.
  intros f _. pres preserves_bind.
  - apply only_output_run_grep.
  - intros out. apply only_output_report.
Qed.

(** [main] reads the roots, walks them, and prints and searches; only the
    walk touches the three collections. *)
Lemma main_phases (fuel : nat) (w : World) (args : Args) (st st' : state) :
  final_state (main fuel w args st) = Some st' ->
  exists st0 st1,
    only_output st st0
    /\ only_output st1 st'
    /\ (st1 = st0
        \/ exists l,
             roots w args st = Returned l st0
             /\ final_state (for_each l (add_root fuel w args) st0)
                = Some st1).
Proof.
  unfold main, bind. intros Hfin.
  destruct (roots w args st) as [l st0|e st0|] eqn:Hroots;
    [| |discriminate].
  2:{ injection Hfin as <-. exists st0, st0.
      split; [|split; [reflexivity | now left]].
      apply (only_output_roots w args st). now rewrite Hroots. }
  assert (H0 : only_output st st0).
  { apply (only_output_roots w args st). now rewrite Hroots. }
  destruct (for_each l (add_root fuel w args) st0) as [[] st1|e st1|]
    eqn:Hwalk; [| |discriminate].
  2:{ injection Hfin as <-. exists st0, st1.
      split; [exact H0|]. split; [reflexivity|]. right. exists l.
      split; [reflexivity | now rewrite Hwalk]. }
  exists st0, st1. split; [exact H0|]. split.
  2:{ right. exists l. split; [reflexivity | now rewrite Hwalk]. }
  destruct (summary args st1) as [[] st2|e st2|] eqn:Hsum; [| |discriminate].
  2:{ injection Hfin as <-. apply (only_output_summary args st1).
      now rewrite Hsum. }
  transitivity st2.
  - apply (only_output_summary args st1). now rewrite Hsum.
  - unfold get in Hfin.
    exact (only_output_search_files w args _ _ _ Hfin).
Qed.

(** A relation on the three collections that the walk of every root keeps
    is kept by [main]. *)
Lemma main_preserves (fuel : nat) (w : World) (args : Args)
    (R : state -> state -> Prop) `{!PreOrder R} :
  (forall st st', only_output st st' -> R st st') ->
  (forall p, preserves R (add_root fuel w args p)) ->
  preserves R (main fuel w args).
Proof.
  intros Hout Hroot st st' Hfin.
  destruct (main_phases _ _ _ _ _ Hfin) as (st0 & st1 & H0 & H1 & Hwalk).
  transitivity st0; [now apply Hout|].
  transitivity st1; [|now apply Hout].
  destruct Hwalk as [->|(l & _ & Hwalk)]; [reflexivity|].
  revert Hwalk. apply preserves_for_each; [assumption|].
  intros p _. apply Hroot.
Qed.

(** ** What gets registered *)

#[global] Instance registers_named_or_listed_preorder (w : World)
    (named : list string) :
  PreOrder (registers_named_or_listed w named).
Proof.
  split.
  - intros st k Hk. now left.
  - intros a b c Hab Hbc k Hk.
    destruct (Hbc k Hk) as [Hb|Hrest]; [|now right].
    now apply Hab.
Qed.

Lemma registers_unchanged (w : World) (named : list string)
    (st st' : state) :
  file_modtimes st' = file_modtimes st ->
  registers_named_or_listed w named st st'.
Proof. intros H k Hk. left. now rewrite <- H. Qed.

Lemma registers_add_file (w : World) (named : list string)
    (filename : string) :
  In filename named \/ listed_source w filename ->
  preserves (registers_named_or_listed w named) (add_file w filename).
Proof.
  intros Hok st st' Hfin. rewrite add_file_run in Hfin.
  destruct (os_path_getmtime w filename) as [t|e].
  - injection Hfin as <-. intros k Hk. simpl in Hk.
    rewrite dict_in_set in Hk. apply orb_prop in Hk as [Hk|Hk].
    + apply String.eqb_eq in Hk. subst k. now right.
    + now left.
  - destruct (is_PermissionError e); injection Hfin as <-;
      now apply registers_unchanged.
Qed.

Lemma registers_add_directory (named : list string) (fuel : nat)
    (w : World) (args : Args) (directory : string) (inode : option Z) :
  preserves (registers_named_or_listed w named)
    (add_directory fuel w args directory inode).
Proof.
  apply walk_preserves; try typeclasses eauto.
  - intros d i st. now apply registers_unchanged.
  - intros d i st. now apply registers_unchanged.
  - intros d st _. now apply registers_unchanged.
  - intros d entries e locals _ _.
    apply preserves_classify_entry; [typeclasses eauto|].
    intros p st. now apply registers_unchanged.
  - intros d entries e Hscan He Hs Hf Hsuf. apply registers_add_file.
    right. exists d, entries, e. auto 10.
Qed.

Lemma listed_source_suffix (w : World) (k : string) :
  listed_source w k -> Py.endswith_any k required_suffixes = true.
Proof.
  intros (d & entries & e & _ & _ & -> & _ & _ & Hsuf).
  now apply endswith_any_join.
Qed.

(** X2: the registry holds the files named on the command line and listed
    source files only.  A path that the walk of a directory registers is
    the path of an entry that [os.scandir] listed in a directory, that is
    no symbolic link, that is a file and whose name ends with one of the
    twelve suffixes, so the path ends with that suffix too; a path that is
    in the registry when [main] ends was there before, is one of the root
    paths, or is such a path. *)
Theorem registry_holds_named_or_listed (fuel : nat) (w : World)
    (args : Args) :
  (forall directory inode st st' k,
      final_state (add_directory fuel w args directory inode st) = Some st' ->
      Py.dict_in k (file_modtimes st') = true ->
      Py.dict_in k (file_modtimes st) = true
      \/ (listed_source w k
          /\ Py.endswith_any k required_suffixes = true))
  /\ (forall st named st0 st' k,
        roots w args st = Returned named st0 ->
        final_state (main fuel w args st) = Some st' ->
        Py.dict_in k (file_modtimes st') = true ->
        Py.dict_in k (file_modtimes st) = true
        \/ In k named
        \/ (listed_source w k
            /\ Py.endswith_any k required_suffixes = true)).
Proof.
  split.
  - intros directory inode st st' k Hfin Hk.
    destruct (registers_add_directory [] _ _ _ _ _ _ _ Hfin k Hk)
      as [H|[[]|H]]; [now left|].
    right. split; [exact H | now apply (listed_source_suffix w)].
  - intros st named st0 st' k Hroots Hfin Hk.
    destruct (main_phases _ _ _ _ _ Hfin) as (s0 & s1 & H0 & H1 & Hwalk).
    destruct H0 as (H0 & _). destruct H1 as (H1 & _).
    rewrite H1 in Hk. rewrite <- H0.
    destruct Hwalk as [->|(l & Hl & Hwalk)]; [now left|].
    rewrite Hroots in Hl. injection Hl as Hl1 Hl2. subst l s0.
    assert (Hk' : registers_named_or_listed w named st0 s1).
    { revert Hwalk.
      apply (preserves_for_each (registers_named_or_listed w named)).
      intros p Hp. unfold add_root.
      destruct (os_path_isfile w p).
      + apply registers_add_file. now left.
      + destruct (os_path_isdir w p).
        * apply registers_add_directory.
        * apply preserves_raise. typeclasses eauto. }
    destruct (Hk' k Hk) as [H|[H|H]]; auto.
    right. right. split; [exact H | now apply (listed_source_suffix w)].
Qed.

Lemma registry_holds_named_or_listed_witness :
  (Py.dict_in "root/src/a.py" (file_modtimes initial_state) = true
   \/ In "root/src/a.py" ["root"; "root/.git/config"]
   \/ (listed_source (fixture_world scenario) "root/src/a.py"
       /\ Py.endswith_any "root/src/a.py" required_suffixes = true))
  /\ (Py.dict_in "root/.git/config" (file_modtimes initial_state) = true
      \/ In "root/.git/config" ["root"; "root/.git/config"]
      \/ (listed_source (fixture_world scenario) "root/.git/config"
          /\ Py.endswith_any "root/.git/config" required_suffixes = true)).
Proof.
  pose proof (proj2 (registry_holds_named_or_listed 10
                       (fixture_world scenario) scenario_args)
                initial_state ["root"; "root/.git/config"] initial_state
                scenario_final) as H.
  split; (apply H; [reflexivity | vm_compute; reflexivity
                     | vm_compute; reflexivity]).
Defined.

(** ** What gets recorded as a permission error *)

#[global] Instance records_denied_only_preorder (w : World) :
  PreOrder (records_denied_only w).
Proof.
  split.
  - intros st p Hp. now left.
  - intros a b c Hab Hbc p Hp.
    destruct (Hbc p Hp) as [Hb|Hd]; [|now right].
    now apply Hab.
Qed.

Lemma denied_unchanged (w : World) (st st' : state) :
  permission_errors st' = permission_errors st ->
  records_denied_only w st st'.
Proof. intros H p Hp. left. now rewrite <- H. Qed.

Lemma denied_added (w : World) (p : string) (st : state) :
  access_denied w p -> records_denied_only w st (add_permission_error p st).
Proof.
  intros Hd q Hq. simpl in Hq. apply elem_of_union in Hq as [Hq|Hq].
  - apply elem_of_singleton in Hq. subst q. now right.
  - now left.
Qed.

Lemma denied_add_file (w : World) (filename : string) :
  preserves (records_denied_only w) (add_file w filename).
Proof.
  intros st st' Hfin. rewrite add_file_run in Hfin.
  destruct (os_path_getmtime w filename) as [t|e] eqn:Ht.
  - injection Hfin as <-. now apply denied_unchanged.
  - destruct e; simpl in Hfin; injection Hfin as <-;
      try now apply denied_unchanged.
    apply denied_added. right. now left.
Qed.

Lemma denied_add_directory (fuel : nat) (w : World) (args : Args)
    (directory : string) (inode : option Z) :
  preserves (records_denied_only w)
    (add_directory fuel w args directory inode).
Proof.
  apply walk_preserves; try typeclasses eauto.
  - intros d i st. now apply denied_unchanged.
  - intros d i st. now apply denied_unchanged.
  - intros d st Hd. apply denied_added. now left.
  - intros d entries e locals Hscan He st st' Hfin.
    apply classify_entry_state in Hfin as [->|[Hraise ->]]; [reflexivity|].
    apply denied_added. right. right. exists d, entries, e. auto.
  - intros d entries e _ _ _ _ _. apply denied_add_file.
Qed.

(** X3: a path is recorded as a permission error only when access was
    denied: every path that is in [permission_errors] when [main] ends was
    there before or is a path for which [os.scandir], [os.path.getmtime] or
    a test on its directory entry answered [PermissionError]. *)
Theorem permission_errors_are_denials (fuel : nat) (w : World) (args : Args)
    (st st' : state) (p : string) :
  final_state (main fuel w args st) = Some st' ->
  p ∈ permission_errors st' ->
  p ∈ permission_errors st \/ access_denied w p.
Proof.
  intros Hfin. revert p.
  refine (main_preserves fuel w args (records_denied_only w) _ _ st st' Hfin).
  - intros a b (_ & _ & H). now apply denied_unchanged.
  - intros q. unfold add_root. destruct (os_path_isfile w q).
    + apply denied_add_file.
    + destruct (os_path_isdir w q).
      * apply denied_add_directory.
      * apply preserves_raise. typeclasses eauto.
Qed.

Lemma permission_errors_are_denials_witness :
  ("mixed/locked" ∈ permission_errors initial_state
   \/ access_denied (fixture_world denied) "mixed/locked")
  /\ ("top" ∈ permission_errors initial_state
      \/ access_denied (fixture_world denied) "top").
Proof.
  split.
  - apply (permission_errors_are_denials 10 (fixture_world denied)
             denied_args initial_state denied_final).
    + vm_compute. reflexivity.
    + vm_compute. reflexivity.
  - apply (permission_errors_are_denials 10 (fixture_world denied)
             denied_args initial_state denied_final).
    + vm_compute. reflexivity.
    + vm_compute. reflexivity.
Defined.

(** ** The times in the registry *)

#[global] Instance keeps_registry_times_preorder (w : World) :
  PreOrder (keeps_registry_times w).
Proof.
  split; unfold keeps_registry_times; [intros st; tauto|intros a b c; tauto].
Qed.

Lemma registry_times_unchanged (w : World) (st st' : state) :
  file_modtimes st' = file_modtimes st -> keeps_registry_times w st st'.
Proof. intros H Hst k t. rewrite H. apply Hst. Qed.

Lemma registry_times_add_file (w : World) (filename : string) :
  preserves (keeps_registry_times w) (add_file w filename).
Proof.
  intros st st' Hfin. rewrite add_file_run in Hfin.
  destruct (os_path_getmtime w filename) as [t|e] eqn:Ht.
  - injection Hfin as <-. intros Hst k v. simpl. rewrite dict_get_set.
    destruct (String.eqb_spec filename k) as [<-|Hne].
    + intros H. injection H as <-. exact Ht.
    + apply Hst.
  - destruct (is_PermissionError e); injection Hfin as <-;
      now apply registry_times_unchanged.
Qed.

Lemma registry_times_add_directory (fuel : nat) (w : World) (args : Args)
    (directory : string) (inode : option Z) :
  preserves (keeps_registry_times w)
    (add_directory fuel w args directory inode).
Proof.
  apply walk_preserves; try typeclasses eauto.
  - intros d i st. now apply registry_times_unchanged.
  - intros d i st. now apply registry_times_unchanged.
  - intros d st _. now apply registry_times_unchanged.
  - intros d entries e locals _ _.
    apply preserves_classify_entry; [typeclasses eauto|].
    intros p st. now apply registry_times_unchanged.
  - intros d entries e _ _ _ _ _. apply registry_times_add_file.
Qed.

(** X4: a lookup in the registry gives what was put in: the time the
    registry holds for a path is the answer of [os.path.getmtime] for that
    path, at every moment of the run, and so the key by which the paths are
    sorted is the modification time of the file. *)
Theorem registry_times_are_mtimes (fuel : nat) (w : World) (args : Args)
    (st st' : state) :
  registry_times_current w st ->
  final_state (main fuel w args st) = Some st' ->
  forall filename t,
    Py.dict_get (file_modtimes st') filename = Some t ->
    os_path_getmtime w filename = Ok t.
Proof.
  intros Hst Hfin.
  refine (main_preserves fuel w args (keeps_registry_times w) _ _
            st st' Hfin Hst).
  - intros a b (H & _). now apply registry_times_unchanged.
  - intros q. unfold add_root. destruct (os_path_isfile w q).
    + apply registry_times_add_file.
    + destruct (os_path_isdir w q).
      * apply registry_times_add_directory.
      * apply preserves_raise. typeclasses eauto.
Qed.

Lemma registry_times_are_mtimes_witness :
  os_path_getmtime (fixture_world scenario) "root/src/b.py" = Ok 200.
Proof.
  apply (registry_times_are_mtimes 10 (fixture_world scenario) scenario_args
           initial_state scenario_final).
  - intros k t H. discriminate.
  - vm_compute. reflexivity.
  - vm_compute. reflexivity.
Defined.

(** ** The collections only grow, in the whole run *)

Lemma grows_roots w args : preserves grows (roots w args).
Proof.
  unfold roots. destruct (args_files_and_directories args);
    [|pres preserves_ret].
  pres preserves_bind; [apply grows_print|]. intros _.
  destruct (negb (os_path_exists w (rc_file w))).
  - pres preserves_bind.
    { intros st st' H. injection H as <-.
      split; [reflexivity|]. split; [reflexivity|].
      split; [auto | now exists []]. }
    intros _. pres preserves_bind; [apply grows_print|].
    intros _. pres preserves_raise.
  - pres preserves_bind; [pres preserves_lift|]. intros c.
    pres preserves_ret.
Qed.

(** X5: nothing is ever taken back: from the start of [main] to its end,
    however it ends, [canonicals] and [permission_errors] only gain
    members, no path leaves the registry, and no event leaves the trace. *)
Theorem main_only_adds (fuel : nat) (w : World) (args : Args)
    (st st' : state) :
  final_state (main fuel w args st) = Some st' ->
  canonicals st ⊆ canonicals st'
  /\ permission_errors st ⊆ permission_errors st'
  /\ (forall k, Py.dict_in k (file_modtimes st) = true ->
                Py.dict_in k (file_modtimes st') = true)
  /\ exists l, trace st' = l ++ trace st.
Proof.
  intros Hfin. change (grows st st').
  assert (Hp : preserves grows (main fuel w args)).
  { unfold main. pres preserves_bind; [apply grows_roots|]. intros l.
    pres preserves_bind.
    { pres preserves_for_each. intros p _. apply grows_add_root. }
    intros _. pres preserves_bind; [apply grows_summary|]. intros _.
    pres preserves_bind; [pres preserves_get|]. intros s.
    apply grows_search_files. }
  exact (Hp st st' Hfin).
Qed.

Lemma main_only_adds_witness :
  canonicals initial_state ⊆ canonicals scenario_final
  /\ permission_errors initial_state ⊆ permission_errors scenario_final
  /\ (forall k, Py.dict_in k (file_modtimes initial_state) = true ->
                Py.dict_in k (file_modtimes scenario_final) = true)
  /\ exists l, trace scenario_final = l ++ trace initial_state.
Proof.
  apply (main_only_adds 10 (fixture_world scenario) scenario_args).
  vm_compute. reflexivity.
Defined.

(** ** The calls of [grep] *)

#[global] Instance same_trace_preorder : PreOrder same_trace.
Proof.
  split.
  - intros a. unfold same_trace. exact eq_refl.
  - intros a b c Hab Hbc. unfold same_trace in *. congruence.
Qed.

Lemma same_trace_print line : preserves same_trace (print line).
Proof. intros st st' H. injection H as <-. reflexivity. Qed.

Lemma same_trace_print_lines (lines : list string) (f : string -> string) :
  preserves same_trace (for_each lines (fun line => print (f line))).
Proof.
  apply preserves_for_each; [typeclasses eauto|].
  intros; apply same_trace_print.
Qed.

Lemma same_trace_roots w args : preserves same_trace (roots w args).
Proof.
  unfold roots. destruct (args_files_and_directories args);
    [|pres preserves_ret].
  pres preserves_bind; [apply same_trace_print|]. intros _.
  destruct (negb (os_path_exists w (rc_file w))).
  - pres preserves_bind.
    { intros st st' H. injection H as <-. reflexivity. }
    intros _. pres preserves_bind; [apply same_trace_print|].
    intros _. pres preserves_raise.
  - pres preserves_bind; [pres preserves_lift|]. intros c.
    pres preserves_ret.
Qed.

Lemma same_trace_summary args : preserves same_trace (summary args).
Proof.
  unfold summary. pres preserves_bind; [pres preserves_get|].
  intros st. pres preserves_bind; [apply same_trace_print|].
  intros _.
  destruct (args_show_permission_errors args
            && negb (bool_decide (permission_errors st = ∅)));
    [|pres preserves_ret].
  pres preserves_bind; [apply same_trace_print|].
  intros _. pres preserves_bind; [|intros _; apply same_trace_print].
  apply (same_trace_print_lines _ (fun s => s)).
Qed.

Lemma same_trace_report w filename out :
  preserves same_trace (report w filename out).
Proof.
  unfold report. destruct out as [out|]; [|pres preserves_ret].
  destruct (Py.truthy out); [|pres preserves_ret].
  pres preserves_bind; [pres preserves_get|].
  intros st. pres preserves_bind; [pres preserves_lift|].
  intros t. pres preserves_bind; [apply same_trace_print|].
  intros _. pres preserves_bind; [|intros _; apply same_trace_print].
  apply (same_trace_print_lines _ (fun line => "    " +:+ shorten line)).
Qed.

Lemma search_files_grep_calls (w : World) (args : Args)
    (filenames : list string) (st st' : state) :
  search_files w args filenames st = Returned tt st' ->
  grep_calls (trace st')
  = rev (map (cmdline_for args) filenames) ++ grep_calls (trace st).
Proof.
  revert st. induction filenames as [|f l IH]; intros st Hrun.
  - injection Hrun as <-. reflexivity.
  - rewrite search_files_cons in Hrun.
    destruct (run_grep w (cmdline_for args f) st) as [out st1| |] eqn:Hgrep;
      try discriminate.
    destruct (report w f out st1) as [[] st2| |] eqn:Hrep; try discriminate.
    rewrite (IH _ Hrun). simpl. rewrite <- app_assoc. f_equal.
    assert (H2 : trace st2 = trace st1).
    { apply (same_trace_report w f out st1). now rewrite Hrep. }
    assert (H1 : st1 = logged (EvGrep (cmdline_for args f)) st).
    { apply (run_grep_logs w). now rewrite Hgrep. }
    rewrite H2, H1. reflexivity.
Qed.

Lemma dict_set_keys {V} (d : Py.dict V) (k : string) (v : V) :
  Py.dict_keys (Py.dict_set d k v)
  = if Py.dict_in k d then Py.dict_keys d else Py.dict_keys d ++ [k].
Proof.
  unfold Py.dict_in, Py.dict_keys.
  induction d as [|[k' v'] d IH]; simpl.
  - reflexivity.
  - destruct (String.eqb_spec k' k) as [->|Hne]; simpl.
    + reflexivity.
    + rewrite IH. destruct (Py.dict_get d k); reflexivity.
Qed.

Lemma dict_set_keys_NoDup {V} (d : Py.dict V) (k : string) (v : V) :
  List.NoDup (Py.dict_keys d) -> List.NoDup (Py.dict_keys (Py.dict_set d k v)).
Proof.
  intros H. rewrite dict_set_keys.
  destruct (Py.dict_in k d) eqn:Hin; [exact H|].
  apply NoDup_ListNoDup, NoDup_app. split; [now apply NoDup_ListNoDup|].
  split; [|apply NoDup_singleton].
  intros x Hx Hk. apply list_elem_of_singleton in Hk. subst x.
  apply list_elem_of_In, dict_in_keys in Hx. congruence.
Qed.

#[global] Instance keeps_distinct_keys_preorder : PreOrder keeps_distinct_keys.
Proof.
  split; unfold keeps_distinct_keys; [intros st; tauto|intros a b c; tauto].
Qed.

Lemma distinct_keys_unchanged (st st' : state) :
  file_modtimes st' = file_modtimes st -> keeps_distinct_keys st st'.
Proof. intros H Hst. now rewrite H. Qed.

Lemma distinct_keys_add_file (w : World) (filename : string) :
  preserves keeps_distinct_keys (add_file w filename).
Proof.
  apply preserves_add_file; [typeclasses eauto | |].
  - intros f t st H. simpl. now apply dict_set_keys_NoDup.
  - intros p st. now apply distinct_keys_unchanged.
Qed.

Lemma distinct_keys_add_root (fuel : nat) (w : World) (args : Args)
    (p : string) :
  preserves keeps_distinct_keys (add_root fuel w args p).
Proof.
  unfold add_root. destruct (os_path_isfile w p).
  { apply distinct_keys_add_file. }
  destruct (os_path_isdir w p); [|pres preserves_raise].
  apply walk_preserves; try typeclasses eauto.
  - intros d i st. now apply distinct_keys_unchanged.
  - intros d i st. now apply distinct_keys_unchanged.
  - intros d st _. now apply distinct_keys_unchanged.
  - intros d entries e locals _ _.
    apply preserves_classify_entry; [typeclasses eauto|].
    intros q st. now apply distinct_keys_unchanged.
  - intros d entries e _ _ _ _ _. apply distinct_keys_add_file.
Qed.

(** ** The events of the search *)

Lemma grep_calls_app (a b : list event) :
  grep_calls (a ++ b) = grep_calls a ++ grep_calls b.
Proof.
  induction a as [|ev a IH]; [reflexivity|].
  destruct ev; simpl; now rewrite IH.
Qed.

(** the events of a search that returns: one [EvGrep] for each file, the
    last file first *)
Lemma search_files_trace (w : World) (args : Args)
    (filenames : list string) (st st' : state) :
  search_files w args filenames st = Returned tt st' ->
  trace st'
  = rev (map (fun f => EvGrep (cmdline_for args f)) filenames) ++ trace st.
Proof.
  revert st. induction filenames as [|f l IH]; intros st Hrun.
  - injection Hrun as <-. reflexivity.
  - rewrite search_files_cons in Hrun.
    destruct (run_grep w (cmdline_for args f) st) as [out st1| |] eqn:Hgrep;
      try discriminate.
    destruct (report w f out st1) as [[] st2| |] eqn:Hrep; try discriminate.
    rewrite (IH _ Hrun). simpl. rewrite <- app_assoc. f_equal.
    assert (H2 : trace st2 = trace st1).
    { apply (same_trace_report w f out st1). now rewrite Hrep. }
    assert (H1 : st1 = logged (EvGrep (cmdline_for args f)) st).
    { apply (run_grep_logs w). now rewrite Hgrep. }
    rewrite H2, H1. reflexivity.
Qed.

(** the events of a walk of the roots: none is a call of [grep] *)
Lemma walk_events (fuel : nat) (w : World) (args : Args)
    (l : list string) (st st' : state) :
  final_state (for_each l (add_root fuel w args) st) = Some st' ->
  exists walk, trace st' = walk ++ trace st /\ grep_calls walk = [].
Proof.
  intros Hfin.
  assert (Hg : grows st st').
  { revert Hfin. pres preserves_for_each. intros p _. apply grows_add_root. }
  assert (Hs : silent st st').
  { revert Hfin. pres preserves_for_each. intros p _. apply silent_add_root. }
  destruct Hg as (_ & _ & _ & walk & Hwalk). exists walk.
  split; [exact Hwalk|].
  destruct Hs as (_ & _ & Hcalls).
  rewrite Hwalk, grep_calls_app in Hcalls.
  apply (app_inv_tail (grep_calls (trace st))). exact Hcalls.
Qed.

(** X6: when [main] returns, the trace is made of the events it began
    with, then the events of the walk, none of which is a call of [grep],
    then one call of [grep] for each path of the search order and nothing
    else.  The call for a path is [grep -m max_lines], [-i] when asked,
    the regular expression and that one path.  The paths searched are
    those of the registry, each once. *)
Theorem grep_runs_once_per_file (fuel : nat) (w : World) (args : Args)
    (st st' : state) :
  List.NoDup (Py.dict_keys (file_modtimes st)) ->
  main fuel w args st = Returned tt st' ->
  exists walk,
    trace st'
    = rev (map (fun f => EvGrep (["grep"; "-m"; args_max_lines args]
                                  ++ (if args_i args then ["-i"] else [])
                                  ++ [args_regex args; f]))
             (filenames_to_search st'))
      ++ walk ++ trace st
    /\ grep_calls walk = []
    /\ List.NoDup (filenames_to_search st')
    /\ Permutation (filenames_to_search st')
         (Py.dict_keys (file_modtimes st')).
Proof.
  intros Hnd Hmain.
  assert (Hkeys : List.NoDup (Py.dict_keys (file_modtimes st'))).
  { assert (Hfin : final_state (main fuel w args st) = Some st')
      by now rewrite Hmain.
    refine (main_preserves fuel w args keeps_distinct_keys _ _
              st st' Hfin Hnd).
    - intros a b (H & _). now apply distinct_keys_unchanged.
    - intros p. apply distinct_keys_add_root. }
  assert (Hperm : Permutation (filenames_to_search st')
                    (Py.dict_keys (file_modtimes st'))).
  { apply sorted_reverse_perm. }
  unfold main, bind in Hmain.
  destruct (roots w args st) as [l st0| |] eqn:Hroots; try discriminate.
  destruct (for_each l (add_root fuel w args) st0) as [[] st1| |] eqn:Hwalk;
    try discriminate.
  destruct (summary args st1) as [[] st2| |] eqn:Hsum; try discriminate.
  unfold get in Hmain.
  assert (H0 : trace st0 = trace st).
  { apply (same_trace_roots w args st). now rewrite Hroots. }
  destruct (walk_events fuel w args l st0 st1) as (walk & H1 & Hnone).
  { now rewrite Hwalk. }
  assert (H2 : trace st2 = trace st1).
  { apply (same_trace_summary args st1). now rewrite Hsum. }
  assert (H3 : file_modtimes st' = file_modtimes st2).
  { eapply preserves_Returned in Hmain; [|apply only_output_search_files].
    apply Hmain. }
  exists walk. split; [|split; [exact Hnone|split; [|exact Hperm]]].
  - rewrite (search_files_trace _ _ _ _ _ Hmain), H2, H1, H0.
    unfold filenames_to_search. rewrite H3. reflexivity.
  - eapply Permutation_NoDup; [symmetry; exact Hperm | exact Hkeys].
Qed.

Lemma grep_runs_once_per_file_witness :
  exists walk,
    trace scenario_final
    = rev (map (fun f => EvGrep (["grep"; "-m"; "5"] ++ [] ++ ["TODO"; f]))
             (filenames_to_search scenario_final))
      ++ walk ++ trace initial_state
    /\ grep_calls walk = []
    /\ List.NoDup (filenames_to_search scenario_final)
    /\ Permutation (filenames_to_search scenario_final)
         (Py.dict_keys (file_modtimes scenario_final)).
Proof.
  apply (grep_runs_once_per_file 10 (fixture_world scenario) scenario_args
           initial_state).
  - constructor.
  - vm_compute. reflexivity.
Defined.

(** X7: a root path that is neither a file nor a directory ends the run
    before anything is searched, wherever it stands among the roots: [main]
    does not return, and in the state it ends in no [grep] has been run and
    nothing has been printed since the roots were read. *)
Theorem missing_root_is_fatal (fuel : nat) (w : World) (args : Args)
    (st st0 : state) (files_and_directories : list string) (p : string) :
  roots w args st = Returned files_and_directories st0 ->
  In p files_and_directories ->
  os_path_isfile w p = false ->
  os_path_isdir w p = false ->
  (forall st', main fuel w args st <> Returned tt st')
  /\ (forall st', final_state (main fuel w args st) = Some st' ->
        grep_calls (trace st') = grep_calls (trace st)
        /\ stdout st' = stdout st0).
Proof.
  intros Hroots Hin Hfile Hdir.
  assert (Hwalk : forall st1,
             for_each files_and_directories (add_root fuel w args) st0
             <> Returned tt st1).
  { intros st1 Hrun.
    destruct (for_each_reaches grows _ (add_root fuel w args) p _ _
                (grows_add_root fuel w args) Hrun Hin)
      as (sta & stb & Hbody & _).
    unfold add_root in Hbody. rewrite Hfile, Hdir in Hbody. discriminate. }
  unfold main, bind. rewrite Hroots.
  destruct (for_each files_and_directories (add_root fuel w args) st0)
    as [[] st1|e st1|] eqn:Hrun.
  - now destruct (Hwalk st1).
  - split; [discriminate|]. intros st' H. injection H as <-.
    assert (Hs : silent st0 st1).
    { apply (preserves_for_each silent files_and_directories
               (add_root fuel w args)
               (fun q _ => silent_add_root fuel w args q) st0).
      now rewrite Hrun. }
    destruct Hs as (Hout & _ & Hgrep). split; [|exact Hout].
    rewrite Hgrep. f_equal.
    apply (same_trace_roots w args st). now rewrite Hroots.
  - split; discriminate.
Qed.

Lemma missing_root_is_fatal_witness :
  grep_calls (trace two_devices_after_a) = grep_calls (trace initial_state)
  /\ stdout two_devices_after_a = stdout initial_state.
Proof.
  apply (proj2 (missing_root_is_fatal 5 (fixture_world two_devices)
                  (default_args "x" ["/mnt/a"; "nowhere"])
                  initial_state initial_state ["/mnt/a"; "nowhere"] "nowhere"
                  eq_refl (or_intror (or_introl eq_refl)) eq_refl eq_refl)).
  vm_compute. reflexivity.
Defined.

(** X8: the defaults file.  With no path on the command line, a missing
    defaults file ends the run with exit status 1 after the error message
    and the help text, and nothing is walked; a defaults file that holds
    only blank space gives the single root path [""], and the run ends with
    the error that it cannot be found. *)
Theorem defaults_file_edge_cases (fuel : nat) (w : World) (args : Args)
    (st : state) :
  args_files_and_directories args = [] ->
  let announced :=
    printed ("No files or directories specified;  reading from "
             +:+ rc_file w) st in
  (os_path_exists w (rc_file w) = false ->
   main fuel w args st
   = Raised (SystemExit 1)
       (printed (parser_help w)
          (printed_stderr
             ("Error: you must provide files or directories on commandline, or defaults in "
              +:+ rc_file w) announced)))
  /\ (forall content,
        os_path_exists w (rc_file w) = true ->
        open_read w (rc_file w) = Ok content ->
        Py.strip content = "" ->
        os_path_isfile w "" = false ->
        os_path_isdir w "" = false ->
        main fuel w args st = Raised (CannotFind "") announced).
Proof.
  intros Hnone announced. split.
  - intros Hex.
    assert (Hroots : roots w args st
                     = Raised (SystemExit 1)
                         (printed (parser_help w)
                            (printed_stderr
                               ("Error: you must provide files or directories on commandline, or defaults in "
                                +:+ rc_file w) announced))).
    { unfold roots. rewrite Hnone. unfold bind at 1. unfold print at 1.
      fold announced. rewrite Hex. reflexivity. }
    unfold main. now rewrite (bind_Raised _ _ _ _ _ Hroots).
  - intros content Hex Hread Hblank Hfile Hdir.
    assert (Hroots : roots w args st = Returned [""] announced).
    { unfold roots. rewrite Hnone. unfold bind at 1. unfold print at 1.
      fold announced. rewrite Hex. cbn [negb]. unfold bind.
      rewrite Hread. unfold lift, ret. rewrite Hblank. reflexivity. }
    unfold main. rewrite (bind_Returned _ _ _ _ _ Hroots).
    assert (Hwalk : for_each [""] (add_root fuel w args) announced
                    = Raised (CannotFind "") announced).
    { cbn [for_each]. unfold bind at 1. unfold add_root.
      rewrite Hfile, Hdir. reflexivity. }
    now rewrite (bind_Raised _ _ _ _ _ Hwalk).
Qed.

Lemma defaults_file_edge_cases_witness :
  main 3 blank_defaults (default_args "x" []) initial_state
  = Raised (CannotFind "")
      (printed
         ("No files or directories specified;  reading from "
          +:+ rc_file blank_defaults) initial_state).
Proof.
  apply (proj2 (defaults_file_edge_cases 3 blank_defaults
                  (default_args "x" []) initial_state eq_refl) "
  
"); reflexivity.
Defined.

(** ** What the search prints *)

Lemma report_run (w : World) (filename : string) (out : string)
    (st : state) :
  exists st',
    report w filename (Some out) st
    = (if Py.truthy out
       then match Py.dict_get (file_modtimes st) filename with
            | Some _ => Returned tt st'
            | None => Raised (KeyError filename) st
            end
       else Returned tt st)
    /\ (Py.truthy out = true ->
        Py.dict_get (file_modtimes st) filename <> None ->
        stdout st'
        = stdout st ++ report_lines w (file_modtimes st) filename out
        /\ file_modtimes st' = file_modtimes st).
Proof.
  unfold report, report_lines.
  destruct (Py.truthy out); [|exists st; split; [reflexivity | discriminate]].
  unfold bind at 1. unfold get.
  destruct (Py.dict_get (file_modtimes st) filename) as [t|].
  2:{ exists st. split; [reflexivity|]. intros _ H. now destruct H. }
  unfold bind at 1. unfold lift, ret.
  unfold bind at 1. unfold print at 1. unfold bind at 1.
  match goal with |- context [for_each ?l (fun line => print (@?f line)) ?s] =>
    destruct (for_each_print l f s) as (st1 & Hrun & Hout1 & Hreg & _) end.
  rewrite Hrun. unfold print. eexists. split; [reflexivity|].
  intros _ _. simpl. rewrite Hout1, Hreg. simpl.
  split; [|reflexivity]. rewrite <- !app_assoc. reflexivity.
Qed.

Lemma shorten_length (line : string) :
  (String.length (shorten line) <= 98)%nat.
Proof.
  unfold shorten. destruct (Nat.ltb_spec 95 (String.length line)) as [H|H].
  - rewrite string_length_app, slice_to_length by lia. simpl. lia.
  - lia.
Qed.

(** X9: what the search prints is, file after file in the order of the
    search, the block of each file: nothing for a file whose [grep] result
    is empty, and otherwise a header, the lines of the result and an empty
    line.  No line of a result is printed longer than 102 characters. *)
Theorem search_prints_blocks_in_order (w : World) (args : Args)
    (filenames : list string) (st st' : state) :
  search_files w args filenames st = Returned tt st' ->
  stdout st'
  = stdout st
    ++ concat (map (fun f => report_lines w (file_modtimes st) f
                               (grep_output w args f)) filenames)
  /\ forall line,
       (String.length ("    " +:+ shorten line) <= 102)%nat.
Proof.
  intros Hrun. split.
  2:{ intros line. rewrite string_length_app. simpl.
      pose proof (shorten_length line). lia. }
  revert st Hrun. induction filenames as [|f l IH]; intros st Hrun.
  - injection Hrun as <-. simpl. now rewrite app_nil_r.
  - rewrite search_files_cons, run_grep_run in Hrun.
    unfold grep_output at 1. simpl.
    destruct (Popen w (cmdline_for args f)) as [[[r o] e]|e];
      [|discriminate].
    destruct ((r =? 0) || negb (Py.truthy (Py.strip e))); [|discriminate].
    set (st1 := logged (EvGrep (cmdline_for args f)) st) in *.
    destruct (report_run w f (Py.strip o) st1) as (st2 & Hrep & Hout).
    rewrite Hrep in Hrun.
    change (file_modtimes st) with (file_modtimes st1).
    destruct (Py.truthy (Py.strip o)) eqn:Ht.
    + destruct (Py.dict_get (file_modtimes st1) f) as [t|] eqn:Hget;
        [|discriminate].
      destruct (Hout eq_refl) as [Hout2 Hreg2]; [congruence|].
      rewrite (IH _ Hrun), Hout2, Hreg2, <- app_assoc. reflexivity.
    + rewrite (IH _ Hrun). unfold report_lines at 2. rewrite Ht.
      reflexivity.
Qed.

Lemma search_prints_blocks_in_order_witness :
  stdout scenario_final
  = ["Searching 3 files."]
    ++ concat (map (fun f =>
                      report_lines (fixture_world scenario)
                        (file_modtimes scenario_final) f
                        (grep_output (fixture_world scenario) scenario_args f))
                 (filenames_to_search scenario_final)).
Proof.
  assert (Hrun : search_files (fixture_world scenario) scenario_args
                    (filenames_to_search scenario_final)
                    (printed "Searching 3 files."
                       (match for_each ["root"; "root/.git/config"]
                                (add_root 10 (fixture_world scenario)
                                   scenario_args) initial_state with
                        | Returned _ s => s
                        | _ => initial_state
                        end))
                  = Returned tt scenario_final).
  { vm_compute. reflexivity. }
  pose proof (proj1 (search_prints_blocks_in_order _ _ _ _ _ Hrun)) as H.
  vm_compute in H. vm_compute. exact H.
Defined.

Lemma walk_is_silent_witness :
  stdout two_devices_after_a = stdout initial_state
  /\ stderr two_devices_after_a = stderr initial_state
  /\ grep_calls (trace two_devices_after_a)
     = grep_calls (trace initial_state).
Proof.
  apply (walk_is_silent 2 (fixture_world two_devices) (default_args "x" [])
           "/mnt/a" None).
  vm_compute. reflexivity.
Defined.

(** ** Which directories are skipped for their name *)

Lemma string_app_cons (acc : string) (c : ascii) (r : string) :
  (acc +:+ String c EmptyString) +:+ r = acc +:+ String c r.
Proof. now rewrite string_app_assoc. Qed.

Lemma basename_from_no_slash (acc s : string) :
  has_slash s = false -> Py.basename_from acc s = acc +:+ s.
Proof.
  revert acc. induction s as [|c s IH]; intros acc H; simpl in *.
  - clear H. induction acc as [|x acc IHa]; [reflexivity|].
    change (String x acc = String x (acc +:+ "")). now rewrite <- IHa.
  - apply orb_false_elim in H as [Hc Hs]. rewrite Hc.
    rewrite (IH _ Hs). apply string_app_cons.
Qed.

Lemma basename_from_after_slash (acc a r : string) :
  has_slash r = false ->
  Py.basename_from acc (a +:+ String Py.slash r) = r.
Proof.
  intros Hr. revert acc. induction a as [|c a IH]; intros acc.
  - change (Py.basename_from acc (String Py.slash r) = r). simpl.
    now rewrite (basename_from_no_slash "" r Hr).
  - change (Py.basename_from acc (String c (a +:+ String Py.slash r)) = r).
    simpl. destruct (Ascii.eqb c Py.slash); apply IH.
Qed.

Lemma has_slash_app (a r : string) :
  has_slash (a +:+ String Py.slash r) = true.
Proof.
  induction a as [|c a IH]; [reflexivity|].
  change (has_slash (String c (a +:+ String Py.slash r)) = true). simpl.
  rewrite IH. apply orb_true_r.
Qed.

(** a joined path: the name behind a slash, or the name alone when the
    directory is the empty path *)
Lemma join_shape (d name : string) :
  has_slash name = false ->
  (d = "" /\ Py.os_path_join d name = name)
  \/ (d <> "" /\ exists a, Py.os_path_join d name = a +:+ String Py.slash name).
Proof.
  intros Hn. unfold Py.os_path_join.
  assert (Hstart : Py.startswith name "/" = false).
  { destruct name as [|c r]; [reflexivity|]. cbn [has_slash] in Hn.
    apply orb_false_elim in Hn as [Hc _]. unfold Py.slash in Hc.
    unfold Py.startswith. cbn [String.prefix].
    destruct (ascii_dec "/" c) as [<-|_]; [discriminate | reflexivity]. }
  rewrite Hstart.
  destruct d as [|x d']; [left; now split|]. right. split; [discriminate|].
  set (d := String x d').
  change (negb (Py.truthy d)) with false. simpl orb.
  destruct (Py.endswith d "/") eqn:He.
  - apply endswith_suffix in He as [a Ha]. exists a. rewrite Ha.
    now rewrite string_app_assoc.
  - exists d. reflexivity.
Qed.

Lemma endswith_slash_name (s m : string) :
  Py.endswith s (String Py.slash m) = true -> has_slash s = true.
Proof.
  intros H. apply endswith_suffix in H as [a ->]. apply has_slash_app.
Qed.

Lemma endswith_join_name (d name m : string) :
  d <> "" -> has_slash name = false -> has_slash m = false ->
  Py.endswith (Py.os_path_join d name) (String Py.slash m)
  = String.eqb name m.
Proof.
  intros Hd Hn Hm.
  destruct (join_shape d name Hn) as [[-> _]|[_ [a Ha]]]; [now destruct Hd|].
  rewrite Ha. destruct (String.eqb_spec name m) as [->|Hne].
  - apply endswith_app.
  - destruct (Py.endswith (a +:+ String Py.slash name) (String Py.slash m))
      eqn:He; [|reflexivity].
    apply endswith_suffix in He as [b Hb].
    assert (H1 : Py.basename_from "" (a +:+ String Py.slash name) = name)
      by now apply basename_from_after_slash.
    rewrite Hb in H1. rewrite basename_from_after_slash in H1 by assumption.
    congruence.
Qed.

Lemma basename_join (d name : string) :
  has_slash name = false ->
  Py.os_path_basename (Py.os_path_join d name) = name.
Proof.
  intros Hn. unfold Py.os_path_basename.
  destruct (join_shape d name Hn) as [[_ ->]|[_ [a ->]]].
  - now apply (basename_from_no_slash "").
  - now apply basename_from_after_slash.
Qed.

(** what the three tests on the path come to, for a joined path and for a
    path without a slash *)
Lemma skipped_by_name_join (args : Args) :
  (forall directory name,
      directory <> "" -> has_slash name = false ->
      skipped_by_name args (Py.os_path_join directory name)
      = (String.eqb name "node_modules" && args_skip_node_module_dirs args)
        || (args_skip_dotdirs args && Py.startswith name ".")
        || (String.eqb name "google-cloud-sdk"
            && args_skip_google_cloud_sdk_dirs args))
  /\ (forall directory,
        has_slash directory = false ->
        skipped_by_name args directory
        = args_skip_dotdirs args && Py.startswith directory ".").
Proof.
  split.
  - intros directory name Hd Hn. unfold skipped_by_name.
    change "/node_modules" with (String Py.slash "node_modules").
    change "/google-cloud-sdk" with (String Py.slash "google-cloud-sdk").
    rewrite !endswith_join_name, basename_join by (assumption || reflexivity).
    reflexivity.
  - intros directory Hd. unfold skipped_by_name.
    assert (Hno : forall m, Py.endswith directory (String Py.slash m) = false).
    { intros m. destruct (Py.endswith directory (String Py.slash m)) eqn:He;
        [|reflexivity].
      apply endswith_slash_name in He. congruence. }
    change "/node_modules" with (String Py.slash "node_modules").
    change "/google-cloud-sdk" with (String Py.slash "google-cloud-sdk").
    rewrite !Hno. unfold Py.os_path_basename.
    rewrite (basename_from_no_slash "" directory Hd). simpl.
    now rewrite orb_false_r.
Qed.

(** ** The skip by name, in the walk *)

(** X10: what [add_directory] does with a directory it has not visited is
    decided by the name alone for a directory found in a directory: when
    the name is [node_modules], begins with a dot or is [google-cloud-sdk],
    each under its flag, the call returns with the inode recorded and
    [os.scandir] is not called; otherwise [os.scandir] is called on the
    path and its entries are processed.  A path without a slash, as a root
    may be given, is skipped by the dot rule only: a root given as the bare
    name [node_modules] is enumerated. *)
Theorem skip_decided_by_name (fuel : nat) (w : World) (args : Args)
    (inode : option Z) (i : Z) (st : state) :
  (forall directory name,
      directory <> "" -> has_slash name = false ->
      resolve_inode w (Py.os_path_join directory name) inode = Ok i ->
      i ∉ canonicals st ->
      add_directory (S fuel) w args (Py.os_path_join directory name) inode st
      = if (String.eqb name "node_modules" && args_skip_node_module_dirs args)
           || (args_skip_dotdirs args && Py.startswith name ".")
           || (String.eqb name "google-cloud-sdk"
               && args_skip_google_cloud_sdk_dirs args)
        then Returned tt
               (logged (EvVisit (Py.os_path_join directory name) i)
                  (add_canonical i st))
        else
          match os_scandir w (Py.os_path_join directory name) with
          | Ok entries =>
              process_entries (add_directory fuel w args) w args
                (Py.os_path_join directory name) entries
                (entered (Py.os_path_join directory name) i st)
          | Raise e =>
              if is_PermissionError e
              then Returned tt
                     (add_permission_error (Py.os_path_join directory name)
                        (entered (Py.os_path_join directory name) i st))
              else Raised e (entered (Py.os_path_join directory name) i st)
          end)
  /\ (forall directory,
        has_slash directory = false ->
        resolve_inode w directory inode = Ok i ->
        i ∉ canonicals st ->
        add_directory (S fuel) w args directory inode st
        = if args_skip_dotdirs args && Py.startswith directory "."
          then Returned tt
                 (logged (EvVisit directory i) (add_canonical i st))
          else
            match os_scandir w directory with
            | Ok entries =>
                process_entries (add_directory fuel w args) w args
                  directory entries (entered directory i st)
            | Raise e =>
                if is_PermissionError e
                then Returned tt
                       (add_permission_error directory
                          (entered directory i st))
                else Raised e (entered directory i st)
            end).
Proof.
  assert (Hcall : forall p,
             resolve_inode w p inode = Ok i -> i ∉ canonicals st ->
             add_directory (S fuel) w args p inode st
             = if skipped_by_name args p
               then Returned tt (logged (EvVisit p i) (add_canonical i st))
               else
                 match os_scandir w p with
                 | Ok entries =>
                     process_entries (add_directory fuel w args) w args
                       p entries (entered p i st)
                 | Raise e =>
                     if is_PermissionError e
                     then Returned tt (add_permission_error p (entered p i st))
                     else Raised e (entered p i st)
                 end).
  { intros p Hres Hnew.
    rewrite (add_directory_new _ _ _ _ _ _ _ Hres Hnew).
    destruct (skipped_by_name args p) eqn:Hname.
    - now apply add_directory_body_skipped.
    - now apply add_directory_body_enumerates. }
  split.
  - intros directory name Hd Hn Hres Hnew.
    rewrite (Hcall _ Hres Hnew).
    now rewrite (proj1 (skipped_by_name_join args) directory name Hd Hn).
  - intros directory Hd Hres Hnew.
    rewrite (Hcall _ Hres Hnew).
    now rewrite (proj2 (skipped_by_name_join args) directory Hd).
Qed.

Lemma skip_decided_by_name_witness :
  add_directory 2 (fixture_world scenario) (default_args "x" [])
    "root/vendor/node_modules" (Some 14) initial_state
  = Returned tt
      (logged (EvVisit "root/vendor/node_modules" 14)
         (add_canonical 14 initial_state))
  /\ add_directory 2 (fixture_world bare_node_modules) (default_args "x" [])
       "node_modules" None initial_state
     = Returned tt
         (set_modtime "node_modules/c.js" 300
            (entered "node_modules" 14 initial_state)).
Proof.
  split.
  - refine (eq_trans
              (proj1 (skip_decided_by_name 1 (fixture_world scenario)
                        (default_args "x" []) (Some 14) 14 initial_state)
                 "root/vendor" "node_modules" _ eq_refl eq_refl
                 (not_elem_of_empty 14)) _).
    + discriminate.
    + reflexivity.
  - refine (eq_trans
              (proj2 (skip_decided_by_name 1 (fixture_world bare_node_modules)
                        (default_args "x" []) None 14 initial_state)
                 "node_modules" eq_refl eq_refl (not_elem_of_empty 14)) _).
    vm_compute. reflexivity.
Defined.

(** X11: a directory skipped for its name is recorded as visited all the
    same, so its inode is never walked afterwards under any other path
    either: every later call that resolves to the same inode returns at
    once, whatever its path. *)
Theorem skipped_directory_blocks_its_aliases (fuel : nat) (w : World)
    (args : Args) (directory : string) (inode : option Z) (i : Z)
    (st : state) :
  skipped_by_name args directory = true ->
  resolve_inode w directory inode = Ok i ->
  i ∉ canonicals st ->
  let st1 := logged (EvVisit directory i) (add_canonical i st) in
  add_directory (S fuel) w args directory inode st = Returned tt st1
  /\ forall fuel' other inode' st2,
       resolve_inode w other inode' = Ok i ->
       canonicals st1 ⊆ canonicals st2 ->
       add_directory (S fuel') w args other inode' st2 = Returned tt st2.
Proof.
  intros Hname Hres Hnew st1. split.
  - rewrite (add_directory_new _ _ _ _ _ _ _ Hres Hnew).
    now apply add_directory_body_skipped.
  - intros fuel' other inode' st2 Hres' Hsub.
    apply (add_directory_visited _ _ _ _ _ i); [exact Hres'|].
    apply Hsub. simpl. apply elem_of_union_l, elem_of_singleton. reflexivity.
Qed.

Lemma skipped_directory_blocks_its_aliases_witness :
  add_directory 3 (fixture_world dot_alias) (default_args "x" []) "." None
    initial_state
  = Returned tt dot_alias_visited
  /\ add_directory 3 (fixture_world dot_alias) (default_args "x" [])
       "/home/u/proj" None dot_alias_visited
     = Returned tt dot_alias_visited.
Proof.
  pose proof (skipped_directory_blocks_its_aliases 2 (fixture_world dot_alias)
                (default_args "x" []) "." None 50 initial_state
                eq_refl eq_refl (not_elem_of_empty 50)) as [Hfirst Hlater].
  split; [exact Hfirst|].
  apply (Hlater 2%nat "/home/u/proj" None dot_alias_visited eq_refl).
  reflexivity.
Defined.

Example dot_and_full_path_register_nothing :
  option_map file_modtimes
    (final_state (main 5 (fixture_world dot_alias)
                    (default_args "x" ["."; "/home/u/proj"]) initial_state))
  = Some [].
Proof. vm_compute. reflexivity. Qed.

(** ** Walking a root twice *)

Lemma dict_set_twice {V} (d : Py.dict V) (k : string) (v : V) :
  Py.dict_set (Py.dict_set d k v) k v = Py.dict_set d k v.
Proof.
  induction d as [|[k' v'] d IH]; simpl.
  - now rewrite String.eqb_refl.
  - destruct (String.eqb k' k) eqn:He; simpl; rewrite He; [reflexivity|].
    now rewrite IH.
Qed.

(** X12: walking a root a second time changes nothing: when [add_root]
    has returned for a path, a second [add_root] for the same path returns
    with the state it finds. *)
Theorem add_root_twice (fuel : nat) (w : World) (args : Args) (p : string)
    (st st1 : state) :
  add_root fuel w args p st = Returned tt st1 ->
  add_root fuel w args p st1 = Returned tt st1.
Proof.
  unfold add_root. destruct (os_path_isfile w p).
  - rewrite !add_file_run.
    destruct (os_path_getmtime w p) as [t|e].
    + intros H. injection H as <-. unfold set_modtime. simpl.
      now rewrite dict_set_twice.
    + destruct (is_PermissionError e); [|discriminate].
      intros H. injection H as <-. unfold add_permission_error. simpl.
      do 2 f_equal. apply set_eq. intros x.
      rewrite !elem_of_union. tauto.
  - destruct (os_path_isdir w p); [|discriminate].
    destruct fuel as [|fuel]; [discriminate|]. intros Hrun.
    destruct (resolve_inode w p None) as [i|e] eqn:Hres.
    2:{ rewrite (add_directory_raise _ _ _ _ _ _ _ Hres) in Hrun.
        discriminate. }
    apply (add_directory_visited _ _ _ _ _ i _ Hres).
    destruct (decide (i ∈ canonicals st)) as [Hold|Hnew].
    + rewrite (add_directory_visited _ _ _ _ _ _ _ Hres Hold) in Hrun.
      now injection Hrun as <-.
    + rewrite (add_directory_new _ _ _ _ _ _ _ Hres Hnew) in Hrun.
      assert (Hg : grows (logged (EvVisit p i) (add_canonical i st)) st1).
      { eapply preserves_Returned; [|exact Hrun].
        apply preserves_add_directory_body; try typeclasses eauto.
        - apply grows_set_modtime.
        - apply grows_add_permission_error.
        - apply grows_logged.
        - intros d j. apply grows_add_directory. }
      apply Hg. simpl. apply elem_of_union_l, elem_of_singleton. reflexivity.
Qed.

Lemma add_root_twice_witness :
  add_root 2 (fixture_world two_devices) (default_args "x" []) "/mnt/a"
    two_devices_after_a
  = Returned tt two_devices_after_a.
Proof.
  apply (add_root_twice 2 (fixture_world two_devices) (default_args "x" [])
           "/mnt/a" initial_state).
  vm_compute. reflexivity.
Defined.

(** ** Termination *)

(** X13: the walk and the run end.  When the inode numbers that the file
    system reports lie in a finite set, [add_directory] does not use up a
    fuel above the number of those not yet visited, and [main] does not use
    up a fuel above their number: each call that goes on adds an inode to
    [canonicals]. *)
Theorem walk_and_search_terminate (U : gset Z) (w : World) (args : Args)
    (fuel : nat) :
  inodes_within U w ->
  (forall directory inode st,
      (forall i, resolve_inode w directory inode = Ok i -> i ∈ U) ->
      (size (U ∖ canonicals st) < fuel)%nat ->
      add_directory fuel w args directory inode st <> OutOfFuel)
  /\ ((size U < fuel)%nat -> never_out_of_fuel (main fuel w args)).
Proof.
  intros HU. split.
  - intros directory inode st. now apply add_directory_terminates.
  - intros Hfuel. now apply (main_terminates U).
Qed.

Lemma two_devices_inodes_within :
  inodes_within two_devices_inodes (fixture_world two_devices).
Proof.
  assert (H5 : 5 ∈ two_devices_inodes)
    by (apply elem_of_union_l, elem_of_singleton; reflexivity).
  assert (H6 : 6 ∈ two_devices_inodes)
    by (apply elem_of_union_r, elem_of_singleton; reflexivity).
  split.
  - intros p s. unfold fixture_world, two_devices.
    cbn [os_stat fx_dirs Py.dict_get].
    destruct (String.eqb "/mnt/a" p); [intros H; injection H as <-; exact H5|].
    destruct (String.eqb "/mnt/b" p); [intros H; injection H as <-; exact H5|].
    discriminate.
  - intros p entries e. unfold fixture_world, two_devices.
    cbn [os_scandir fx_dirs Py.dict_get].
    destruct (String.eqb "/mnt/a" p).
    { intros H Hin _. injection H as <-. destruct Hin as [<-|[]]. exact H6. }
    destruct (String.eqb "/mnt/b" p).
    { intros H Hin _. injection H as <-. destruct Hin as [<-|[]]. exact H6. }
    discriminate.
Defined.

Lemma walk_and_search_terminate_witness :
  never_out_of_fuel
    (main 3 (fixture_world two_devices)
       (default_args "x" ["/mnt/a"; "/mnt/b"])).
Proof.
  apply (proj2 (walk_and_search_terminate two_devices_inodes
                  (fixture_world two_devices)
                  (default_args "x" ["/mnt/a"; "/mnt/b"]) 3
                  two_devices_inodes_within)).
  vm_compute. lia.
Defined.

(** ** The summary *)

Section SortedByLeb.
Context {A : Type} (leb : A -> A -> bool).
Hypothesis leb_total : forall a b, leb a b = true \/ leb b a = true.
Hypothesis leb_trans :
  forall a b c, leb a b = true -> leb b c = true -> leb a c = true.





End SortedByLeb.



(** ** What [run_grep] returns *)

Lemma lstrip_split (s : string) :
  exists a, s = a +:+ Py.lstrip s /\ all_space a = true.
Proof.
  induction s as [|c s (a & Ha & Hsp)]; simpl.
  - now exists "".
  - destruct (Py.isspace c) eqn:Hc.
    + exists (String c a). split.
      * change (String c s = String c (a +:+ Py.lstrip s)). now rewrite <- Ha.
      * simpl. now rewrite Hc, Hsp.
    + now exists "".
Qed.

Lemma lstrip_first (s : string) (c : ascii) :
  first_char (Py.lstrip s) = Some c -> Py.isspace c = false.
Proof.
  induction s as [|x s IH]; simpl; [discriminate|].
  destruct (Py.isspace x) eqn:Hx; [exact IH|].
  simpl. intros H. now injection H as <-.
Qed.

Lemma rstrip_cons (c : ascii) (r : string) :
  Py.rstrip (String c r)
  = match Py.rstrip r with
    | EmptyString =>
        if Py.isspace c then EmptyString else String c EmptyString
    | String x y => String c (String x y)
    end.
Proof. simpl. destruct (Py.rstrip r); reflexivity. Qed.

Lemma rstrip_split (s : string) :
  exists b, s = Py.rstrip s +:+ b /\ all_space b = true.
Proof.
  induction s as [|c s (b & Hb & Hsp)].
  - now exists "".
  - rewrite rstrip_cons. destruct (Py.rstrip s) as [|x y].
    + change (s = b) in Hb. subst b. destruct (Py.isspace c) eqn:Hc.
      * exists (String c s). split; [reflexivity|]. simpl. now rewrite Hc.
      * exists s. split; [reflexivity | exact Hsp].
    + exists b. split; [|exact Hsp].
      change (String c s = String c (String x y +:+ b)). now rewrite <- Hb.
Qed.

Lemma rstrip_last (s : string) (c : ascii) :
  last_char (Py.rstrip s) = Some c -> Py.isspace c = false.
Proof.
  induction s as [|x s IH]; [discriminate|].
  rewrite rstrip_cons. destruct (Py.rstrip s) as [|y z].
  - destruct (Py.isspace x) eqn:Hx; [discriminate|].
    simpl. intros H. now injection H as <-.
  - exact IH.
Qed.

Lemma rstrip_first (s : string) (c : ascii) :
  first_char (Py.rstrip s) = Some c -> first_char s = Some c.
Proof.
  destruct s as [|x s]; [discriminate|]. rewrite rstrip_cons.
  destruct (Py.rstrip s); [destruct (Py.isspace x); [discriminate|]|];
    simpl; auto.
Qed.

Lemma rstrip_twice (s : string) : Py.rstrip (Py.rstrip s) = Py.rstrip s.
Proof.
  induction s as [|c s IH]; [reflexivity|].
  rewrite rstrip_cons. destruct (Py.rstrip s) as [|x y] eqn:Hr.
  - destruct (Py.isspace c) eqn:Hc; [reflexivity|].
    simpl. now rewrite Hc.
  - rewrite rstrip_cons, IH. reflexivity.
Qed.

Lemma lstrip_fixed (s : string) :
  (forall c, first_char s = Some c -> Py.isspace c = false) ->
  Py.lstrip s = s.
Proof.
  destruct s as [|x s]; [reflexivity|]. intros H. simpl.
  now rewrite (H x eq_refl).
Qed.

Lemma strip_first (s : string) (c : ascii) :
  first_char (Py.strip s) = Some c -> Py.isspace c = false.
Proof.
  unfold Py.strip. intros H. apply rstrip_first in H.
  now apply (lstrip_first s).
Qed.

Lemma strip_twice (s : string) : Py.strip (Py.strip s) = Py.strip s.
Proof.
  unfold Py.strip at 1. rewrite lstrip_fixed.
  - unfold Py.strip. apply rstrip_twice.
  - apply strip_first.
Qed.

(** X15: what [run_grep] returns is the standard output of [grep] without
    the white space around it: the output is the result between two runs
    of white space, the result neither begins nor ends with a white-space
    character, and stripping it again changes nothing. *)
Theorem run_grep_result_is_stripped (w : World) (cmdline : list string)
    (st st' : state) (out : string) :
  run_grep w cmdline st = Returned (Some out) st' ->
  exists ret_code raw_out raw_err before after,
    Popen w cmdline = Ok (ret_code, raw_out, raw_err)
    /\ raw_out = before +:+ out +:+ after
    /\ all_space before = true
    /\ all_space after = true
    /\ (forall c, first_char out = Some c -> Py.isspace c = false)
    /\ (forall c, last_char out = Some c -> Py.isspace c = false)
    /\ Py.strip out = out.
Proof.
  rewrite run_grep_run.
  destruct (Popen w cmdline) as [[[ret_code raw_out] raw_err]|e];
    [|discriminate].
  destruct ((ret_code =? 0) || negb (Py.truthy (Py.strip raw_err)));
    [|discriminate].
  intros H. injection H as <- _.
  destruct (lstrip_split raw_out) as (a & Ha & Hsa).
  destruct (rstrip_split (Py.lstrip raw_out)) as (b & Hb & Hsb).
  exists ret_code, raw_out, raw_err, a, b.
  split; [reflexivity|]. split.
  { unfold Py.strip. rewrite <- Hb. exact Ha. }
  split; [exact Hsa|]. split; [exact Hsb|]. split; [apply strip_first|].
  split; [apply rstrip_last | apply strip_twice].
Qed.

Lemma run_grep_result_is_stripped_witness :
  exists ret_code raw_out raw_err before after,
    Popen (fixture_world scenario)
      (cmdline_for scenario_args "root/src/a.py")
    = Ok (ret_code, raw_out, raw_err)
    /\ raw_out = before +:+ "TODO one" +:+ after
    /\ all_space before = true
    /\ all_space after = true
    /\ (forall c, first_char "TODO one" = Some c -> Py.isspace c = false)
    /\ (forall c, last_char "TODO one" = Some c -> Py.isspace c = false)
    /\ Py.strip "TODO one" = "TODO one".
Proof.
  apply (run_grep_result_is_stripped (fixture_world scenario)
           (cmdline_for scenario_args "root/src/a.py") initial_state
           (logged (EvGrep (cmdline_for scenario_args "root/src/a.py"))
              initial_state)).
  reflexivity.
Defined.

(** ** The errors of the search *)




(** * Named files and lookup failures, in the whole run *)

(** ** A file named on the command line, in the whole run *)

(** the first file of a search is handed to [grep], however the search
    ends *)
Lemma search_files_first (w : World) (args : Args) (f : string)
    (rest : list string) (st st' : state) :
  final_state (search_files w args (f :: rest) st) = Some st' ->
  In (EvGrep (cmdline_for args f)) (trace st').
Proof.
  intros Hfin.
  assert (Hfirst : forall st1,
             final_state (run_grep w (cmdline_for args f) st) = Some st1 ->
             grows st1 st' -> In (EvGrep (cmdline_for args f)) (trace st')).
  { intros st1 Hgrep (_ & _ & _ & l & Hl).
    rewrite Hl, (run_grep_logs w _ st st1 Hgrep).
    apply in_or_app. right. now left. }
  rewrite search_files_cons in Hfin.
  destruct (run_grep w (cmdline_for args f) st) as [out st1|e st1|] eqn:Hgrep;
    [| |discriminate].
  2:{ injection Hfin as <-. apply (Hfirst st1); reflexivity. }
  apply (Hfirst st1); [reflexivity|].
  destruct (report w f out st1) as [[] st2|e st2|] eqn:Hrep;
    [| |discriminate].
  - transitivity st2.
    + apply (grows_report w f out st1). now rewrite Hrep.
    + exact (grows_search_files w args rest st2 st' Hfin).
  - injection Hfin as <-. apply (grows_report w f out st1). now rewrite Hrep.
Qed.

(** the events of a search, however it ends: one [EvGrep] for each file of
    a prefix of the list *)
Lemma search_files_events (w : World) (args : Args) (filenames : list string)
    (st st' : state) :
  final_state (search_files w args filenames st) = Some st' ->
  exists searched rest,
    filenames = searched ++ rest
    /\ trace st'
       = rev (map (fun f => EvGrep (cmdline_for args f)) searched)
         ++ trace st.
Proof.
  revert st. induction filenames as [|f l IH]; intros st Hfin.
  - injection Hfin as <-. now exists [], [].
  - rewrite search_files_cons in Hfin.
    destruct (run_grep w (cmdline_for args f) st) as [out st1|e st1|] eqn:Hgrep;
      [| |discriminate].
    2:{ injection Hfin as <-. exists [f], l. split; [reflexivity|].
        rewrite (run_grep_logs w (cmdline_for args f) st st1)
          by now rewrite Hgrep.
        reflexivity. }
    assert (H1 : st1 = logged (EvGrep (cmdline_for args f)) st).
    { apply (run_grep_logs w). now rewrite Hgrep. }
    destruct (report w f out st1) as [[] st2|e st2|] eqn:Hrep;
      [| |discriminate].
    + assert (H2 : trace st2 = trace st1).
      { apply (same_trace_report w f out st1). now rewrite Hrep. }
      destruct (IH _ Hfin) as (searched & rest & -> & Htrace).
      exists (f :: searched), rest. split; [reflexivity|].
      rewrite Htrace, H2, H1. simpl. now rewrite <- app_assoc.
    + injection Hfin as <-. exists [f], l. split; [reflexivity|].
      assert (H2 : trace st2 = trace st1).
      { apply (same_trace_report w f out st1). now rewrite Hrep. }
      rewrite H2, H1. reflexivity.
Qed.

(** C5, amended: a root path that is a plain file is registered by
    [add_file] with no test on its suffix or on its directory.  When
    [main] returns, the path is in the registry and [grep] has been run on
    it, with the command line [grep -m max_lines], [-i] when asked, the
    regular expression and the path.  It is not searched in every run.
    When the walk of the roots raises, [main] raises the same and no
    [grep] has been run.  In the search, the path is handed to [grep] as
    soon as the search of the files before it has returned, however the
    search ends afterwards; when the search of the files before it raises,
    the search ends there and [grep] has been run on files before it
    only. *)
Theorem named_file_registered_and_searched (fuel : nat) (w : World)
    (args : Args) (p : string) (t : Z) :
  os_path_isfile w p = true ->
  os_path_getmtime w p = Ok t ->
  (forall st,
      add_root fuel w args p st = Returned tt (set_modtime p t st)
      /\ Py.dict_get (file_modtimes (set_modtime p t st)) p = Some t)
  /\ (forall st files_and_directories st0 st',
        roots w args st = Returned files_and_directories st0 ->
        In p files_and_directories ->
        main fuel w args st = Returned tt st' ->
        Py.dict_in p (file_modtimes st') = true
        /\ In (EvGrep (["grep"; "-m"; args_max_lines args]
                       ++ (if args_i args then ["-i"] else [])
                       ++ [args_regex args; p]))
             (trace st'))
  /\ (forall st files_and_directories st0 e st1,
        roots w args st = Returned files_and_directories st0 ->
        for_each files_and_directories (add_root fuel w args) st0
        = Raised e st1 ->
        main fuel w args st = Raised e st1
        /\ grep_calls (trace st1) = grep_calls (trace st))
  /\ (forall before after st st1 st',
        search_files w args before st = Returned tt st1 ->
        final_state (search_files w args (before ++ p :: after) st)
        = Some st' ->
        In (EvGrep (["grep"; "-m"; args_max_lines args]
                    ++ (if args_i args then ["-i"] else [])
                    ++ [args_regex args; p]))
          (trace st'))
  /\ (forall before after st e st',
        search_files w args before st = Raised e st' ->
        search_files w args (before ++ p :: after) st = Raised e st'
        /\ forall cmdline,
             In (EvGrep cmdline) (trace st') ->
             In (EvGrep cmdline) (trace st)
             \/ exists f,
                  In f before
                  /\ cmdline
                     = ["grep"; "-m"; args_max_lines args]
                       ++ (if args_i args then ["-i"] else [])
                       ++ [args_regex args; f]).
Proof.
  intros Hfile Ht. split; [|split; [|split; [|split]]].
  - intros st. split; [now apply add_root_file|].
    simpl. rewrite dict_get_set, String.eqb_refl. reflexivity.
  - intros st l st0 st' Hroots Hin Hmain.
    unfold main, bind in Hmain. rewrite Hroots in Hmain.
    destruct (for_each l (add_root fuel w args) st0) as [[] st1|e1 st1|]
      eqn:Hwalk; try discriminate.
    destruct (summary args st1) as [[] st2|e2 st2|] eqn:Hsum;
      try discriminate.
    unfold get in Hmain.
    destruct (for_each_reaches grows l (add_root fuel w args) p st0 st1) as
      (sta & stb & Hbody & _ & Hg1); try assumption.
    { intros y. apply grows_add_root. }
    rewrite (add_root_file _ _ _ _ _ _ Hfile Ht) in Hbody.
    injection Hbody as <-.
    assert (Hreg1 : Py.dict_in p (file_modtimes st1) = true).
    { destruct Hg1 as (_ & _ & Hk & _). apply Hk. simpl.
      rewrite dict_in_set, String.eqb_refl. reflexivity. }
    assert (Hreg2 : Py.dict_in p (file_modtimes st2) = true).
    { assert (Hg : grows st1 st2)
        by (eapply preserves_Returned; [apply grows_summary | exact Hsum]).
      destruct Hg as (_ & _ & Hk & _). now apply Hk. }
    split.
    + assert (Hg : grows st2 st')
        by (eapply preserves_Returned;
            [apply grows_search_files | exact Hmain]).
      destruct Hg as (_ & _ & Hk & _). now apply Hk.
    + change (In (EvGrep (cmdline_for args p)) (trace st')).
      apply (search_files_logs _ _ _ _ _ _ Hmain).
      eapply Permutation_in.
      * symmetry. apply sorted_reverse_perm.
      * now apply dict_in_keys.
  - intros st l st0 e st1 Hroots Hwalk. split.
    + unfold main. rewrite (bind_Returned _ _ _ _ _ Hroots).
      now rewrite (bind_Raised _ _ _ _ _ Hwalk).
    + assert (H0 : trace st0 = trace st).
      { apply (same_trace_roots w args st). now rewrite Hroots. }
      assert (Hs : silent st0 st1).
      { assert (Hp : preserves silent (for_each l (add_root fuel w args))).
        { pres preserves_for_each. intros q _. apply silent_add_root. }
        apply Hp. now rewrite Hwalk. }
      destruct Hs as (_ & _ & Hcalls). now rewrite Hcalls, H0.
  - intros before after st st1 st' Hbefore Hfin.
    change (In (EvGrep (cmdline_for args p)) (trace st')).
    unfold search_files in Hfin. rewrite for_each_app in Hfin.
    unfold search_files in Hbefore.
    rewrite (bind_Returned _ _ _ _ _ Hbefore) in Hfin.
    exact (search_files_first w args p after st1 st' Hfin).
  - intros before after st e st' Hbefore. split.
    + unfold search_files in *. rewrite for_each_app.
      now rewrite (bind_Raised _ _ _ _ _ Hbefore).
    + intros cmdline Hin.
      destruct (search_files_events w args before st st') as
        (searched & rest & Hsplit & Htrace).
      { now rewrite Hbefore. }
      rewrite Htrace in Hin. apply in_app_or in Hin as [Hin|Hin];
        [|now left].
      right. apply in_rev, in_map_iff in Hin as (f & Hf & Hfin).
      injection Hf as <-. exists f. split; [|reflexivity].
      rewrite Hsplit. apply in_or_app. now left.
Qed.

(** C5 as the specification words it fails: [root/.git/config] is a file
    and is named first; the second path does not exist.  The file is
    registered, [main] raises for the second path, and no [grep] is ever
    run.  In the same way [b.py], named and registered, is never searched
    when [grep] fails on the newer [a.py]. *)
Lemma named_file_not_searched_counterexample :
  os_path_isfile (fixture_world scenario) "root/.git/config" = true
  /\ main 10 (fixture_world scenario) aborted_args initial_state
     = Raised (CannotFind "nowhere")
         (set_modtime "root/.git/config" 7 initial_state)
  /\ trace (set_modtime "root/.git/config" 7 initial_state) = []
  /\ ~ named_file_always_searched 10 (fixture_world scenario) aborted_args
         "root/.git/config" initial_state
  /\ option_map (fun st => (Py.dict_keys (file_modtimes st),
                            grep_calls (trace st)))
       (final_state (main 1 (fixture_world loud_failure)
                       (default_args "x" ["a.py"; "b.py"]) initial_state))
     = Some (["a.py"; "b.py"], [["grep"; "-m"; "5"; "x"; "a.py"]])
  /\ ~ named_file_always_searched 1 (fixture_world loud_failure)
         (default_args "x" ["a.py"; "b.py"]) "b.py" initial_state.
Proof.
  split; [reflexivity|]. split; [vm_compute; reflexivity|].
  split; [reflexivity|]. split; [|split; [vm_compute; reflexivity|]].
  - intros H.
    destruct (H (or_introl eq_refl) eq_refl
                (set_modtime "root/.git/config" 7 initial_state))
      as (_ & cmdline & Hin & _).
    + vm_compute. reflexivity.
    + destruct Hin.
  - intros H.
    destruct (H (or_intror (or_introl eq_refl)) eq_refl
                (logged (EvGrep ["grep"; "-m"; "5"; "x"; "a.py"])
                   (printed "Searching 2 files."
                      (set_modtime "b.py" 50
                         (set_modtime "a.py" 100 initial_state)))))
      as (_ & cmdline & Hin & Hp).
    + vm_compute. reflexivity.
    + destruct Hin as [Hin|[]]. injection Hin as <-.
      repeat (destruct Hp as [Hp|Hp]; [discriminate|]). destruct Hp.
Qed.

Lemma named_file_registered_and_searched_witness :
  add_root 10 (fixture_world scenario) scenario_args "root/.git/config"
    initial_state
  = Returned tt (set_modtime "root/.git/config" 7 initial_state)
  /\ Py.dict_in "root/.git/config" (file_modtimes scenario_final) = true
  /\ In (EvGrep ["grep"; "-m"; "5"; "TODO"; "root/.git/config"])
       (trace scenario_final)
  /\ main 10 (fixture_world scenario) aborted_args initial_state
     = Raised (CannotFind "nowhere")
         (set_modtime "root/.git/config" 7 initial_state).
Proof.
  pose proof (named_file_registered_and_searched 10 (fixture_world scenario)
                scenario_args "root/.git/config" 7 eq_refl eq_refl)
    as (Hreg & Hrun & _).
  pose proof (named_file_registered_and_searched 10 (fixture_world scenario)
                aborted_args "root/.git/config" 7 eq_refl eq_refl)
    as (_ & _ & Habort & _).
  split; [apply Hreg|]. split; [|split].
  - apply (Hrun initial_state ["root"; "root/.git/config"] initial_state).
    + reflexivity.
    + simpl. right. left. reflexivity.
    + vm_compute. reflexivity.
  - apply (Hrun initial_state ["root"; "root/.git/config"] initial_state).
    + reflexivity.
    + simpl. right. left. reflexivity.
    + vm_compute. reflexivity.
  - apply (Habort initial_state ["root/.git/config"; "nowhere"]
             initial_state).
    + reflexivity.
    + vm_compute. reflexivity.
Defined.

(** ** Lookup failures in the walk *)

Section ReturnsWith.
Context (R : state -> state -> Prop) `{!PreOrder R}.

Lemma returns_of_preserves {A} (m : M A) :
  preserves R m -> returns_with R m.
Proof. intros H st a st' Hrun. apply H. now rewrite Hrun. Qed.



End ReturnsWith.






Section Lookups.
Context (w : World) (args : Args).

Lemma new_events_unique (st st' : state) (l l' : list event) :
  trace st' = l ++ trace st -> trace st' = l' ++ trace st -> l = l'.
Proof.
  intros H H'. rewrite H in H'. now apply app_inv_tail in H'.
Qed.

(** a step that enumerates no directory *)
Lemma lookups_no_scan (st st' : state) (l : list event) :
  grows st st' ->
  trace st' = l ++ trace st ->
  (forall d i, ~ In (EvScandir d i) l) ->
  lookups_recovered w args st st'.
Proof.
  intros Hg Hl Hnone. split; [exact Hg|].
  intros l' Hl' d i entries entry Hin.
  rewrite <- (new_events_unique st st' l l' Hl Hl') in Hin.
  now destruct (Hnone d i).
Qed.

Lemma lookups_quiet (st st' : state) :
  grows st st' -> trace st' = trace st -> lookups_recovered w args st st'.
Proof.
  intros Hg Hsame. apply (lookups_no_scan st st' []); [exact Hg|exact Hsame|].
  intros d i [].
Qed.

#[global] Instance lookups_recovered_preorder :
  PreOrder (lookups_recovered w args).
Proof.
  split.
  - intros st. apply lookups_quiet; reflexivity.
  - intros a b c [Hab Rab] [Hbc Rbc].
    split; [now transitivity b|].
    intros l Hl d i entries entry Hin Hscan Hnot He Hsrc.
    destruct Hab as (Hc1 & Hp1 & Hk1 & l1 & Hl1).
    destruct Hbc as (Hc2 & Hp2 & Hk2 & l2 & Hl2).
    assert (Hsplit : l = l2 ++ l1).
    { apply (new_events_unique a c); [exact Hl|].
      now rewrite Hl2, Hl1, app_assoc. }
    rewrite Hsplit in Hin. apply in_app_or in Hin as [Hin|Hin].
    + exact (Rbc l2 Hl2 d i entries entry Hin Hscan Hnot He Hsrc).
    + destruct (Rab l1 Hl1 d i entries entry Hin Hscan Hnot He Hsrc)
        as [(t & Ht & Hreg)|(Hdenied & Hrec)].
      * left. exists t. split; [exact Ht | now apply Hk2].
      * right. split; [exact Hdenied | now apply Hp2].
Qed.





End Lookups.

(** *** A walk that meets nothing but denials returns *)









(** *** Another failure ends the call *)






